(** * Sesame: session indexer, store and ranked retrieval

    A shallow embedding of the indexing, storage and query code of the
    sesame repository:

    - [src/types/session.ts]      normalized session types
    - [src/parsers/pi.ts]         the Pi JSONL adapter (message -> turn)
    - [src/indexer/index.ts]      [indexSessions]
    - [src/storage/db.ts]         schema ledger, transactions, [search]
    - [src/storage/migrations/*]  the upgrade steps

    JavaScript strings are modelled as [string] (the UTF-8 bytes SQLite
    stores and compares), JavaScript numbers that are integers as [Z],
    [null]/[undefined] as [None], thrown exceptions as the [Err] branch of
    [Result]. *)

From Stdlib Require Import List String Ascii ZArith Lia Bool Sorted Permutation
  DecimalString.
Import ListNotations.

Open Scope string_scope.
Open Scope Z_scope.
Open Scope list_scope.

Set Implicit Arguments.

(** ** Results of fallible calls *)

Inductive Result (A : Type) : Type :=
| Ok (a : A)
| Err (msg : string).
Arguments Ok {A} a.
Arguments Err {A} msg.

(** ** JavaScript and SQLite primitives used by the code *)

Module Js.

Definition nl : string := String (ascii_of_nat 10) EmptyString.
Definition dquote : string := String (ascii_of_nat 34) EmptyString.

(** Truthiness of an optional string ([if (cwd)], [row.name || ...]):
    [undefined], [null] and the empty string are falsy. *)
Definition truthy (o : option string) : option string :=
  match o with
  | Some s => if String.eqb s "" then None else Some s
  | None => None
  end.

(** [a || b] on an optional string. *)
Definition or_else (o : option string) (d : string) : string :=
  match truthy o with Some s => s | None => d end.

Definition byte (a : ascii) : nat := nat_of_ascii a.

Definition ascii_ws (a : ascii) : bool :=
  let n := byte a in
  (Nat.eqb n 9 || Nat.eqb n 10 || Nat.eqb n 11 || Nat.eqb n 12
   || Nat.eqb n 13 || Nat.eqb n 32)%bool.

(** Two- and three-byte UTF-8 encodings of the remaining code points of
    ECMAScript's WhiteSpace and LineTerminator classes: U+00A0, U+1680,
    U+2000..U+200A, U+2028, U+2029, U+202F, U+205F, U+3000, U+FEFF. *)
Definition ws2 (a b : ascii) : bool :=
  (Nat.eqb (byte a) 194 && Nat.eqb (byte b) 160)%bool.

Definition ws3 (a b c : ascii) : bool :=
  let x := byte a in let y := byte b in let z := byte c in
  ((Nat.eqb x 225 && Nat.eqb y 154 && Nat.eqb z 128)
   || (Nat.eqb x 226 && Nat.eqb y 128
       && ((Nat.leb 128 z && Nat.leb z 138) || Nat.eqb z 168
           || Nat.eqb z 169 || Nat.eqb z 175))
   || (Nat.eqb x 226 && Nat.eqb y 129 && Nat.eqb z 159)
   || (Nat.eqb x 227 && Nat.eqb y 128 && Nat.eqb z 128)
   || (Nat.eqb x 239 && Nat.eqb y 187 && Nat.eqb z 191))%bool.

(** A piece of a string: one whitespace code point, or one other byte. *)
Inductive Piece : Type :=
| Space
| Byte (a : ascii).

Fixpoint pieces (s : string) : list Piece :=
  match s with
  | EmptyString => []
  | String a r1 =>
      if ascii_ws a then Space :: pieces r1
      else
        match r1 with
        | EmptyString => [Byte a]
        | String b r2 =>
            if ws2 a b then Space :: pieces r2
            else
              match r2 with
              | EmptyString => Byte a :: pieces r1
              | String c r3 =>
                  if ws3 a b c then Space :: pieces r3
                  else Byte a :: pieces r1
              end
        end
  end.

Definition is_space (p : Piece) : bool :=
  match p with Space => true | Byte _ => false end.

(** [s.trim() === ""]: the string holds whitespace only. *)
Definition isBlank (s : string) : bool := forallb is_space (pieces s).

(** [s.split(/\s+/).filter(Boolean)]: the maximal runs of
    non-whitespace. *)
Fixpoint tokens_aux (ps : list Piece) (cur : string) : list string :=
  match ps with
  | [] => if String.eqb cur "" then [] else [cur]
  | Space :: r =>
      if String.eqb cur "" then tokens_aux r ""
      else cur :: tokens_aux r ""
  | Byte a :: r => tokens_aux r (cur ++ String a EmptyString)%string
  end.

Definition tokens (s : string) : list string := tokens_aux (pieces s) "".

(** [Array.prototype.slice(0, end)] for an integer [end]: a negative
    [end] counts from the end of the array. *)
Definition slice0 (A : Type) (stop : Z) (l : list A) : list A :=
  let len := Z.of_nat (List.length l) in
  let k := if stop <? 0 then Z.max (len + stop) 0 else Z.min stop len in
  firstn (Z.to_nat k) l.

(** SQL [LIMIT n]: a negative [n] means no limit. *)
Definition sql_limit (A : Type) (n : Z) (l : list A) : list A :=
  if n <? 0 then l else firstn (Z.to_nat n) l.

(** ASCII case folding of SQLite's built-in LIKE. *)
Definition lower (a : ascii) : ascii :=
  let n := byte a in
  if (Nat.leb 65 n && Nat.leb n 90)%bool then ascii_of_nat (n + 32) else a.

Definition is_cont (a : ascii) : bool :=
  (Nat.leb 128 (byte a) && Nat.leb (byte a) 191)%bool.

Fixpoint skip_cont (s : string) : string :=
  match s with
  | String a r => if is_cont a then skip_cont r else s
  | EmptyString => s
  end.

(** [x LIKE p] of SQLite without ESCAPE clause: [%] matches any run of
    characters, [_] one character, every other pattern character
    matches itself up to ASCII case. *)
Fixpoint like (p : string) (s : string) : bool :=
  match p with
  | EmptyString => match s with EmptyString => true | _ => false end
  | String c p' =>
      if Ascii.eqb c "%"%char then
        (fix star (t : string) : bool :=
           (like p' t
            || match t with
               | EmptyString => false
               | String _ t' => star t'
               end)%bool) s
      else if Ascii.eqb c "_"%char then
        match s with
        | EmptyString => false
        | String _ s' => like p' (skip_cont s')
        end
      else
        match s with
        | EmptyString => false
        | String d s' => (Ascii.eqb (lower c) (lower d) && like p' s')%bool
        end
  end.

(** [x LIKE p] where [x] may be NULL: NULL never satisfies a WHERE
    clause. *)
Definition like_opt (p : string) (x : option string) : bool :=
  match x with Some s => like p s | None => false end.

(** Binary (memcmp) comparison of TEXT values; NULL fails the test. *)
Definition text_ge (x : option string) (y : string) : bool :=
  match x with Some s => String.leb y s | None => false end.

Definition text_le (x : option string) (y : string) : bool :=
  match x with Some s => String.leb s y | None => false end.

Definition opt_eqb (x : option string) (y : string) : bool :=
  match x with Some s => String.eqb s y | None => false end.

End Js.

(** ** [src/types/session.ts] *)

Module Session.

#[warnings="-register-all"]
Inductive Json : Type :=
| JNull
| JBool (b : bool)
| JNum (n : Z)
| JStr (s : string)
| JArr (l : list Json)
| JObj (fields : list (string * Json)).

Inductive Role : Type := user | assistant | system.

Definition role_text (r : Role) : string :=
  match r with
  | user => "user"
  | assistant => "assistant"
  | system => "system"
  end.

Record CodeBlock : Type := mkCodeBlock {
  language : option string;
  code : string;
  code_source : string
}.

(** [args] is an object by its type; the adapter copies it from the
    file unchecked, and [JNull] also stands for a missing value. *)
Record ToolCall : Type := mkToolCall {
  tc_name : string;
  args : Json;
  result : option string
}.

(** [textContent] is a string by its type; the adapter copies it from
    the file unchecked, so it can be missing ([None]). *)
Record Turn : Type := mkTurn {
  role : Role;
  textContent : option string;
  codeBlocks : list CodeBlock;
  toolCalls : list ToolCall;
  toolName : option string;
  isError : option bool
}.

Record ParsedSession : Type := mkParsedSession {
  id : string;
  source : string;
  cwd : option string;
  name : option string;
  createdAt : string;
  modifiedAt : string;
  turns : list Turn
}.

End Session.

(** ** [src/parsers/pi.ts]: one message line to one turn *)

Module PiParser.
Import Session.

Inductive ContentBlock : Type :=
| TextContent (text : string)
| ToolCallContent (call_id call_name : string) (arguments : Json)
| ThinkingContent (thinking : string).

Inductive Message : Type :=
| UserMessage (content : list ContentBlock)
| AssistantMessage (content : list ContentBlock)
| ToolResultMessage (toolCallId toolName : string)
                    (isError : option bool) (content : list ContentBlock)
| BashExecutionMessage (command output : string) (exitCode : Z).

Fixpoint textBlocks (content : list ContentBlock) : list string :=
  match content with
  | [] => []
  | TextContent t :: r => t :: textBlocks r
  | _ :: r => textBlocks r
  end.

Fixpoint toolCallBlocks (content : list ContentBlock) : list ToolCall :=
  match content with
  | [] => []
  | ToolCallContent _ n a :: r => mkToolCall n a None :: toolCallBlocks r
  | _ :: r => toolCallBlocks r
  end.

Definition joinText (content : list ContentBlock) : string :=
  String.concat Js.nl (textBlocks content).

(** The [case "message"] branch of [parse]. *)
Definition turnOfMessage (m : Message) : Turn :=
  match m with
  | UserMessage content =>
      mkTurn user (Some (joinText content)) [] [] None None
  | AssistantMessage content =>
      mkTurn assistant (Some (joinText content)) [] (toolCallBlocks content)
             None None
  | ToolResultMessage _ tn err content =>
      mkTurn system (Some (joinText content)) [] [] (Some tn)
             (Some (match err with Some b => b | None => false end))
  | BashExecutionMessage command output _ =>
      mkTurn system (Some ("$ " ++ command ++ Js.nl ++ output)%string)
             [] [] None None
  end.

(** A turn stands for a tool-result event when the adapter recorded a
    tool name on it. *)
Definition isToolResult (t : Turn) : bool :=
  match Session.toolName t with Some _ => true | None => false end.

End PiParser.

(** ** [src/storage/db.ts]: rows, transactions and the write path *)

Module Db.

Record StoredSession : Type := mkStoredSession {
  id : string;
  source : string;
  path : string;
  cwd : option string;
  name : option string;
  created_at : option string;
  modified_at : option string;
  message_count : Z;
  file_mtime : Z
}.

(** [is_error]: [Some 0] success, [Some 1] error, [None] not applicable
    (SQL NULL; also the value bound when the field is left out). *)
Record StoredChunk : Type := mkStoredChunk {
  chunk_id : Z;
  session_id : string;
  kind : string;
  role : option string;
  tool_name : option string;
  seq : Z;
  content : string;
  is_error : option Z
}.

(** The [sessions] and [chunks] tables in rowid order, and the
    AUTOINCREMENT counter of [chunks.id].  The full-text shadow
    [chunks_fts] is kept equal to [chunks] by the three triggers of
    SCHEMA, so it has no state of its own. *)
Record Tables : Type := mkTables {
  sessions : list StoredSession;
  chunks : list StoredChunk;
  chunk_seq : Z
}.

(** A connection: the committed tables and, inside BEGIN .. COMMIT, the
    working copy the statements of the transaction act on. *)
Record Database : Type := mkDatabase {
  committed : Tables;
  working : option Tables
}.

Definition view (db : Database) : Tables :=
  match working db with Some t => t | None => committed db end.

(** A statement outside a transaction commits on its own. *)
Definition write (db : Database) (t : Tables) : Database :=
  match working db with
  | Some _ => mkDatabase (committed db) (Some t)
  | None => mkDatabase t None
  end.

Definition has_session (t : Tables) (sid : string) : bool :=
  existsb (fun s => String.eqb (id s) sid) (sessions t).

Definition exec_begin (db : Database) : Result Database :=
  match working db with
  | None => Ok (mkDatabase (committed db) (Some (committed db)))
  | Some _ => Err "cannot start a transaction within a transaction"
  end.

Definition exec_commit (db : Database) : Result Database :=
  match working db with
  | Some t => Ok (mkDatabase t None)
  | None => Err "cannot commit - no transaction is active"
  end.

Definition exec_rollback (db : Database) : Database :=
  mkDatabase (committed db) None.

(** [INSERT INTO sessions ...]: [id] is the primary key. *)
Definition insert_session_row (s : StoredSession) (t : Tables)
  : Result Tables :=
  if has_session t (id s) then Err "UNIQUE constraint failed: sessions.id"
  else Ok (mkTables (sessions t ++ [s]) (chunks t) (chunk_seq t)).

(** [INSERT INTO chunks ...]: the store assigns the next id; with
    [PRAGMA foreign_keys = ON] the owning session must exist. *)
Definition assign (k : Z) (c : StoredChunk) : StoredChunk :=
  mkStoredChunk k (session_id c) (kind c) (role c) (tool_name c) (seq c)
                (content c) (is_error c).

Definition insert_chunk_row (c : StoredChunk) (t : Tables) : Result Tables :=
  if has_session t (session_id c) then
    Ok (mkTables (sessions t)
                 (chunks t ++ [assign (chunk_seq t + 1) c])
                 (chunk_seq t + 1))
  else Err "FOREIGN KEY constraint failed".

Inductive Stmt : Type :=
| InsertSessionStmt (s : StoredSession)
| InsertChunkStmt (c : StoredChunk)
| Commit.

Definition run_stmt (st : Stmt) (db : Database) : Result Database :=
  match st with
  | InsertSessionStmt s =>
      match insert_session_row s (view db) with
      | Ok t => Ok (write db t)
      | Err e => Err e
      end
  | InsertChunkStmt c =>
      match insert_chunk_row c (view db) with
      | Ok t => Ok (write db t)
      | Err e => Err e
      end
  | Commit => exec_commit db
  end.

(** The SQLite binding behind a connection: [getDatabaseConstructor]
    takes [bun:sqlite] under Bun and [node:sqlite] otherwise.  They
    differ on a parameter bound to [undefined]: [bun:sqlite] stores
    NULL, [node:sqlite] throws. *)
Inductive Runtime : Type := Bun | Node.

(** Failures that do not come from a constraint (disk full, I/O error,
    busy database, a value that cannot be bound): [Some k] makes the
    [k]-th statement of the transaction fail. *)
Definition Fault : Type := option nat.

Definition strikes (fault : Fault) (k : nat) : bool :=
  match fault with Some j => Nat.eqb j k | None => false end.

(** The body of the [try] block: statements run in order until one
    throws. *)
Fixpoint run_all (fault : Fault) (k : nat) (sts : list Stmt) (db : Database)
  : Database * option string :=
  match sts with
  | [] => (db, None)
  | st :: rest =>
      if strikes fault k then (db, Some "disk I/O error")
      else
        match run_stmt st db with
        | Ok db' => run_all fault (S k) rest db'
        | Err e => (db, Some e)
        end
  end.

Definition statements (s : StoredSession) (cs : list StoredChunk)
  : list Stmt :=
  InsertSessionStmt s :: map InsertChunkStmt cs ++ [Commit].

(** [insertSession]: BEGIN; try { session row; chunk rows; COMMIT }
    catch { ROLLBACK; throw }.  The second component is the exception
    thrown to the caller, if any. *)
Definition insertSession (fault : Fault) (db : Database)
           (s : StoredSession) (cs : list StoredChunk)
  : Database * option string :=
  match exec_begin db with
  | Err e => (db, Some e)
  | Ok db1 =>
      match run_all fault 0 (statements s cs) db1 with
      | (db2, None) => (db2, None)
      | (db2, Some e) => (exec_rollback db2, Some e)
      end
  end.

Definition getSessionMtime (db : Database) (sessionId : string) : option Z :=
  match find (fun s => String.eqb (id s) sessionId) (sessions (view db)) with
  | Some s => Some (file_mtime s)
  | None => None
  end.

(** [DELETE FROM sessions WHERE id = ?], cascading to the chunks. *)
Definition deleteSession (db : Database) (sessionId : string) : Database :=
  let t := view db in
  write db
    (mkTables
       (filter (fun s => negb (String.eqb (id s) sessionId)) (sessions t))
       (filter (fun c => negb (String.eqb (session_id c) sessionId))
               (chunks t))
       (chunk_seq t)).

(** The ids the store gives to a batch of chunks inserted after [k]. *)
Fixpoint numbered (k : Z) (cs : list StoredChunk) : list StoredChunk :=
  match cs with
  | [] => []
  | c :: r => assign (k + 1) c :: numbered (k + 1) r
  end.

End Db.

(** ** [src/indexer/index.ts] *)

Module Indexer.

Record IndexResult : Type := mkIndexResult {
  added : Z;
  updated : Z;
  skipped : Z;
  errors : Z
}.

(** What the quick check learns from the first line of a file:
    [readFirstLine] gave nothing usable, [JSON.parse] (or reading [id]
    off its value) threw, or the header was read and [header.id] is
    the given value ([None] when it is missing or falsy). *)
Inductive HeaderRead : Type :=
| NoLine
| Malformed
| HeaderId (sessionId : option string).

(** One candidate file as the run observes it. *)
Record File : Type := mkFile {
  filePath : string;
  canParse : bool;
  mtimeMs : option Z;
  header : HeaderRead;
  parse : Result Session.ParsedSession;
  writeFault : Db.Fault
}.

(** A directory entry of [sessionsDir]; a subdirectory that cannot be
    read has no listing. *)
Inductive Entry : Type :=
| FileEntry (f : File)
| DirEntry (children : option (list File)).

Inductive Event : Type :=
| EvParse (p : string)
| EvDelete (sessionId : string)
| EvInsert (sessionId : string).

Record State : Type := mkState {
  db : Db.Database;
  result : IndexResult;
  log : list Event
}.

Definition zero : IndexResult := mkIndexResult 0 0 0 0.

Definition bump_added (r : IndexResult) : IndexResult :=
  mkIndexResult (added r + 1) (updated r) (skipped r) (errors r).
Definition bump_updated (r : IndexResult) : IndexResult :=
  mkIndexResult (added r) (updated r + 1) (skipped r) (errors r).
Definition bump_skipped (r : IndexResult) : IndexResult :=
  mkIndexResult (added r) (updated r) (skipped r + 1) (errors r).
Definition bump_errors (r : IndexResult) : IndexResult :=
  mkIndexResult (added r) (updated r) (skipped r) (errors r + 1).

Section Chunks.

(** The runtime the process runs on, which fixes the SQLite binding. *)
Variable runtime : Db.Runtime.

(** [formatToolCall] of [format-tool-call.ts] renders one tool call, or
    throws. *)
Variable formatToolCall : Session.ToolCall -> Result string.

(** The two objects the loop pushes.  Neither has an [is_error]
    property: the field reads [undefined], for which [None] stands
    here; what binding it does is in [bindFault] below. *)
Definition messageChunk (sid : string) (turn : Session.Turn) (text : string)
           (n : Z) : Db.StoredChunk :=
  Db.mkStoredChunk 0 sid "message"
    (Some (Session.role_text (Session.role turn))) None n text None.

Definition toolCallChunk (sid : string) (tc : Session.ToolCall)
           (content : string) (n : Z) : Db.StoredChunk :=
  Db.mkStoredChunk 0 sid "tool_call" None (Some (Session.tc_name tc)) n
    content None.

(** [for (const tc of turn.toolCalls)]: the chunks pushed and the next
    [seq], or the exception of [formatToolCall]. *)
Fixpoint toolChunks (sid : string) (tcs : list Session.ToolCall) (n : Z)
  : Result (list Db.StoredChunk * Z) :=
  match tcs with
  | [] => Ok ([], n)
  | tc :: r =>
      match formatToolCall tc with
      | Err e => Err e
      | Ok content =>
          if Js.isBlank content then toolChunks sid r n
          else
            match toolChunks sid r (n + 1) with
            | Ok (cs, n') => Ok (toolCallChunk sid tc content n :: cs, n')
            | Err e => Err e
            end
      end
  end.

Definition trimOfUndefined : string :=
  "TypeError: Cannot read properties of undefined (reading 'trim')".

(** The chunks pushed while visiting one turn, and the next [seq];
    [turn.textContent.trim()] throws when the text is missing. *)
Definition turnChunks (sid : string) (turn : Session.Turn) (n : Z)
  : Result (list Db.StoredChunk * Z) :=
  match Session.textContent turn with
  | None => Err trimOfUndefined
  | Some text =>
      if Js.isBlank text then toolChunks sid (Session.toolCalls turn) n
      else
        match toolChunks sid (Session.toolCalls turn) (n + 1) with
        | Ok (cs, n') => Ok (messageChunk sid turn text n :: cs, n')
        | Err e => Err e
        end
  end.

(** [for (const turn of parsedSession.turns)]: the list [chunks], or the
    first exception. *)
Fixpoint buildChunks (sid : string) (ts : list Session.Turn) (n : Z)
  : Result (list Db.StoredChunk) :=
  match ts with
  | [] => Ok []
  | t :: r =>
      match turnChunks sid t n with
      | Err e => Err e
      | Ok (cs, n') =>
          match buildChunks sid r n' with
          | Ok rest => Ok (cs ++ rest)
          | Err e => Err e
          end
      end
  end.

Definition storedSession (f : File) (ps : Session.ParsedSession)
           (fileMtime : Z) : Db.StoredSession :=
  Db.mkStoredSession (Session.id ps) (Session.source ps) (filePath f)
    (Session.cwd ps) (Session.name ps)
    (Some (Session.createdAt ps)) (Some (Session.modifiedAt ps))
    (Z.of_nat (List.length (Session.turns ps))) fileMtime.

(** What [insertSession] meets when it is given the chunks of the loop.
    Every chunk statement binds [chunk.is_error], which is [undefined]:
    under [node:sqlite] the first chunk statement, statement 1 of the
    transaction, throws at the bind, unless the session statement has
    failed before it; under [bun:sqlite] NULL is stored.  [fault] is
    the failure the environment has in store for the write. *)
Definition bindFault (fault : Db.Fault) (cs : list Db.StoredChunk)
  : Db.Fault :=
  match runtime, cs with
  | Db.Node, _ :: _ =>
      match fault with
      | Some O => Some O
      | _ => Some 1%nat
      end
  | _, _ => fault
  end.

Definition caught (st : State) (d : Db.Database) (evs : list Event)
  : State :=
  mkState d (bump_errors (result st)) (log st ++ evs).

(** The part of the loop body after the quick check: full parse,
    delete the old rows if any, build the chunks, insert, classify.
    The delete is a statement of its own: it stays when a later step
    throws. *)
Definition reindex (st : State) (f : File) (fileMtime : Z) : State :=
  match parse f with
  | Err _ => caught st (db st) [EvParse (filePath f)]
  | Ok ps =>
      let sid := Session.id ps in
      let storedMtime := Db.getSessionMtime (db st) sid in
      let db1 :=
        match storedMtime with
        | Some _ => Db.deleteSession (db st) sid
        | None => db st
        end in
      let before :=
        EvParse (filePath f)
        :: match storedMtime with
           | Some _ => [EvDelete sid]
           | None => []
           end in
      match buildChunks sid (Session.turns ps) 0 with
      | Err _ => caught st db1 before
      | Ok cs =>
          match Db.insertSession (bindFault (writeFault f) cs) db1
                  (storedSession f ps fileMtime) cs with
          | (db2, Some _) => caught st db2 (before ++ [EvInsert sid])
          | (db2, None) =>
              mkState db2
                (match storedMtime with
                 | None => bump_added (result st)
                 | Some _ => bump_updated (result st)
                 end)
                (log st ++ before ++ [EvInsert sid])
          end
      end
  end.

(** One iteration of [for (const filePath of filePaths)]. *)
Definition indexFile (st : State) (f : File) : State :=
  if negb (canParse f) then st
  else
    match mtimeMs f with
    | None => caught st (db st) []
    | Some fileMtime =>
        match header f with
        | Malformed => caught st (db st) []
        | HeaderId (Some sid) =>
            match Db.getSessionMtime (db st) sid with
            | Some storedMtime =>
                if storedMtime =? fileMtime then
                  mkState (db st) (bump_skipped (result st)) (log st)
                else reindex st f fileMtime
            | None => reindex st f fileMtime
            end
        | HeaderId None => reindex st f fileMtime
        | NoLine => reindex st f fileMtime
        end
    end.

Definition indexFiles (fs : list File) (st : State) : State :=
  fold_left indexFile fs st.

(** The directory scan: one level of recursion, unreadable
    subdirectories contribute nothing. *)
Fixpoint collect (entries : list Entry) : list File :=
  match entries with
  | [] => []
  | FileEntry f :: r => f :: collect r
  | DirEntry (Some children) :: r => children ++ collect r
  | DirEntry None :: r => collect r
  end.

(** [indexSessions]; [None] for [sessionsDir] means that reading the
    directory itself threw.  The function has no throwing path: it
    always returns a state. *)
Definition indexSessions (d : Db.Database)
           (sessionsDir : option (list Entry)) : State :=
  match sessionsDir with
  | None => mkState d zero []
  | Some entries => indexFiles (collect entries) (mkState d zero [])
  end.

End Chunks.

End Indexer.

(** ** [src/storage/db.ts]: the query engine *)

Module Opt.

Inductive Status : Type := success | error.

(** [SearchOptions]; [None] is an option left out. *)
Record SearchOptions : Type := mkSearchOptions {
  cwd : option string;
  after : option string;
  before : option string;
  limit : option Z;
  toolsOnly : option bool;
  toolName : option string;
  pathFilter : option string;
  exclude : option (list string);
  status : option Status
}.

Definition none : SearchOptions :=
  mkSearchOptions None None None None None None None None None.

Definition with_exclude (o : SearchOptions) (e : option (list string))
  : SearchOptions :=
  mkSearchOptions (cwd o) (after o) (before o) (limit o) (toolsOnly o)
                  (toolName o) (pathFilter o) e (status o).

Definition with_cwd (o : SearchOptions) (c : option string) : SearchOptions :=
  mkSearchOptions c (after o) (before o) (limit o) (toolsOnly o)
                  (toolName o) (pathFilter o) (exclude o) (status o).

End Opt.

Module Query.

(** A relevance score is a REAL of which the code only uses the order
    ([<], the sign of a difference), so a score is an integer here. *)
Record SearchResult : Type := mkSearchResult {
  sessionId : string;
  source : string;
  path : string;
  cwd : option string;
  name : option string;
  score : Z;
  createdAt : option string;
  modifiedAt : option string;
  matchedSnippet : string
}.

(** The session columns both queries select. *)
Record Cols : Type := mkCols {
  c_sessionId : string;
  c_source : string;
  c_path : string;
  c_cwd : option string;
  c_name : option string;
  c_createdAt : option string;
  c_modifiedAt : option string
}.

(** A row of the main query of full-text mode. *)
Record Row : Type := mkRow {
  cols : Cols;
  chunkId : Z
}.

(** A row of the full-text index query. *)
Record FtsRow : Type := mkFtsRow {
  rowid : Z;
  fts_score : Z;
  snippet : string
}.

Definition select (s : Db.StoredSession) : Cols :=
  mkCols (Db.id s) (Db.source s) (Db.path s) (Db.cwd s) (Db.name s)
         (Db.created_at s) (Db.modified_at s).

Definition ostr_eqb (a b : option string) : bool :=
  match a, b with
  | Some x, Some y => String.eqb x y
  | None, None => true
  | _, _ => false
  end.

Definition cols_eqb (a b : Cols) : bool :=
  (String.eqb (c_sessionId a) (c_sessionId b)
   && String.eqb (c_source a) (c_source b)
   && String.eqb (c_path a) (c_path b)
   && ostr_eqb (c_cwd a) (c_cwd b)
   && ostr_eqb (c_name a) (c_name b)
   && ostr_eqb (c_createdAt a) (c_createdAt b)
   && ostr_eqb (c_modifiedAt a) (c_modifiedAt b))%bool.

Definition row_eqb (a b : Row) : bool :=
  (cols_eqb (cols a) (cols b) && (chunkId a =? chunkId b))%bool.

(** SELECT DISTINCT: the first of equal rows stays. *)
Fixpoint distinct (A : Type) (eqb : A -> A -> bool) (l : list A) : list A :=
  match l with
  | [] => []
  | x :: r => x :: filter (fun y => negb (eqb x y)) (distinct eqb r)
  end.

(** A stable sort: [Array.prototype.sort] with a comparator, ORDER BY. *)
Fixpoint insert (A : Type) (le : A -> A -> bool) (x : A) (l : list A)
  : list A :=
  match l with
  | [] => [x]
  | y :: r => if le x y then x :: y :: r else y :: insert le x r
  end.

Definition sort (A : Type) (le : A -> A -> bool) (l : list A) : list A :=
  fold_right (insert le) [] l.

(** [escapeFtsQuery]: each whitespace-separated token in double quotes,
    a double quote inside a token doubled. *)
Fixpoint double_quotes (s : string) : string :=
  match s with
  | EmptyString => EmptyString
  | String a r =>
      if Nat.eqb (Js.byte a) 34
      then String a (String a (double_quotes r))
      else String a (double_quotes r)
  end.

Definition escapeFtsQuery (query : string) : string :=
  String.concat " "
    (map (fun token => (Js.dquote ++ double_quotes token ++ Js.dquote)%string)
         (Js.tokens query)).

(** *** The WHERE clauses *)

Definition limit_of (o : Opt.SearchOptions) : Z :=
  match Opt.limit o with Some n => n | None => 10 end.

Definition toolsOnly_of (o : Opt.SearchOptions) : bool :=
  match Opt.toolsOnly o with Some b => b | None => false end.

Definition cwd_ok (o : Opt.SearchOptions) (s : Db.StoredSession) : bool :=
  match Js.truthy (Opt.cwd o) with
  | Some p => Js.like_opt (p ++ "%")%string (Db.cwd s)
  | None => true
  end.

Definition after_ok (o : Opt.SearchOptions) (s : Db.StoredSession) : bool :=
  match Js.truthy (Opt.after o) with
  | Some a => Js.text_ge (Db.created_at s) a
  | None => true
  end.

Definition before_ok (o : Opt.SearchOptions) (s : Db.StoredSession) : bool :=
  match Js.truthy (Opt.before o) with
  | Some b => Js.text_le (Db.created_at s) b
  | None => true
  end.

Definition mem (x : string) (l : list string) : bool :=
  existsb (String.eqb x) l.

(** [exclude && exclude.length > 0]: [s.id NOT IN (?, ..., ?)]. *)
Definition exclude_ok (o : Opt.SearchOptions) (sid : string) : bool :=
  match Opt.exclude o with
  | Some (x :: r) => negb (mem sid (x :: r))
  | _ => true
  end.

Definition session_ok (o : Opt.SearchOptions) (s : Db.StoredSession) : bool :=
  (cwd_ok o s && after_ok o s && before_ok o s && exclude_ok o (Db.id s))%bool.

Definition kind_ok (o : Opt.SearchOptions) (c : Db.StoredChunk) : bool :=
  if toolsOnly_of o then String.eqb (Db.kind c) "tool_call" else true.

Definition tool_ok (o : Opt.SearchOptions) (c : Db.StoredChunk) : bool :=
  match Js.truthy (Opt.toolName o) with
  | Some tn => Js.opt_eqb (Db.tool_name c) tn
  | None => true
  end.

Definition path_ok (o : Opt.SearchOptions) (c : Db.StoredChunk) : bool :=
  match Js.truthy (Opt.pathFilter o) with
  | Some pf =>
      (String.eqb (Db.kind c) "tool_call"
       && Js.like ("%" ++ pf ++ "%")%string (Db.content c))%bool
  | None => true
  end.

Definition isErrorValue (st : Opt.Status) : Z :=
  match st with Opt.error => 1 | Opt.success => 0 end.

Definition tool_scoped (o : Opt.SearchOptions) : bool :=
  (toolsOnly_of o
   || match Js.truthy (Opt.toolName o) with Some _ => true | None => false end
  )%bool.

(** [s.id IN (SELECT c2.session_id FROM chunks c2 WHERE c2.is_error = ?
    AND c2.tool_name = ?)], present only under a tool scope. *)
Definition status_ok (o : Opt.SearchOptions) (t : Db.Tables) (sid : string)
  : bool :=
  match Opt.status o with
  | Some st =>
      if tool_scoped o then
        existsb
          (fun c2 =>
             (String.eqb (Db.session_id c2) sid
              && match Db.is_error c2 with
                 | Some v => v =? isErrorValue st
                 | None => false
                 end
              && tool_ok o c2)%bool)
          (Db.chunks t)
      else true
  | None => true
  end.

(** *** Listing mode *)

(** ORDER BY modified_at DESC: [a] may come before [b]; NULL is the
    smallest value. *)
Definition newer_eq (a b : Cols) : bool :=
  match c_modifiedAt b, c_modifiedAt a with
  | None, _ => true
  | Some _, None => false
  | Some y, Some x => String.leb y x
  end.

(** The rows of the query before ORDER BY.  The store has no statistics
    (the code never runs ANALYZE), and under a tool scope SQLite then
    walks [chunks] through [idx_chunks_kind] or [idx_chunks_tool], so in
    rowid order among the chunks that pass, looks the session up by its
    primary key, and DISTINCT keeps the first copy of a row; without a
    tool scope [sessions] is scanned in rowid order.  The sort that
    follows is stable, so this is the order of rows with equal
    [modified_at]. *)
Definition listRows (t : Db.Tables) (o : Opt.SearchOptions) : list Cols :=
  if tool_scoped o then
    distinct cols_eqb
      (flat_map
         (fun c =>
            flat_map
              (fun s =>
                 if (String.eqb (Db.session_id c) (Db.id s)
                     && session_ok o s && kind_ok o c && tool_ok o c
                     && status_ok o t (Db.id s))%bool
                 then [select s] else [])
              (Db.sessions t))
         (Db.chunks t))
  else map select (filter (session_ok o) (Db.sessions t)).

Definition listed (t : Db.Tables) (o : Opt.SearchOptions) : list Cols :=
  sort newer_eq (listRows t o).

Definition placeholder : string := "(recent session)".

Definition listResult (row : Cols) : SearchResult :=
  mkSearchResult (c_sessionId row) (c_source row) (c_path row) (c_cwd row)
    (c_name row) 0 (c_createdAt row) (c_modifiedAt row)
    (Js.or_else (c_name row) placeholder).

Definition listAllSessions (db : Db.Database) (o : Opt.SearchOptions)
  : list SearchResult :=
  map listResult (Js.sql_limit (limit_of o) (listed (Db.view db) o)).

(** *** Full-text mode *)

Section Engine.

(** The full-text engine: [bm25 q corpus c] is the score and snippet of
    chunk [c] when it matches [q] in the index over [corpus]. *)
Variable bm25 :
  string -> list Db.StoredChunk -> Db.StoredChunk -> option (Z * string).

Definition ftsResults (t : Db.Tables) (safeQuery : string) : list FtsRow :=
  flat_map
    (fun c =>
       match bm25 safeQuery (Db.chunks t) c with
       | Some (sc, sn) => [mkFtsRow (Db.chunk_id c) sc sn]
       | None => []
       end)
    (Db.chunks t).

(** [new Map(ftsResults.map(r => [r.rowid, r])).get(k)]: a later entry
    replaces an earlier one with the same key. *)
Definition scoreMap_get (fr : list FtsRow) (k : Z) : option FtsRow :=
  find (fun r => rowid r =? k) (rev fr).

Definition inRowids (fr : list FtsRow) (k : Z) : bool :=
  existsb (fun r => rowid r =? k) fr.

Definition matchRows (t : Db.Tables) (o : Opt.SearchOptions)
           (fr : list FtsRow) : list Row :=
  distinct row_eqb
    (flat_map
       (fun c =>
          flat_map
            (fun s =>
               if (String.eqb (Db.id s) (Db.session_id c)
                   && inRowids fr (Db.chunk_id c)
                   && session_ok o s && kind_ok o c && tool_ok o c
                   && path_ok o c && status_ok o t (Db.id s))%bool
               then [mkRow (select s) (Db.chunk_id c)] else [])
            (Db.sessions t))
       (Db.chunks t)).

Definition toResult (row : Row) (sd : FtsRow) : SearchResult :=
  let c := cols row in
  mkSearchResult (c_sessionId c) (c_source c) (c_path c) (c_cwd c)
    (c_name c) (fts_score sd) (c_createdAt c) (c_modifiedAt c) (snippet sd).

(** [sessionMap.set] under the guard [!existing || score < existing.score];
    a Map keeps a key at the place of its first insertion. *)
Fixpoint upsert (r : SearchResult) (m : list SearchResult)
  : list SearchResult :=
  match m with
  | [] => [r]
  | e :: m' =>
      if String.eqb (sessionId e) (sessionId r)
      then (if score r <? score e then r else e) :: m'
      else e :: upsert r m'
  end.

Definition groupStep (fr : list FtsRow) (m : list SearchResult) (row : Row)
  : list SearchResult :=
  match scoreMap_get fr (chunkId row) with
  | None => m
  | Some sd => upsert (toResult row sd) m
  end.

Definition grouped (fr : list FtsRow) (rows : list Row) : list SearchResult :=
  fold_left (groupStep fr) rows [].

Definition score_le (a b : SearchResult) : bool := score a <=? score b.

(** The sorted result before [slice(0, limit)]. *)
Definition ranked (t : Db.Tables) (o : Opt.SearchOptions) (query : string)
  : list SearchResult :=
  let fr := ftsResults t (escapeFtsQuery query) in
  sort score_le (grouped fr (matchRows t o fr)).

Definition hasFilters (o : Opt.SearchOptions) : bool :=
  (match Js.truthy (Opt.cwd o) with Some _ => true | None => false end
   || match Js.truthy (Opt.after o) with Some _ => true | None => false end
   || match Js.truthy (Opt.before o) with Some _ => true | None => false end
   || negb (limit_of o =? 0))%bool.

Definition no_filter_message : string :=
  ("Query " ++ Js.dquote ++ "*" ++ Js.dquote
   ++ " requires at least one filter (cwd, after, before, or limit)")%string.

Definition search (db : Db.Database) (query : string)
           (o : Opt.SearchOptions) : Result (list SearchResult) :=
  if Js.isBlank query then Err "Search query cannot be empty"
  else if String.eqb query "*" then
    if hasFilters o then Ok (listAllSessions db o)
    else Err no_filter_message
  else
    match ftsResults (Db.view db) (escapeFtsQuery query) with
    | [] => Ok []
    | _ :: _ => Ok (Js.slice0 (limit_of o) (ranked (Db.view db) o query))
    end.

End Engine.

End Query.

(** ** [src/storage/migrations] and [openDatabase] *)

Module Schema.

(** The catalog of a store file: its tables, the columns of [chunks], and
    the rows of [schema_migrations] ([None] while that table does not
    exist). *)
Record Catalog : Type := mkCatalog {
  tables : list string;
  chunk_columns : list string;
  ledger : option (list (Z * string))
}.

Record Migration : Type := mkMigration {
  id : Z;
  description : string;
  fn : Catalog -> Result Catalog
}.

Definition has (x : string) (l : list string) : bool :=
  existsb (String.eqb x) l.

Definition add_table (x : string) (c : Catalog) : Catalog :=
  if has x (tables c) then c
  else mkCatalog (tables c ++ [x]) (chunk_columns c) (ledger c).

(** 001: ALTER TABLE chunks ADD COLUMN is_error. *)
Definition addIsError : Migration :=
  mkMigration 1 "add is_error column to chunks"
    (fun c =>
       if negb (has "chunks" (tables c)) then Err "no such table: chunks"
       else if has "is_error" (chunk_columns c)
       then Err "duplicate column name: is_error"
       else Ok (mkCatalog (tables c) (chunk_columns c ++ ["is_error"])
                          (ledger c))).

(** 002: CREATE TABLE IF NOT EXISTS metadata. *)
Definition addMetadata : Migration :=
  mkMigration 2 "add metadata table" (fun c => Ok (add_table "metadata" c)).

Definition migrations : list Migration := [addIsError; addMetadata].

Definition latest_chunk_columns : list string :=
  ["id"; "session_id"; "kind"; "role"; "tool_name"; "seq"; "content";
   "is_error"].

(** [db.exec(SCHEMA)]: every CREATE is IF NOT EXISTS, so an existing
    [chunks] table keeps the columns it has. *)
Definition exec_schema (c : Catalog) : Catalog :=
  let c1 := add_table "sessions" c in
  let c2 :=
    if has "chunks" (tables c1) then c1
    else mkCatalog (tables c1 ++ ["chunks"]) latest_chunk_columns (ledger c1)
  in
  add_table "chunks_fts" (add_table "metadata" c2).

Inductive Event : Type :=
| Executed (migration : Z)
| Recorded (migration : Z).

Record State : Type := mkState {
  cat : Catalog;
  trace : list Event
}.

Definition ledger_rows (c : Catalog) : list (Z * string) :=
  match ledger c with Some l => l | None => [] end.

Definition recorded (c : Catalog) (k : Z) : bool :=
  existsb (fun r => fst r =? k) (ledger_rows c).

(** [insertStmt.run(id, description)]; [id] is the primary key. *)
Definition record (m : Migration) (c : Catalog) : Result Catalog :=
  if recorded c (id m)
  then Err "UNIQUE constraint failed: schema_migrations.id"
  else Ok (mkCatalog (tables c) (chunk_columns c)
                     (Some (ledger_rows c ++ [(id m, description m)]))).

(** The loop of [runMigrations]; [applied] is the set read before the
    loop.  [Executed k] is logged when the body of step [k] is called,
    [Recorded k] when its ledger row is written.  The second component is
    the exception thrown, if any. *)
Fixpoint migrate (applied : list Z) (isFresh : bool) (ms : list Migration)
         (st : State) : State * option string :=
  match ms with
  | [] => (st, None)
  | m :: rest =>
      if existsb (Z.eqb (id m)) applied then migrate applied isFresh rest st
      else
        let st0 :=
          if isFresh then st
          else mkState (cat st) (trace st ++ [Executed (id m)]) in
        match (if isFresh then Ok (cat st) else fn m (cat st)) with
        | Err e => (st0, Some e)
        | Ok c1 =>
            match record m c1 with
            | Err e => (mkState c1 (trace st0), Some e)
            | Ok c2 =>
                migrate applied isFresh rest
                  (mkState c2 (trace st0 ++ [Recorded (id m)]))
            end
        end
  end.

Definition runMigrationsWith (ms : list Migration) (c : Catalog)
           (isFresh : bool) : State * option string :=
  let c1 :=
    match ledger c with
    | Some _ => c
    | None => mkCatalog (tables c) (chunk_columns c) (Some [])
    end in
  migrate (map fst (ledger_rows c1)) isFresh ms (mkState c1 []).

Definition runMigrations (c : Catalog) (isFresh : bool)
  : State * option string :=
  runMigrationsWith migrations c isFresh.

Definition isFresh (c : Catalog) : bool := negb (has "sessions" (tables c)).

(** [openDatabase] on the catalog found at [dbPath] (the empty catalog
    when the file is new). *)
Definition openDatabase (c : Catalog) : State * option string :=
  runMigrations (exec_schema c) (isFresh c).

(** The steps of the migration list that the ledger does not hold. *)
Definition pending (c : Catalog) : list Migration :=
  filter (fun m => negb (recorded c (id m))) migrations.

End Schema.

(** ** Notions used to state the properties of the query engine *)

Module Spec.

Section Engine.

Variable bm25 :
  string -> list Db.StoredChunk -> Db.StoredChunk -> option (Z * string).


End Engine.

(** A boolean order read as a relation. *)
Definition holds (A : Type) (le : A -> A -> bool) (x y : A) : Prop :=
  le x y = true.


(** The primary key of [chunks]: ids are unique and none is above the
    AUTOINCREMENT counter. *)
Definition chunk_keys (t : Db.Tables) : Prop :=
  NoDup (map Db.chunk_id (Db.chunks t))
  /\ forall c, In c (Db.chunks t) -> Db.chunk_id c <= Db.chunk_seq t.

(** The results the grouping loop of [search] sees, in row order. *)
Definition candidates (fr : list Query.FtsRow) (rows : list Query.Row)
  : list Query.SearchResult :=
  flat_map
    (fun row =>
       match Query.scoreMap_get fr (Query.chunkId row) with
       | Some sd => [Query.toResult row sd]
       | None => []
       end)
    rows.

(** The session columns of a result are those of session [s]. *)
Definition describes (s : Db.StoredSession) (r : Query.SearchResult) : Prop :=
  Query.sessionId r = Db.id s
  /\ Query.source r = Db.source s
  /\ Query.path r = Db.path s
  /\ Query.cwd r = Db.cwd s
  /\ Query.name r = Db.name s
  /\ Query.createdAt r = Db.created_at s
  /\ Query.modifiedAt r = Db.modified_at s.



Definition kept (E : list string) (r : Query.SearchResult) : bool :=
  negb (Query.mem (Query.sessionId r) E).

Definition kept_cols (E : list string) (c : Query.Cols) : bool :=
  negb (Query.mem (Query.c_sessionId c) E).

End Spec.

(** ** Sample data: a formatter, a full-text engine and small stores *)

Module Sample.

(** A formatter that renders the tool name only. *)
Definition fmt (tc : Session.ToolCall) : Result string :=
  Ok ("tool: " ++ Session.tc_name tc)%string.

Fixpoint occurrences (needle hay : string) : nat :=
  match hay with
  | EmptyString => 0%nat
  | String _ r =>
      ((if String.prefix needle hay then 1 else 0) + occurrences needle r)%nat
  end.

(** A toy ranking: a chunk matches when its content holds the unquoted
    query text; more occurrences give a more negative score; the snippet
    is the content. *)
Definition unquote (q : string) : string :=
  String.substring 1 (String.length q - 2) q.

Definition bm25 (q : string) (corpus : list Db.StoredChunk)
           (c : Db.StoredChunk) : option (Z * string) :=
  match occurrences (unquote q) (Db.content c) with
  | O => None
  | S n => Some (- Z.of_nat (S n), Db.content c)
  end.

Definition toolResultMessage : PiParser.Message :=
  PiParser.ToolResultMessage "call-1" "Bash" (Some true)
    [PiParser.TextContent "command not found"].

Definition toolResultTurn : Session.Turn :=
  PiParser.turnOfMessage toolResultMessage.

Definition emptyDb : Db.Database := Db.mkDatabase (Db.mkTables [] [] 0) None.

Definition session (sid cwd name modified : string) : Db.StoredSession :=
  Db.mkStoredSession sid "pi" ("/path/to/" ++ sid ++ ".jsonl")%string
    (Some cwd) (Some name) (Some modified) (Some modified) 1 1000.

Definition message (sid text : string) : Db.StoredChunk :=
  Db.mkStoredChunk 0 sid "message" (Some "user") None 0 text None.

Definition put (d : Db.Database) (s : Db.StoredSession)
           (cs : list Db.StoredChunk) : Db.Database :=
  fst (Db.insertSession None d s cs).

(** Three indexed sessions: two projects whose directories differ in one
    character, the second with an empty name, and an unrelated one. *)
Definition alpha : Db.StoredSession :=
  session "alpha" "/home/u/my_app" "Alpha" "2026-03-01T10:00:00Z".

Definition beta : Db.StoredSession :=
  session "beta" "/home/u/my-app" "" "2026-02-01T10:00:00Z".

Definition gamma : Db.StoredSession :=
  session "gamma" "/srv/other" "Gamma" "2026-01-01T10:00:00Z".

Definition store : Db.Database :=
  put (put (put emptyDb
              gamma [message "gamma" "unrelated notes"])
           beta [message "beta" "database mentioned in passing"])
      alpha [message "alpha" "database performance database indexing database";
             message "alpha" "a database"].

Definition inProject (p : string) : Opt.SearchOptions :=
  Opt.with_cwd Opt.none (Some p).

Definition page (n : Z) (excluded : list string) : Opt.SearchOptions :=
  Opt.mkSearchOptions None None None (Some n) None None None (Some excluded)
                      None.

(** A session with a user turn and a failed tool result, and the file it
    comes from, observed with mtime [m]. *)
Definition parsed (sid : string) : Session.ParsedSession :=
  Session.mkParsedSession sid "pi" (Some "/proj") None
    "2026-01-15T10:00:00Z" "2026-01-15T11:00:00Z"
    [Session.mkTurn Session.user (Some "hello") [] [] None None;
     toolResultTurn].

Definition file (sid : string) (m : Z) : Indexer.File :=
  Indexer.mkFile ("/sessions/proj/" ++ sid ++ ".jsonl")%string true (Some m)
    (Indexer.HeaderId (Some sid)) (Ok (parsed sid)) None.

(** A file the adapter accepts but whose full parse throws. *)
Definition brokenFile : Indexer.File :=
  Indexer.mkFile "/sessions/proj/broken.jsonl" true (Some 5)
    (Indexer.HeaderId (Some "broken")) (Err "unexpected end of input") None.

(** A file whose transaction meets an I/O failure at its second
    statement. *)
Definition unluckyFile : Indexer.File :=
  Indexer.mkFile "/sessions/proj/unlucky.jsonl" true (Some 7)
    (Indexer.HeaderId (Some "unlucky")) (Ok (parsed "unlucky")) (Some 1%nat).

Definition start : Indexer.State :=
  Indexer.mkState emptyDb Indexer.zero [].

(** The state after a first run over one file, under Bun. *)
Definition indexedOnce : Indexer.State :=
  Indexer.indexFile Db.Bun fmt start (file "s1" 1000).

Definition sessionsDir : option (list Indexer.Entry) :=
  Some [Indexer.FileEntry (file "s1" 1000);
        Indexer.FileEntry brokenFile;
        Indexer.DirEntry None;
        Indexer.DirEntry (Some [unluckyFile; file "s2" 2000])].

(** Catalogs: a file that does not exist yet, a store written before the
    ledger and the [is_error] column existed, and a store whose [chunks]
    table got [is_error] without a ledger row for it. *)
Definition newFile : Schema.Catalog := Schema.mkCatalog [] [] None.

Definition legacyStore : Schema.Catalog :=
  Schema.mkCatalog ["sessions"; "chunks"; "chunks_fts"]
    ["id"; "session_id"; "kind"; "role"; "tool_name"; "seq"; "content"] None.

Definition halfUpgraded : Schema.Catalog :=
  Schema.mkCatalog ["sessions"; "chunks"; "chunks_fts"]
    Schema.latest_chunk_columns None.

End Sample.

(** ** [src/indexer/format-tool-call.ts] *)

Module Format.

Section Builtins.

(** [JSON.stringify], [String.prototype.toLowerCase], and the UTF-16
    code units of a string, each as a string of its own. *)
Variable stringify : Session.Json -> string.
Variable toLowerCase : string -> string.
Variable codeUnits : string -> list string.

(** [String(i)] for an array index. *)
Definition indexKey (i : nat) : string :=
  NilEmpty.string_of_uint (Nat.to_uint i).

Fixpoint indexed (A : Type) (i : nat) (l : list A) : list (string * A) :=
  match l with
  | [] => []
  | x :: r => (indexKey i, x) :: indexed (S i) r
  end.

(** [Object.entries(tc.args)]: the own enumerable properties in the
    order JavaScript reports them.  It throws on [null] and [undefined];
    a number or a boolean has none; an array and a string have their
    indices. *)
Definition fields (args : Session.Json)
  : Result (list (string * Session.Json)) :=
  match args with
  | Session.JObj f => Ok f
  | Session.JArr l => Ok (indexed 0 l)
  | Session.JStr s => Ok (indexed 0 (map Session.JStr (codeUnits s)))
  | Session.JBool _ | Session.JNum _ => Ok []
  | Session.JNull =>
      Err "TypeError: Cannot convert undefined or null to object"
  end.

(** [tc.args[key]] for a key of the fixed lists below, none of which is
    an index: it throws on [null] and [undefined]; a value that is not
    an object has no such property, or one that [extractArg] turns into
    [undefined] (the methods [search] and [replace] of a string), which
    its callers treat as [null]. *)
Definition getField (args : Session.Json) (key : string)
  : Result (option Session.Json) :=
  match args with
  | Session.JObj f =>
      match find (fun kv => String.eqb (fst kv) key) f with
      | Some kv => Ok (Some (snd kv))
      | None => Ok None
      end
  | Session.JNull =>
      Err "TypeError: Cannot read properties of null"
  | _ => Ok None
  end.

(** [typeof v === "string" ? v : JSON.stringify(v)]. *)
Definition display (v : Session.Json) : string :=
  match v with
  | Session.JStr s => s
  | _ => stringify v
  end.

Fixpoint extractArg (tc : Session.ToolCall) (keys : list string)
  : Result (option string) :=
  match keys with
  | [] => Ok None
  | key :: rest =>
      match getField (Session.args tc) key with
      | Err e => Err e
      | Ok (Some Session.JNull) => extractArg tc rest
      | Ok (Some v) => Ok (Some (display v))
      | Ok None => extractArg tc rest
      end
  end.

(** [parts.filter(Boolean).join("\n")]. *)
Definition buildText (parts : list (option string)) : string :=
  String.concat Js.nl
    (flat_map
       (fun p => match Js.truthy p with Some s => [s] | None => [] end)
       parts).

(** [v ? `label${v}` : null]. *)
Definition labelled (label : string) (v : option string) : option string :=
  match Js.truthy v with
  | Some s => Some (label ++ s)%string
  | None => None
  end.

Definition isOneOf (name : string) (names : list string) : bool :=
  existsb (String.eqb name) names.

Definition pathKeys : list string := ["path"; "file_path"; "filePath"].

(** A step of the body that may throw, followed by the rest. *)
Definition andThen (A B : Type) (x : Result A) (k : A -> Result B)
  : Result B :=
  match x with
  | Ok a => k a
  | Err e => Err e
  end.

Definition argsText (tc : Session.ToolCall) : Result string :=
  andThen (fields (Session.args tc)) (fun f =>
  Ok (String.concat Js.nl
        (map (fun kv => (fst kv ++ ": " ++ display (snd kv))%string) f))).

Definition formatToolCall (tc : Session.ToolCall) : Result string :=
  let name := toLowerCase (Session.tc_name tc) in
  let head := Some ("tool: " ++ Session.tc_name tc)%string in
  let res := labelled ("result:" ++ Js.nl) (Session.result tc) in
  if isOneOf name ["write"; "create"; "write_file"; "create_file"] then
    andThen (extractArg tc pathKeys) (fun path =>
    andThen (extractArg tc ["content"; "file_content"; "fileContent"])
            (fun content =>
    Ok (buildText
          [head;
           labelled "path: " path;
           labelled ("content:" ++ Js.nl) content;
           res])))
  else if isOneOf name ["edit"; "edit_file"] then
    andThen (extractArg tc pathKeys) (fun path =>
    andThen (extractArg tc
               ["old"; "oldText"; "old_text"; "old_string"; "search"])
            (fun oldText =>
    andThen (extractArg tc
               ["new"; "newText"; "new_text"; "new_string"; "replace"])
            (fun newText =>
    Ok (buildText
          [head;
           labelled "path: " path;
           labelled ("old:" ++ Js.nl) oldText;
           labelled ("new:" ++ Js.nl) newText;
           res]))))
  else if isOneOf name ["bash"; "shell"; "run_command"] then
    andThen (extractArg tc ["command"; "cmd"; "script"]) (fun command =>
    Ok (buildText
          [head;
           labelled "command: " command;
           labelled ("output:" ++ Js.nl) (Session.result tc)]))
  else if isOneOf name ["read"; "read_file"] then
    andThen (extractArg tc pathKeys) (fun path =>
    Ok (buildText
          [head;
           labelled "path: " path;
           labelled ("content:" ++ Js.nl) (Session.result tc)]))
  else
    andThen (argsText tc) (fun text =>
    Ok (buildText [head; Js.truthy (Some text); res])).

Definition extractPaths (tc : Session.ToolCall) : Result (list string) :=
  andThen (extractArg tc pathKeys) (fun path =>
  Ok match Js.truthy path with
     | Some p => [p]
     | None => []
     end).

End Builtins.

End Format.

(** ** [src/parsers/pi.ts]: [canParse] and the line loop of [parse] *)

Module PiFile.

(** One non-blank line of a session file, as [JSON.parse] and the
    [switch] on its [type] see it.  [OtherMessage] is a message whose role
    is none of the four known ones; [Broken] is a line on which
    [JSON.parse], or the code of its case, throws; the [summary] of a
    compaction line is copied unchecked and may be missing. *)
Inductive Line : Type :=
| SessionHeader (id : string) (cwd : option string) (timestamp : string)
| SessionInfo (name : string)
| MessageLine (m : PiParser.Message)
| OtherMessage
| Compaction (summary : option string)
| Metadata
| Unknown
| Broken.

Record Acc : Type := mkAcc {
  sessionId : string;
  sessionCwd : option string;
  sessionName : option string;
  createdAt : string;
  turns : list Session.Turn
}.

(** One iteration of [for (const [index, line] of lines.entries())]. *)
Definition step (a : Acc) (l : Line) : Acc :=
  match l with
  | SessionHeader i c t =>
      mkAcc i c (sessionName a) t (turns a)
  | SessionInfo n =>
      mkAcc (sessionId a) (sessionCwd a) (Some n) (createdAt a) (turns a)
  | MessageLine m =>
      mkAcc (sessionId a) (sessionCwd a) (sessionName a) (createdAt a)
            (turns a ++ [PiParser.turnOfMessage m])
  | Compaction s =>
      mkAcc (sessionId a) (sessionCwd a) (sessionName a) (createdAt a)
            (turns a
             ++ [Session.mkTurn Session.system s [] [] None None])
  | OtherMessage | Metadata | Unknown | Broken => a
  end.

(** [parse] on the non-blank lines of a readable file: [stem] is
    [basename(path, ".jsonl")], [now] the current time and [modified] the
    file's mtime, both in ISO form. *)
Definition parseLines (stem now modified : string) (lines : list Line)
  : Session.ParsedSession :=
  let a := fold_left step lines (mkAcc stem None None now []) in
  Session.mkParsedSession (sessionId a) "pi" (sessionCwd a) (sessionName a)
    (createdAt a) modified (turns a).

Definition endsWith (s suffix : string) : bool :=
  let n := String.length s in
  let k := String.length suffix in
  (Nat.leb k n && String.eqb (String.substring (n - k) k s) suffix)%bool.

(** A session file as the adapter and the indexer observe it.
    [leadingBlank]: the text before the first newline is empty or
    whitespace; [lines]: the non-blank lines, decoded. *)
Record t : Type := mk {
  path : string;
  stem : string;
  readable : bool;
  leadingBlank : bool;
  lines : list Line;
  mtimeMs : option Z;
  modified : string;
  now : string;
  writeFault : Db.Fault
}.

Definition isSessionHeader (l : option Line) : bool :=
  match l with
  | Some (SessionHeader _ _ _) => true
  | _ => false
  end.

(** [canParse]: extension, then the type of the first line; every
    failure is [false]. *)
Definition canParse (f : t) : bool :=
  (endsWith (path f) ".jsonl" && readable f && negb (leadingBlank f)
   && isSessionHeader (hd_error (lines f)))%bool.

(** What the quick check of [indexSessions] reads off the first line.
    The loop reads it only for a file [canParse] accepts, whose first
    line is then a session header; [header.id] may be falsy. *)
Definition header (f : t) : Indexer.HeaderRead :=
  if canParse f then
    match hd_error (lines f) with
    | Some (SessionHeader i _ _) => Indexer.HeaderId (Js.truthy (Some i))
    | _ => Indexer.NoLine
    end
  else Indexer.NoLine.

Definition parse (f : t) : Result Session.ParsedSession :=
  if readable f
  then Ok (parseLines (stem f) (now f) (modified f) (lines f))
  else Err "ENOENT: no such file or directory".

(** The file as [indexSessions] sees it through the Pi adapter. *)
Definition observed (f : t) : Indexer.File :=
  Indexer.mkFile (path f) (canParse f) (mtimeMs f) (header f) (parse f)
                 (writeFault f).

(** The turns a line contributes. *)
Definition turnsOf (l : Line) : list Session.Turn :=
  match l with
  | MessageLine m => [PiParser.turnOfMessage m]
  | Compaction s => [Session.mkTurn Session.system s [] [] None None]
  | _ => []
  end.

Definition skipped (l : Line) : bool :=
  match l with
  | OtherMessage | Metadata | Unknown | Broken => true
  | _ => false
  end.

End PiFile.

(** ** [src/storage/db.ts]: metadata, statistics, full reset *)

Module Meta.

Record Row : Type := mkRow {
  key : string;
  value : string;
  updated_at : string
}.

Definition Table : Type := list Row.

Definition getMetadata (m : Table) (k : string) : option string :=
  match find (fun r => String.eqb (key r) k) m with
  | Some r => Some (value r)
  | None => None
  end.

(** INSERT ... ON CONFLICT(key) DO UPDATE: the row of [k] is rewritten in
    place, a new key is appended; [now] is [datetime('now')]. *)
Fixpoint setMetadata (now : string) (m : Table) (k v : string) : Table :=
  match m with
  | [] => [mkRow k v now]
  | r :: rest =>
      if String.eqb (key r) k then mkRow k v now :: rest
      else r :: setMetadata now rest k v
  end.

Record Stats : Type := mkStats {
  sessionCount : Z;
  chunkCount : Z;
  dbSizeBytes : Z;
  lastSyncAt : option string
}.

(** [getStats]; [fileSize] is [statSync(dbPath).size], [None] when the
    handle has no path or [statSync] throws. *)
Definition getStats (d : Db.Database) (m : Table) (fileSize : option Z)
  : Stats :=
  mkStats (Z.of_nat (List.length (Db.sessions (Db.view d))))
          (Z.of_nat (List.length (Db.chunks (Db.view d))))
          (match fileSize with Some n => n | None => 0 end)
          (getMetadata m "last_sync_at").

(** [dropAll] on the rows: every table is dropped and created anew, the
    AUTOINCREMENT counter with it. *)
Definition dropAllRows (d : Db.Database) : Db.Database :=
  Db.write d (Db.mkTables [] [] 0).

Definition dropAllMetadata (m : Table) : Table := [].

Definition droppedTables : list string :=
  ["chunks_fts"; "chunks"; "sessions"; "metadata"].

(** [dropAll] on the catalog: DROP TABLE IF EXISTS for the five tables,
    SCHEMA again, then [runMigrations(db, true)]. *)
Definition dropAll (c : Schema.Catalog) : Schema.State * option string :=
  Schema.runMigrations
    (Schema.exec_schema
       (Schema.mkCatalog
          (filter (fun x => negb (Schema.has x droppedTables))
                  (Schema.tables c))
          (Schema.chunk_columns c) None))
    true.

End Meta.

(** ** [src/utils/date.ts] *)

Module DateUtil.

Definition isDigit (a : ascii) : bool :=
  (Nat.leb 48 (Js.byte a) && Nat.leb (Js.byte a) 57)%bool.

Definition isDash (a : ascii) : bool := Nat.eqb (Js.byte a) 45.

(** [/^\d{4}-\d{2}-\d{2}/]. *)
Definition looksIso (s : string) : bool :=
  match s with
  | String a (String b (String c (String d (String e (String f (String g
      (String h (String i (String j _))))))))) =>
      (isDigit a && isDigit b && isDigit c && isDigit d && isDash e
       && isDigit f && isDigit g && isDash h && isDigit i && isDigit j)%bool
  | _ => false
  end.

Inductive Unit : Type := Days | Weeks | Months.

Definition unitOf (a : ascii) : option Unit :=
  if Ascii.eqb a "d"%char then Some Days
  else if Ascii.eqb a "w"%char then Some Weeks
  else if Ascii.eqb a "m"%char then Some Months
  else None.

(** [/^(\d+)([dwm])$/]: the digits and the unit. *)
Fixpoint relative (s : string) : option (string * Unit) :=
  match s with
  | EmptyString => None
  | String a EmptyString => None
  | String a (String u EmptyString) =>
      if isDigit a then
        match unitOf u with
        | Some x => Some (String a EmptyString, x)
        | None => None
        end
      else None
  | String a rest =>
      if isDigit a then
        match relative rest with
        | Some (ds, x) => Some (String a ds, x)
        | None => None
        end
      else None
  end.

Definition invalid (input : string) : string :=
  ("Invalid date format: " ++ input
   ++ ". Use ISO date (YYYY-MM-DD) or relative format (7d, 2w, 1m)")%string.

Section Clock.

(** The date arithmetic of a relative input: [ago u ds] is the ISO date
    [parseInt(ds, 10)] units of [u] before now, or the exception [Date]
    raises. *)
Variable ago : Unit -> string -> Result string.

Definition parseRelativeDate (input : string) : Result string :=
  if looksIso input then Ok input
  else
    match relative input with
    | Some (ds, u) => ago u ds
    | None => Err (invalid input)
    end.

End Clock.

End DateUtil.

(** ** Notions used to state further properties *)

Module More.

(** Unique session ids, unique chunk ids not above the counter, and every
    chunk owned by a stored session. *)
Definition integrity (t : Db.Tables) : Prop :=
  NoDup (map Db.id (Db.sessions t))
  /\ NoDup (map Db.chunk_id (Db.chunks t))
  /\ (forall c, In c (Db.chunks t) -> Db.chunk_id c <= Db.chunk_seq t)
  /\ (forall c, In c (Db.chunks t) ->
        Db.has_session t (Db.session_id c) = true).

Definition total (r : Indexer.IndexResult) : Z :=
  Indexer.added r + Indexer.updated r + Indexer.skipped r + Indexer.errors r.

Definition accepted (fs : list Indexer.File) : list Indexer.File :=
  filter Indexer.canParse fs.

(** The id the quick check reads off an accepted file. *)
Definition quickId (f : Indexer.File) : list string :=
  if Indexer.canParse f then
    match Indexer.header f with
    | Indexer.HeaderId (Some sid) => [sid]
    | _ => []
    end
  else [].

(** A file that, once accepted, indexes without failure under the id of
    its first line: it parses, its chunks are built without a throw, the
    environment has no failure in store for the write, and the binding
    takes the chunks (it is [bun:sqlite], or there is no chunk). *)
Definition settles (rt : Db.Runtime)
           (fmt : Session.ToolCall -> Result string) (f : Indexer.File)
  : Prop :=
  Indexer.canParse f = false
  \/ exists m sid ps cs,
      Indexer.mtimeMs f = Some m
      /\ Indexer.header f = Indexer.HeaderId (Some sid)
      /\ Indexer.parse f = Ok ps
      /\ Session.id ps = sid
      /\ Indexer.buildChunks fmt sid (Session.turns ps) 0 = Ok cs
      /\ Indexer.writeFault f = None
      /\ (rt = Db.Bun \/ cs = []).

Definition with_status (o : Opt.SearchOptions) (s : option Opt.Status)
  : Opt.SearchOptions :=
  Opt.mkSearchOptions (Opt.cwd o) (Opt.after o) (Opt.before o) (Opt.limit o)
                      (Opt.toolsOnly o) (Opt.toolName o) (Opt.pathFilter o)
                      (Opt.exclude o) s.

Definition with_pathFilter (o : Opt.SearchOptions) (p : option string)
  : Opt.SearchOptions :=
  Opt.mkSearchOptions (Opt.cwd o) (Opt.after o) (Opt.before o) (Opt.limit o)
                      (Opt.toolsOnly o) (Opt.toolName o) p
                      (Opt.exclude o) (Opt.status o).

Definition with_limit (o : Opt.SearchOptions) (n : option Z)
  : Opt.SearchOptions :=
  Opt.mkSearchOptions (Opt.cwd o) (Opt.after o) (Opt.before o) n
                      (Opt.toolsOnly o) (Opt.toolName o) (Opt.pathFilter o)
                      (Opt.exclude o) (Opt.status o).

(** [n], [n + 1], ... ([k] values). *)
Fixpoint countFrom (n : Z) (k : nat) : list Z :=
  match k with
  | O => []
  | S k' => n :: countFrom (n + 1) k'
  end.

(** The arguments of the tool call are an object, as [ToolCall.args]
    is declared. *)
Definition objectArgs (tc : Session.ToolCall) : bool :=
  match Session.args tc with
  | Session.JObj _ => true
  | _ => false
  end.

Definition isToolCallChunk (c : Db.StoredChunk) : bool :=
  String.eqb (Db.kind c) "tool_call".

Definition notHeader (l : PiFile.Line) : bool :=
  negb (PiFile.isSessionHeader (Some l)).

(** Options that only bound the creation time from above. *)
Definition until (b : string) : Opt.SearchOptions :=
  Opt.mkSearchOptions None None (Some b) None None None None None None.

(** No LIKE wildcard in the string. *)
Fixpoint plain (p : string) : bool :=
  match p with
  | EmptyString => true
  | String c r =>
      (negb (Ascii.eqb c "%"%char) && negb (Ascii.eqb c "_"%char)
       && plain r)%bool
  end.

(** [s] begins with [p], up to ASCII case. *)
Fixpoint startsWithNoCase (p s : string) : bool :=
  match p, s with
  | EmptyString, _ => true
  | String _ _, EmptyString => false
  | String c p', String d s' =>
      (Ascii.eqb (Js.lower c) (Js.lower d) && startsWithNoCase p' s')%bool
  end.

Fixpoint allDigits (s : string) : bool :=
  match s with
  | EmptyString => true
  | String a r => (DateUtil.isDigit a && allDigits r)%bool
  end.

Definition unitChar (u : DateUtil.Unit) : string :=
  match u with
  | DateUtil.Days => "d"
  | DateUtil.Weeks => "w"
  | DateUtil.Months => "m"
  end.

(** A formatter built on stand-ins for the builtins. *)
Definition fmt : Session.ToolCall -> Result string :=
  Format.formatToolCall (fun _ => "{}") (fun s => s) (fun _ => []).

Definition ago (u : DateUtil.Unit) (ds : string) : Result string :=
  Ok (unitChar u ++ ":" ++ ds)%string.

Definition piFile : PiFile.t :=
  PiFile.mk "/sessions/proj/p1.jsonl" "p1" true false
    [PiFile.SessionHeader "p1" (Some "/proj") "2026-01-15T10:00:00Z";
     PiFile.Metadata;
     PiFile.MessageLine
       (PiParser.UserMessage [PiParser.TextContent "list the files"]);
     PiFile.Broken;
     PiFile.MessageLine
       (PiParser.AssistantMessage
          [PiParser.ThinkingContent "hmm";
           PiParser.TextContent "running ls";
           PiParser.ToolCallContent "call-1" "Bash"
             (Session.JObj [("command", Session.JStr "ls")])]);
     PiFile.MessageLine Sample.toolResultMessage;
     PiFile.Compaction (Some "earlier work on the build")]
    (Some 4000) "2026-01-15T11:00:00Z" "2026-01-16T00:00:00Z" None.

(** A sessions directory holding that file only, and options asking for
    sessions with tool calls, and with failed ones. *)
Definition piDir : option (list Indexer.Entry) :=
  Some [Indexer.FileEntry (PiFile.observed piFile)].

Definition onlyTools : Opt.SearchOptions :=
  Opt.mkSearchOptions None None None None (Some true) None None None None.

Definition failedTools : Opt.SearchOptions :=
  with_status onlyTools (Some Opt.error).

End More.

(** * Properties *)

Unset Implicit Arguments.

(** ** Chunk construction *)

Lemma messageChunk_fields (sid : string) (turn : Session.Turn)
      (text : string) (n : Z) :
  Db.kind (Indexer.messageChunk sid turn text n) = "message"
  /\ Db.role (Indexer.messageChunk sid turn text n)
     = Some (Session.role_text (Session.role turn))
  /\ Db.content (Indexer.messageChunk sid turn text n) = text
  /\ Db.tool_name (Indexer.messageChunk sid turn text n) = None
  /\ Db.is_error (Indexer.messageChunk sid turn text n) = None.
Proof. repeat split. Qed.

(** A turn with non-blank text yields its message chunk first, whatever
    the turn's [toolName] and [isError] are. *)
Lemma turnChunks_message (fmt : Session.ToolCall -> Result string)
      (sid : string) (turn : Session.Turn) (text : string) (n : Z)
      (cs : list Db.StoredChunk) (n' : Z) :
  Session.textContent turn = Some text ->
  Js.isBlank text = false ->
  Indexer.turnChunks fmt sid turn n = Ok (cs, n') ->
  exists rest, cs = Indexer.messageChunk sid turn text n :: rest.
Proof.
  intros Ht Hb. unfold Indexer.turnChunks. rewrite Ht, Hb.
  destruct (Indexer.toolChunks fmt sid (Session.toolCalls turn) (n + 1))
    as [[cs0 n0]|e]; [|discriminate].
  intros [= <- <-]. exists cs0. reflexivity.
Qed.

(** C1 (code evaluated at a tool-result turn): the adapter records the
    tool name "Bash" and the failure flag on the turn, but the message
    chunk [indexSessions] builds for it has no tool name and no status. *)
Theorem toolResult_chunk_has_no_status :
  Session.toolName Sample.toolResultTurn = Some "Bash"
  /\ Session.isError Sample.toolResultTurn = Some true
  /\ PiParser.isToolResult Sample.toolResultTurn = true
  /\ forall fmt,
      Indexer.buildChunks fmt "s1" [Sample.toolResultTurn] 0
      = Ok [Db.mkStoredChunk 0 "s1" "message" (Some "system") None 0
              "command not found" None].
Proof. repeat split. Qed.

(** ** The write path of the store *)

Lemma numbered_length (cs : list Db.StoredChunk) :
  forall k, List.length (Db.numbered k cs) = List.length cs.
Proof. induction cs as [|c r IH]; intros k; simpl; [|rewrite IH]; reflexivity. Qed.

(** The chunk statements followed by COMMIT, run inside a transaction with
    working copy [w]: either all rows are committed, or the committed
    tables are the ones before BEGIN. *)
Lemma run_chunks_commit (fault : Db.Fault) (cs : list Db.StoredChunk) :
  forall (k : nat) (c0 w : Db.Tables),
    match Db.run_all fault k (map Db.InsertChunkStmt cs ++ [Db.Commit])
                     (Db.mkDatabase c0 (Some w)) with
    | (db', None) =>
        db' = Db.mkDatabase
                (Db.mkTables (Db.sessions w)
                   (Db.chunks w ++ Db.numbered (Db.chunk_seq w) cs)
                   (Db.chunk_seq w + Z.of_nat (List.length cs)))
                None
    | (db', Some _) => Db.committed db' = c0
    end.
Proof.
  induction cs as [|c r IH]; intros k c0 w; simpl.
  - destruct (Db.strikes fault k); simpl; [reflexivity|].
    destruct w as [ss chs sq]; simpl.
    now rewrite app_nil_r, Z.add_0_r.
  - destruct (Db.strikes fault k); simpl; [reflexivity|].
    unfold Db.insert_chunk_row, Db.view; simpl.
    destruct (Db.has_session w (Db.session_id c)); simpl; [|reflexivity].
    unfold Db.write; simpl.
    specialize (IH (S k) c0
      (Db.mkTables (Db.sessions w)
         (Db.chunks w ++ [Db.assign (Db.chunk_seq w + 1) c])
         (Db.chunk_seq w + 1))).
    destruct (Db.run_all fault (S k) (map Db.InsertChunkStmt r ++ [Db.Commit]) _)
      as [db' [e|]]; simpl in *; [exact IH|].
    rewrite IH. rewrite <- app_assoc. simpl.
    f_equal. f_equal. lia.
Qed.

Lemma run_all_struck (sts : list Db.Stmt) :
  forall (k0 j : nat) (d : Db.Database),
    (j < List.length sts)%nat ->
    snd (Db.run_all (Some (k0 + j)%nat) k0 sts d) <> None.
Proof.
  induction sts as [|st r IH]; intros k0 j d Hj; simpl in *; [lia|].
  destruct j as [|j].
  - rewrite Nat.add_0_r, Nat.eqb_refl. discriminate.
  - replace (Nat.eqb (k0 + S j) k0) with false
      by (symmetry; apply Nat.eqb_neq; lia).
    destruct (Db.run_stmt st d) as [d'|e]; [|discriminate].
    replace (k0 + S j)%nat with (S k0 + j)%nat by lia.
    apply IH. lia.
Qed.

(** The two outcomes of [insertSession]. *)
Lemma insertSession_cases (fault : Db.Fault) (d : Db.Database)
      (s : Db.StoredSession) (cs : list Db.StoredChunk) :
  match Db.insertSession fault d s cs with
  | (d', None) =>
      Db.working d = None
      /\ d' = Db.mkDatabase
                (Db.mkTables
                   (Db.sessions (Db.committed d) ++ [s])
                   (Db.chunks (Db.committed d)
                    ++ Db.numbered (Db.chunk_seq (Db.committed d)) cs)
                   (Db.chunk_seq (Db.committed d)
                    + Z.of_nat (List.length cs)))
                None
  | (d', Some _) => d' = d
  end.
Proof.
  destruct d as [c0 [w|]]; unfold Db.insertSession; simpl; [reflexivity|].
  destruct (Db.strikes fault 0); simpl; [reflexivity|].
  unfold Db.insert_session_row, Db.view; simpl.
  destruct (Db.has_session c0 (Db.id s)); simpl; [reflexivity|].
  unfold Db.write; simpl.
  pose proof (run_chunks_commit fault cs 1 c0
                (Db.mkTables (Db.sessions c0 ++ [s]) (Db.chunks c0)
                             (Db.chunk_seq c0))) as H.
  destruct (Db.run_all fault 1 (map Db.InsertChunkStmt cs ++ [Db.Commit]) _)
    as [d' [e|]]; simpl in *.
  - unfold Db.exec_rollback. now rewrite H.
  - split; [reflexivity|exact H].
Qed.

Lemma numbered_In (cs : list Db.StoredChunk) (c : Db.StoredChunk) :
  In c cs -> forall k, exists j, In (Db.assign j c) (Db.numbered k cs).
Proof.
  induction cs as [|x r IH]; simpl; [intros []|].
  intros [->|H] k.
  - exists (k + 1). now left.
  - destruct (IH H (k + 1)) as (j & Hj). exists j. now right.
Qed.

(** C3: [insertSession] is all or nothing.  If it returns normally, the
    committed tables hold the session row and every chunk of the list
    (under the id the store gave it), they are exactly the old rows
    followed by the new ones, and no transaction is left open.  If it
    throws, the exception reaches the caller and the database is exactly
    the one it was given: no row of the call is committed.  This covers
    every failure of the model: a session id already stored, a chunk
    whose owning session is missing, and an environment failure [fault]
    striking any statement, COMMIT included. *)
Theorem insertSession_atomic (fault : Db.Fault) (d : Db.Database)
        (s : Db.StoredSession) (cs : list Db.StoredChunk) :
  let d' := fst (Db.insertSession fault d s cs) in
  let thrown := snd (Db.insertSession fault d s cs) in
  (thrown = None ->
   Db.working d' = None
   /\ In s (Db.sessions (Db.committed d'))
   /\ (forall c, In c cs ->
         exists k, In (Db.assign k c) (Db.chunks (Db.committed d')))
   /\ Db.sessions (Db.committed d') = Db.sessions (Db.committed d) ++ [s]
   /\ Db.chunks (Db.committed d')
      = Db.chunks (Db.committed d)
        ++ Db.numbered (Db.chunk_seq (Db.committed d)) cs)
  /\ (thrown <> None -> d' = d)
  /\ (Db.has_session (Db.view d) (Db.id s) = true -> thrown <> None)
  /\ (forall k, fault = Some k -> (k <= S (List.length cs))%nat ->
                thrown <> None).
Proof.
  intros d' thrown. subst d' thrown.
  pose proof (insertSession_cases fault d s cs) as H.
  split; [|split; [|split]].
  - destruct (Db.insertSession fault d s cs) as [d' [e|]]; simpl;
      [discriminate|].
    intros _. destruct H as [_ ->]; simpl.
    repeat split; auto.
    + apply in_or_app. right. now left.
    + intros c Hc.
      destruct (numbered_In cs c Hc (Db.chunk_seq (Db.committed d)))
        as (k & Hk).
      exists k. apply in_or_app. now right.
  - destruct (Db.insertSession fault d s cs) as [d' [e|]]; simpl;
      [intros _; exact H|congruence].
  - intros Hdup. unfold Db.insertSession.
    destruct d as [c0 [w|]]; simpl in *; [discriminate|].
    destruct (Db.strikes fault 0); simpl; [discriminate|].
    unfold Db.insert_session_row, Db.view; simpl.
    unfold Db.view in Hdup; simpl in Hdup. rewrite Hdup. discriminate.
  - intros k -> Hk. clear H.
    unfold Db.insertSession.
    destruct (Db.exec_begin d) as [d1|e]; [|discriminate].
    assert (Hlen : (k < List.length (Db.statements s cs))%nat).
    { unfold Db.statements; simpl. rewrite length_app, length_map; simpl.
      lia. }
    pose proof (run_all_struck (Db.statements s cs) 0 k d1 Hlen) as H.
    change (0 + k)%nat with k in H.
    destruct (Db.run_all (Some k) 0 (Db.statements s cs) d1) as [d2 [e|]];
      simpl in *; [discriminate|congruence].
Qed.

Lemma insertSession_atomic_witness :
  (forall fault,
      fst (Db.insertSession fault Sample.store Sample.alpha
             [Sample.message "alpha" "again"]) = Sample.store)
  /\ fst (Db.insertSession (Some 2%nat) Sample.emptyDb Sample.alpha
            [Sample.message "alpha" "one"]) = Sample.emptyDb
  /\ Db.committed
       (fst (Db.insertSession None Sample.emptyDb Sample.alpha
               [Sample.message "alpha" "one"]))
     = Db.mkTables [Sample.alpha]
         [Db.assign 1 (Sample.message "alpha" "one")] 1.
Proof.
  split; [|split; [|reflexivity]].
  - intros fault.
    destruct (insertSession_atomic fault Sample.store Sample.alpha
                [Sample.message "alpha" "again"]) as (_ & Hthrown & Hdup & _).
    exact (Hthrown (Hdup eq_refl)).
  - destruct (insertSession_atomic (Some 2%nat) Sample.emptyDb Sample.alpha
                [Sample.message "alpha" "one"]) as (_ & Hthrown & _ & Hio).
    apply Hthrown. apply (Hio 2%nat eq_refl). simpl. lia.
Defined.

(** When the write succeeds: no transaction open, the id not yet stored,
    every chunk owned by the new session or by a stored one, and no
    failure of the environment. *)
Lemma has_session_app (t : Db.Tables) (s : Db.StoredSession) (x : string) :
  Db.has_session
    (Db.mkTables (Db.sessions t ++ [s]) (Db.chunks t) (Db.chunk_seq t)) x
  = (Db.has_session t x || String.eqb (Db.id s) x)%bool.
Proof.
  unfold Db.has_session; simpl. rewrite existsb_app; simpl.
  now rewrite orb_false_r.
Qed.

Lemma run_chunks_succeed (cs : list Db.StoredChunk) :
  forall (k : nat) (c0 w : Db.Tables),
    (forall c, In c cs -> Db.has_session w (Db.session_id c) = true) ->
    snd (Db.run_all None k (map Db.InsertChunkStmt cs ++ [Db.Commit])
                    (Db.mkDatabase c0 (Some w))) = None.
Proof.
  induction cs as [|c r IH]; intros k c0 w Hfk; simpl; [reflexivity|].
  unfold Db.insert_chunk_row, Db.view; simpl.
  rewrite (Hfk c (or_introl eq_refl)); simpl.
  unfold Db.write; simpl. apply IH.
  intros c' Hc'. unfold Db.has_session; simpl.
  apply (Hfk c' (or_intror Hc')).
Qed.

Lemma insertSession_succeeds (d : Db.Database) (s : Db.StoredSession)
      (cs : list Db.StoredChunk) :
  Db.working d = None ->
  Db.has_session (Db.committed d) (Db.id s) = false ->
  (forall c, In c cs ->
     (Db.has_session (Db.committed d) (Db.session_id c)
      || String.eqb (Db.id s) (Db.session_id c))%bool = true) ->
  snd (Db.insertSession None d s cs) = None.
Proof.
  destruct d as [c0 w]; simpl; intros -> Hpk Hfk.
  unfold Db.insertSession; simpl.
  unfold Db.insert_session_row, Db.view; simpl. rewrite Hpk; simpl.
  unfold Db.write; simpl.
  pose proof (run_chunks_succeed cs 1 c0
                (Db.mkTables (Db.sessions c0 ++ [s]) (Db.chunks c0)
                             (Db.chunk_seq c0))) as H.
  destruct (Db.run_all None 1 (map Db.InsertChunkStmt cs ++ [Db.Commit]) _)
    as [d' [e|]]; simpl in *; [|reflexivity].
  apply H. intros c Hc. rewrite has_session_app. apply Hfk, Hc.
Qed.

(** ** The indexing run *)

Lemma getSessionMtime_none (d : Db.Database) (sid : string) :
  Db.getSessionMtime d sid = None -> Db.has_session (Db.view d) sid = false.
Proof.
  unfold Db.getSessionMtime, Db.has_session.
  induction (Db.sessions (Db.view d)) as [|s r IH]; simpl; [reflexivity|].
  destruct (String.eqb (Db.id s) sid); simpl; [discriminate|exact IH].
Qed.

Lemma deleteSession_removes (d : Db.Database) (sid : string) :
  Db.has_session (Db.view (Db.deleteSession d sid)) sid = false
  /\ forall c, In c (Db.chunks (Db.view (Db.deleteSession d sid))) ->
               Db.session_id c <> sid.
Proof.
  assert (Hv : Db.view (Db.deleteSession d sid)
               = Db.mkTables
                   (filter (fun s => negb (String.eqb (Db.id s) sid))
                           (Db.sessions (Db.view d)))
                   (filter (fun c => negb (String.eqb (Db.session_id c) sid))
                           (Db.chunks (Db.view d)))
                   (Db.chunk_seq (Db.view d))).
  { unfold Db.deleteSession, Db.write, Db.view.
    destruct (Db.working d); reflexivity. }
  rewrite Hv; clear Hv; simpl. split.
  - unfold Db.has_session; simpl.
    induction (Db.sessions (Db.view d)) as [|s r IH]; simpl; [reflexivity|].
    destruct (String.eqb (Db.id s) sid) eqn:E; simpl; [exact IH|].
    now rewrite E.
  - intros c Hc. apply filter_In in Hc as [_ Hc].
    apply negb_true_iff, String.eqb_neq in Hc. exact Hc.
Qed.

Lemma deleteSession_autocommit (d : Db.Database) (sid : string) :
  Db.working d = None ->
  Db.working (Db.deleteSession d sid) = None
  /\ Db.view (Db.deleteSession d sid) = Db.committed (Db.deleteSession d sid).
Proof.
  intros H. unfold Db.deleteSession, Db.write, Db.view. rewrite H. split; reflexivity.
Qed.

Lemma toolChunks_session_id (fmt : Session.ToolCall -> Result string)
      (sid : string) (tcs : list Session.ToolCall) :
  forall n cs n', Indexer.toolChunks fmt sid tcs n = Ok (cs, n') ->
    forall c, In c cs -> Db.session_id c = sid.
Proof.
  induction tcs as [|tc r IH]; intros n cs n'; simpl.
  - intros [= <- _] c [].
  - destruct (fmt tc) as [content|e]; [|discriminate].
    destruct (Js.isBlank content); [apply IH|].
    destruct (Indexer.toolChunks fmt sid r (n + 1)) as [[cs0 n0]|e] eqn:E;
      [|discriminate].
    intros [= <- _] c [<-|H]; [reflexivity|exact (IH _ _ _ E c H)].
Qed.

Lemma turnChunks_session_id (fmt : Session.ToolCall -> Result string)
      (sid : string) (t : Session.Turn) (n : Z)
      (cs : list Db.StoredChunk) (n' : Z) :
  Indexer.turnChunks fmt sid t n = Ok (cs, n') ->
  forall c, In c cs -> Db.session_id c = sid.
Proof.
  unfold Indexer.turnChunks.
  destruct (Session.textContent t) as [text|]; [|discriminate].
  destruct (Js.isBlank text); [apply toolChunks_session_id|].
  destruct (Indexer.toolChunks fmt sid (Session.toolCalls t) (n + 1))
    as [[cs0 n0]|e] eqn:E; [|discriminate].
  intros [= <- _] c [<-|H]; [reflexivity|].
  exact (toolChunks_session_id fmt sid _ _ _ _ E c H).
Qed.

Lemma buildChunks_session_id (fmt : Session.ToolCall -> Result string)
      (sid : string) (ts : list Session.Turn) :
  forall n cs, Indexer.buildChunks fmt sid ts n = Ok cs ->
    forall c, In c cs -> Db.session_id c = sid.
Proof.
  induction ts as [|t r IH]; intros n cs; simpl.
  - intros [= <-] c [].
  - destruct (Indexer.turnChunks fmt sid t n) as [[cs0 n0]|e] eqn:E;
      [|discriminate].
    destruct (Indexer.buildChunks fmt sid r n0) as [rest|e] eqn:Er;
      [|discriminate].
    intros [= <-] c H. apply in_app_or in H as [H|H].
    + exact (turnChunks_session_id fmt sid t n cs0 n0 E c H).
    + exact (IH _ _ Er c H).
Qed.

(** A file that passes [canParse], whose mtime can be read and whose
    quick check does not skip it, goes through the full path. *)
Lemma indexFile_reindex (rt : Db.Runtime)
      (fmt : Session.ToolCall -> Result string)
      (st : Indexer.State) (f : Indexer.File) (m : Z) :
  Indexer.canParse f = true ->
  Indexer.mtimeMs f = Some m ->
  Indexer.header f <> Indexer.Malformed ->
  (forall sid, Indexer.header f = Indexer.HeaderId (Some sid) ->
               Db.getSessionMtime (Indexer.db st) sid <> Some m) ->
  Indexer.indexFile rt fmt st f = Indexer.reindex rt fmt st f m.
Proof.
  intros Hc Hm Hh Hq. unfold Indexer.indexFile. rewrite Hc, Hm; simpl.
  destruct (Indexer.header f) as [| |[sid|]]; try reflexivity; [congruence|].
  specialize (Hq sid eq_refl).
  destruct (Db.getSessionMtime (Indexer.db st) sid) as [x|]; [|reflexivity].
  destruct (Z.eqb_spec x m); [congruence|reflexivity].
Qed.

Lemma insertSession_struck (k : nat) (d : Db.Database)
      (s : Db.StoredSession) (cs : list Db.StoredChunk) :
  (k <= S (List.length cs))%nat ->
  snd (Db.insertSession (Some k) d s cs) <> None.
Proof.
  intros Hk. unfold Db.insertSession.
  destruct (Db.exec_begin d) as [d1|e]; [|discriminate].
  assert (Hlen : (k < List.length (Db.statements s cs))%nat).
  { unfold Db.statements; simpl. rewrite length_app, length_map; simpl. lia. }
  pose proof (run_all_struck (Db.statements s cs) 0 k d1 Hlen) as H.
  change (0 + k)%nat with k in H.
  destruct (Db.run_all (Some k) 0 (Db.statements s cs) d1) as [d2 [e|]];
    simpl in *; [discriminate|congruence].
Qed.

(** The binding of the chunks of the loop: under [node:sqlite] a
    transaction with a chunk never reaches its second chunk statement;
    under [bun:sqlite], and for a session without chunk, the binding
    adds no failure. *)
Lemma bindFault_node (fault : Db.Fault) (c : Db.StoredChunk)
      (cs : list Db.StoredChunk) :
  exists k, Indexer.bindFault Db.Node fault (c :: cs) = Some k
            /\ (k <= 1)%nat.
Proof.
  unfold Indexer.bindFault. destruct fault as [[|k]|]; eauto.
Qed.

Lemma bindFault_none (rt : Db.Runtime) (fault : Db.Fault)
      (cs : list Db.StoredChunk) :
  Indexer.bindFault rt fault cs = None
  <-> fault = None /\ (rt = Db.Bun \/ cs = []).
Proof.
  unfold Indexer.bindFault.
  destruct rt, cs as [|c cs], fault as [[|k]|]; split;
    try discriminate; try tauto; intros [H1 H2]; try discriminate;
    destruct H2; discriminate.
Qed.

(** The full path of the loop body, for a file that parses, in a store
    with no transaction open: what is left of the store once the old rows
    are deleted, and the three ways the body ends. *)
Lemma reindex_outcome (rt : Db.Runtime)
      (fmt : Session.ToolCall -> Result string)
      (st : Indexer.State) (f : Indexer.File) (m : Z)
      (ps : Session.ParsedSession) :
  Db.working (Indexer.db st) = None ->
  Indexer.parse f = Ok ps ->
  let sid := Session.id ps in
  let prior := Db.getSessionMtime (Indexer.db st) sid in
  let d1 :=
    match prior with
    | Some _ => Db.deleteSession (Indexer.db st) sid
    | None => Indexer.db st
    end in
  let base := Db.committed d1 in
  let before :=
    Indexer.EvParse (Indexer.filePath f)
    :: match prior with
       | Some _ => [Indexer.EvDelete sid]
       | None => []
       end in
  let built := Indexer.buildChunks fmt sid (Session.turns ps) 0 in
  let st' := Indexer.reindex rt fmt st f m in
  d1 = Db.mkDatabase base None
  /\ Db.has_session base sid = false
  /\ (prior <> None ->
      forall c, In c (Db.chunks base) -> Db.session_id c <> sid)
  /\ (forall e, built = Err e ->
        st' = Indexer.caught st d1 before)
  /\ (forall cs, built = Ok cs ->
        Indexer.bindFault rt (Indexer.writeFault f) cs = None ->
        st' = Indexer.mkState
                (Db.mkDatabase
                   (Db.mkTables
                      (Db.sessions base ++ [Indexer.storedSession f ps m])
                      (Db.chunks base ++ Db.numbered (Db.chunk_seq base) cs)
                      (Db.chunk_seq base + Z.of_nat (List.length cs)))
                   None)
                match prior with
                | None => Indexer.bump_added (Indexer.result st)
                | Some _ => Indexer.bump_updated (Indexer.result st)
                end
                (Indexer.log st ++ before ++ [Indexer.EvInsert sid]))
  /\ (forall cs k, built = Ok cs ->
        Indexer.bindFault rt (Indexer.writeFault f) cs = Some k ->
        (k <= S (List.length cs))%nat ->
        st' = Indexer.caught st d1 (before ++ [Indexer.EvInsert sid])).
Proof.
  intros Hw Hp sid prior d1 base before built st'.
  assert (Hd1 : Db.working d1 = None
                /\ Db.has_session base sid = false
                /\ (prior <> None ->
                    forall c, In c (Db.chunks base) -> Db.session_id c <> sid)).
  { subst base d1. unfold prior.
    destruct (Db.getSessionMtime (Indexer.db st) sid) eqn:E.
    - destruct (deleteSession_autocommit (Indexer.db st) sid Hw) as [H1 H2].
      destruct (deleteSession_removes (Indexer.db st) sid) as [H3 H4].
      rewrite H2 in H3, H4. repeat split; auto.
    - apply getSessionMtime_none in E. unfold Db.view in E.
      rewrite Hw in E. repeat split; auto; congruence. }
  destruct Hd1 as (Hw1 & Hpk & Hold).
  assert (Hre : st'
    = match built with
      | Err _ => Indexer.caught st d1 before
      | Ok cs =>
          match Db.insertSession
                  (Indexer.bindFault rt (Indexer.writeFault f) cs) d1
                  (Indexer.storedSession f ps m) cs with
          | (db2, Some _) =>
              Indexer.caught st db2 (before ++ [Indexer.EvInsert sid])
          | (db2, None) =>
              Indexer.mkState db2
                match prior with
                | None => Indexer.bump_added (Indexer.result st)
                | Some _ => Indexer.bump_updated (Indexer.result st)
                end
                (Indexer.log st ++ before ++ [Indexer.EvInsert sid])
          end
      end).
  { subst st'. unfold Indexer.reindex. rewrite Hp. reflexivity. }
  split; [|split; [exact Hpk|split; [exact Hold|split; [|split]]]].
  - subst base. destruct d1 as [c0 w]. simpl in *. now subst w.
  - intros e He. rewrite Hre, He. reflexivity.
  - intros cs Hb Hf. rewrite Hre, Hb, Hf.
    pose proof (insertSession_cases None d1 (Indexer.storedSession f ps m) cs)
      as Hat.
    pose proof (insertSession_succeeds d1 (Indexer.storedSession f ps m) cs
                  Hw1 Hpk) as Hok.
    assert (Hfk : forall c, In c cs ->
              (Db.has_session (Db.committed d1) (Db.session_id c)
               || String.eqb (Db.id (Indexer.storedSession f ps m))
                             (Db.session_id c))%bool = true).
    { intros c Hin.
      rewrite (buildChunks_session_id fmt sid _ _ _ Hb c Hin).
      simpl. fold sid. rewrite String.eqb_refl. apply orb_true_r. }
    specialize (Hok Hfk).
    destruct (Db.insertSession None d1 (Indexer.storedSession f ps m) cs)
      as [db2 [e|]]; simpl in *; [discriminate|].
    destruct Hat as [_ ->]. reflexivity.
  - intros cs k Hb Hf Hk. rewrite Hre, Hb, Hf.
    pose proof (insertSession_cases (Some k) d1
                  (Indexer.storedSession f ps m) cs) as Hat.
    pose proof (insertSession_struck k d1 (Indexer.storedSession f ps m) cs
                  Hk) as Hs.
    destruct (Db.insertSession (Some k) d1 (Indexer.storedSession f ps m) cs)
      as [db2 [e|]]; simpl in *; [now subst db2|congruence].
Qed.

(** C2: the incremental decision, for a file the adapter accepts and
    whose mtime [m] can be read, in a store with no transaction open.
    (1) If the first line gives a session id the store holds with stored
    mtime [m], only [skipped] grows: the store and the log of parses and
    writes are untouched.
    (2) Otherwise, for a file that parses, the old rows of the parsed id
    (if any) are deleted first, and then:
    (a) when the chunks are built and the write meets no failure, which
    asks for [bun:sqlite] as soon as there is a chunk, the store holds the
    remaining rows followed by the new session row and exactly its new
    chunks, and [added] grows when the id was not stored, [updated] when
    it was;
    (b) under [node:sqlite] a session with at least one chunk is never
    written: the bind of the first chunk throws, [errors] grows instead
    of [added] or [updated], and the rows deleted stay deleted;
    (c) when building the chunks throws, [errors] grows, nothing is
    inserted, and the rows deleted stay deleted. *)
Theorem indexFile_incremental (rt : Db.Runtime)
        (fmt : Session.ToolCall -> Result string)
        (st : Indexer.State) (f : Indexer.File) (m : Z) :
  Indexer.canParse f = true ->
  Indexer.mtimeMs f = Some m ->
  Db.working (Indexer.db st) = None ->
  (forall sid,
      Indexer.header f = Indexer.HeaderId (Some sid) ->
      Db.getSessionMtime (Indexer.db st) sid = Some m ->
      Indexer.indexFile rt fmt st f
      = Indexer.mkState (Indexer.db st)
          (Indexer.bump_skipped (Indexer.result st)) (Indexer.log st))
  /\
  (forall ps,
      Indexer.header f <> Indexer.Malformed ->
      (forall sid, Indexer.header f = Indexer.HeaderId (Some sid) ->
                   Db.getSessionMtime (Indexer.db st) sid <> Some m) ->
      Indexer.parse f = Ok ps ->
      let sid := Session.id ps in
      let prior := Db.getSessionMtime (Indexer.db st) sid in
      let base :=
        match prior with
        | Some _ => Db.committed (Db.deleteSession (Indexer.db st) sid)
        | None => Db.committed (Indexer.db st)
        end in
      let before :=
        Indexer.EvParse (Indexer.filePath f)
        :: match prior with
           | Some _ => [Indexer.EvDelete sid]
           | None => []
           end in
      let built := Indexer.buildChunks fmt sid (Session.turns ps) 0 in
      let st' := Indexer.indexFile rt fmt st f in
      Db.has_session base sid = false
      /\ (prior <> None ->
          forall c, In c (Db.chunks base) -> Db.session_id c <> sid)
      /\ (forall cs,
            built = Ok cs ->
            Indexer.writeFault f = None ->
            rt = Db.Bun \/ cs = [] ->
            Indexer.db st'
            = Db.mkDatabase
                (Db.mkTables
                   (Db.sessions base ++ [Indexer.storedSession f ps m])
                   (Db.chunks base ++ Db.numbered (Db.chunk_seq base) cs)
                   (Db.chunk_seq base + Z.of_nat (List.length cs)))
                None
            /\ Indexer.log st'
               = Indexer.log st ++ before ++ [Indexer.EvInsert sid]
            /\ Indexer.result st'
               = match prior with
                 | None => Indexer.bump_added (Indexer.result st)
                 | Some _ => Indexer.bump_updated (Indexer.result st)
                 end)
      /\ (forall c cs,
            built = Ok (c :: cs) ->
            rt = Db.Node ->
            st' = Indexer.mkState (Db.mkDatabase base None)
                    (Indexer.bump_errors (Indexer.result st))
                    (Indexer.log st ++ before ++ [Indexer.EvInsert sid]))
      /\ (forall e,
            built = Err e ->
            st' = Indexer.mkState (Db.mkDatabase base None)
                    (Indexer.bump_errors (Indexer.result st))
                    (Indexer.log st ++ before))).
Proof.
  intros Hc Hm Hw. split.
  - intros sid Hh Hs. unfold Indexer.indexFile.
    rewrite Hc, Hm, Hh, Hs; simpl. now rewrite Z.eqb_refl.
  - intros ps Hh Hq Hp sid prior base before built st'.
    assert (Hst : st' = Indexer.reindex rt fmt st f m)
      by (apply indexFile_reindex; assumption).
    destruct (reindex_outcome rt fmt st f m ps Hw Hp)
      as (Hd1 & Hpk & Hold & Hthrow & Hgood & Hbad).
    fold sid prior in Hd1, Hpk, Hold, Hthrow, Hgood, Hbad.
    assert (Hbase : Db.committed
                      match prior with
                      | Some _ => Db.deleteSession (Indexer.db st) sid
                      | None => Indexer.db st
                      end = base)
      by (subst base; now destruct prior).
    rewrite Hbase in Hd1, Hpk, Hold, Hgood.
    fold before built in Hthrow, Hgood, Hbad.
    split; [exact Hpk|split; [exact Hold|split; [|split]]].
    + intros cs Hb Hf Hrt.
      assert (Hnone : Indexer.bindFault rt (Indexer.writeFault f) cs = None)
        by (apply bindFault_none; now split).
      rewrite Hst, (Hgood cs Hb Hnone). repeat split.
    + intros c cs Hb ->.
      destruct (bindFault_node (Indexer.writeFault f) c cs)
        as (k & Hk & Hle).
      rewrite Hst, (Hbad (c :: cs) k Hb Hk), Hd1; [reflexivity|].
      simpl. lia.
    + intros e He. rewrite Hst, (Hthrow e He), Hd1. reflexivity.
Qed.

(** C2 (code evaluated): a store that holds session [s1] with mtime 1000,
    and the file of [s1] seen again.  With the same mtime it is skipped.
    With a newer mtime it is updated under [bun:sqlite]; under
    [node:sqlite] it is counted as an error and [s1] is gone from the
    store.  A file of a new session [s2] is added under [bun:sqlite] and
    is an error under [node:sqlite]. *)
Lemma indexFile_incremental_witness :
  Indexer.indexFile Db.Node Sample.fmt Sample.indexedOnce
    (Sample.file "s1" 1000)
  = Indexer.mkState (Indexer.db Sample.indexedOnce)
      (Indexer.mkIndexResult 1 0 1 0) (Indexer.log Sample.indexedOnce)
  /\ Indexer.result
       (Indexer.indexFile Db.Bun Sample.fmt Sample.indexedOnce
          (Sample.file "s1" 2000))
     = Indexer.mkIndexResult 1 1 0 0
  /\ Indexer.indexFile Db.Node Sample.fmt Sample.indexedOnce
       (Sample.file "s1" 2000)
     = Indexer.mkState (Db.mkDatabase (Db.mkTables [] [] 2) None)
         (Indexer.mkIndexResult 1 0 0 1)
         (Indexer.log Sample.indexedOnce
          ++ [Indexer.EvParse "/sessions/proj/s1.jsonl";
              Indexer.EvDelete "s1"; Indexer.EvInsert "s1"])
  /\ Indexer.result
       (Indexer.indexFile Db.Bun Sample.fmt Sample.indexedOnce
          (Sample.file "s2" 1000))
     = Indexer.mkIndexResult 2 0 0 0
  /\ Indexer.result
       (Indexer.indexFile Db.Node Sample.fmt Sample.indexedOnce
          (Sample.file "s2" 1000))
     = Indexer.mkIndexResult 1 0 0 1.
Proof.
  split; [|split; [|split; [|split]]].
  - destruct (indexFile_incremental Db.Node Sample.fmt Sample.indexedOnce
                (Sample.file "s1" 1000) 1000 eq_refl eq_refl eq_refl)
      as [Hskip _].
    exact (Hskip "s1" eq_refl eq_refl).
  - destruct (indexFile_incremental Db.Bun Sample.fmt Sample.indexedOnce
                (Sample.file "s1" 2000) 2000 eq_refl eq_refl eq_refl)
      as [_ Hfull].
    destruct (Hfull (Sample.parsed "s1")) as (_ & _ & Hgood & _);
      [ discriminate
      | intros sid [= <-] H; vm_compute in H; discriminate H
      | reflexivity | ].
    destruct (Hgood _ eq_refl eq_refl (or_introl eq_refl)) as (_ & _ & Hres).
    exact Hres.
  - destruct (indexFile_incremental Db.Node Sample.fmt Sample.indexedOnce
                (Sample.file "s1" 2000) 2000 eq_refl eq_refl eq_refl)
      as [_ Hfull].
    destruct (Hfull (Sample.parsed "s1")) as (_ & _ & _ & Hnode & _);
      [ discriminate
      | intros sid [= <-] H; vm_compute in H; discriminate H
      | reflexivity | ].
    exact (Hnode _ _ eq_refl eq_refl).
  - destruct (indexFile_incremental Db.Bun Sample.fmt Sample.indexedOnce
                (Sample.file "s2" 1000) 1000 eq_refl eq_refl eq_refl)
      as [_ Hfull].
    destruct (Hfull (Sample.parsed "s2")) as (_ & _ & Hgood & _);
      [ discriminate
      | intros sid [= <-] H; vm_compute in H; discriminate H
      | reflexivity | ].
    destruct (Hgood _ eq_refl eq_refl (or_introl eq_refl)) as (_ & _ & Hres).
    exact Hres.
  - destruct (indexFile_incremental Db.Node Sample.fmt Sample.indexedOnce
                (Sample.file "s2" 1000) 1000 eq_refl eq_refl eq_refl)
      as [_ Hfull].
    destruct (Hfull (Sample.parsed "s2")) as (_ & _ & _ & Hnode & _);
      [ discriminate
      | intros sid [= <-] H; vm_compute in H; discriminate H
      | reflexivity | ].
    rewrite (Hnode _ _ eq_refl eq_refl). reflexivity.
Defined.

Lemma indexFiles_app (rt : Db.Runtime)
      (fmt : Session.ToolCall -> Result string)
      (fs1 fs2 : list Indexer.File) (st : Indexer.State) :
  Indexer.indexFiles rt fmt (fs1 ++ fs2) st
  = Indexer.indexFiles rt fmt fs2 (Indexer.indexFiles rt fmt fs1 st).
Proof. unfold Indexer.indexFiles. apply fold_left_app. Qed.

(** C9: failure isolation of a run.
    (1) When reading [sessionsDir] itself fails, the run returns the
    all-zero result and leaves the store as it was; [indexSessions] is a
    total function, so nothing is raised.
    (2) For a file that reaches the full path, an exception of the parse
    bumps [errors] only, with no write; an exception during the write (a
    failure striking any statement of the transaction, the refused bind
    of [node:sqlite] included) bumps [errors] only; so does an exception
    while the chunks are built.
    (3) A failing [statSync] or an unreadable header line does the same.
    (4) In every case the files after the failing one are processed, from
    the state the failing file left. *)
Theorem indexSessions_isolates_failures (rt : Db.Runtime)
        (fmt : Session.ToolCall -> Result string) :
  (forall d,
      Indexer.indexSessions rt fmt d None = Indexer.mkState d Indexer.zero []
      /\ Indexer.result (Indexer.indexSessions rt fmt d None)
         = Indexer.mkIndexResult 0 0 0 0)
  /\ (forall st f m,
         Indexer.canParse f = true ->
         Indexer.mtimeMs f = Some m ->
         Indexer.header f <> Indexer.Malformed ->
         (forall sid, Indexer.header f = Indexer.HeaderId (Some sid) ->
                      Db.getSessionMtime (Indexer.db st) sid <> Some m) ->
         (forall e, Indexer.parse f = Err e ->
            Indexer.indexFile rt fmt st f
            = Indexer.mkState (Indexer.db st)
                (Indexer.bump_errors (Indexer.result st))
                (Indexer.log st ++ [Indexer.EvParse (Indexer.filePath f)]))
         /\ (forall ps k,
                Indexer.parse f = Ok ps ->
                Indexer.writeFault f = Some k ->
                (forall cs,
                    Indexer.buildChunks fmt (Session.id ps)
                      (Session.turns ps) 0 = Ok cs ->
                    (k <= S (List.length cs))%nat) ->
                Indexer.result (Indexer.indexFile rt fmt st f)
                = Indexer.bump_errors (Indexer.result st))
         /\ (forall ps c cs,
                Indexer.parse f = Ok ps ->
                Indexer.buildChunks fmt (Session.id ps)
                  (Session.turns ps) 0 = Ok (c :: cs) ->
                rt = Db.Node ->
                Indexer.result (Indexer.indexFile rt fmt st f)
                = Indexer.bump_errors (Indexer.result st))
         /\ (forall ps e,
                Indexer.parse f = Ok ps ->
                Indexer.buildChunks fmt (Session.id ps)
                  (Session.turns ps) 0 = Err e ->
                Indexer.result (Indexer.indexFile rt fmt st f)
                = Indexer.bump_errors (Indexer.result st)))
  /\ (forall st f,
         Indexer.canParse f = true ->
         Indexer.mtimeMs f = None
         \/ (Indexer.mtimeMs f <> None /\ Indexer.header f = Indexer.Malformed) ->
         Indexer.indexFile rt fmt st f
         = Indexer.mkState (Indexer.db st)
             (Indexer.bump_errors (Indexer.result st)) (Indexer.log st))
  /\ (forall fs1 f fs2 st,
         Indexer.indexFiles rt fmt (fs1 ++ f :: fs2) st
         = Indexer.indexFiles rt fmt fs2
             (Indexer.indexFile rt fmt (Indexer.indexFiles rt fmt fs1 st) f)).
Proof.
  assert (Hstruck : forall st f m ps cs k,
            Indexer.parse f = Ok ps ->
            Indexer.buildChunks fmt (Session.id ps) (Session.turns ps) 0
            = Ok cs ->
            Indexer.bindFault rt (Indexer.writeFault f) cs = Some k ->
            (k <= S (List.length cs))%nat ->
            Indexer.result (Indexer.reindex rt fmt st f m)
            = Indexer.bump_errors (Indexer.result st)).
  { intros st f m ps cs k Hp Hb Hf Hk. unfold Indexer.reindex.
    rewrite Hp, Hb, Hf.
    match goal with
    | |- context [Db.insertSession (Some k) ?d ?s cs] =>
        pose proof (insertSession_struck k d s cs Hk) as Hs;
        destruct (Db.insertSession (Some k) d s cs) as [d2 [e|]]
    end; simpl in *; [reflexivity|congruence]. }
  split; [|split; [|split]].
  - intros d. split; reflexivity.
  - intros st f m Hc Hm Hh Hq.
    rewrite (indexFile_reindex rt fmt st f m Hc Hm Hh Hq).
    split; [|split; [|split]].
    + intros e He. unfold Indexer.reindex. rewrite He. reflexivity.
    + intros ps k Hp Hf Hk.
      destruct (Indexer.buildChunks fmt (Session.id ps) (Session.turns ps) 0)
        as [cs|e] eqn:Hb.
      * specialize (Hk cs eq_refl).
        assert (Hex : exists j,
                  Indexer.bindFault rt (Indexer.writeFault f) cs = Some j
                  /\ (j <= S (List.length cs))%nat).
        { rewrite Hf. unfold Indexer.bindFault.
          destruct rt, cs as [|c cs], k as [|k]; simpl in *; eauto;
            eexists; (split; [reflexivity|lia]). }
        destruct Hex as (j & Hj & Hle).
        exact (Hstruck st f m ps cs j Hp Hb Hj Hle).
      * unfold Indexer.reindex. rewrite Hp, Hb. reflexivity.
    + intros ps c cs Hp Hb ->.
      destruct (bindFault_node (Indexer.writeFault f) c cs)
        as (k & Hk & Hle).
      apply (Hstruck st f m ps (c :: cs) k Hp Hb Hk). simpl. lia.
    + intros ps e Hp Hb. unfold Indexer.reindex. rewrite Hp, Hb. reflexivity.
  - intros st f Hc [Hm|[Hm Hh]]; unfold Indexer.indexFile; rewrite Hc; simpl.
    + rewrite Hm. unfold Indexer.caught. now rewrite app_nil_r.
    + destruct (Indexer.mtimeMs f); [|congruence].
      rewrite Hh. unfold Indexer.caught. now rewrite app_nil_r.
  - intros fs1 f fs2 st. now rewrite indexFiles_app.
Qed.

Lemma indexSessions_isolates_failures_witness :
  Indexer.result (Indexer.indexSessions Db.Bun Sample.fmt Sample.emptyDb None)
  = Indexer.mkIndexResult 0 0 0 0
  /\ Indexer.result
       (Indexer.indexFile Db.Bun Sample.fmt Sample.indexedOnce
          Sample.brokenFile)
     = Indexer.mkIndexResult 1 0 0 1
  /\ Indexer.result
       (Indexer.indexFile Db.Bun Sample.fmt Sample.indexedOnce
          Sample.unluckyFile)
     = Indexer.mkIndexResult 1 0 0 1
  /\ Indexer.result
       (Indexer.indexSessions Db.Bun Sample.fmt Sample.emptyDb
          Sample.sessionsDir)
     = Indexer.mkIndexResult 2 0 0 2.
Proof.
  destruct (indexSessions_isolates_failures Db.Bun Sample.fmt)
    as (Hdir & Hfile & _ & _).
  split; [exact (proj2 (Hdir Sample.emptyDb))|].
  split; [|split].
  - destruct (Hfile Sample.indexedOnce Sample.brokenFile 5 eq_refl eq_refl)
      as [Hparse _];
      [ discriminate
      | intros sid [= <-] H; vm_compute in H; discriminate H | ].
    rewrite (Hparse _ eq_refl). reflexivity.
  - destruct (Hfile Sample.indexedOnce Sample.unluckyFile 7 eq_refl eq_refl)
      as (_ & Hwrite & _);
      [ discriminate
      | intros sid [= <-] H; vm_compute in H; discriminate H | ].
    rewrite (Hwrite (Sample.parsed "unlucky") 1%nat eq_refl eq_refl);
      [reflexivity | intros cs [= <-]; simpl; lia].
  - reflexivity.
Defined.

(** ** The schema ledger *)

Lemma add_table_ledger (x : string) (c : Schema.Catalog) :
  Schema.ledger (Schema.add_table x c) = Schema.ledger c
  /\ Schema.chunk_columns (Schema.add_table x c) = Schema.chunk_columns c.
Proof. unfold Schema.add_table. destruct (Schema.has x (Schema.tables c)); split; reflexivity. Qed.

Lemma has_add_table (x y : string) (c : Schema.Catalog) :
  Schema.has x (Schema.tables (Schema.add_table y c))
  = (Schema.has x (Schema.tables c) || String.eqb x y)%bool.
Proof.
  unfold Schema.add_table.
  destruct (Schema.has y (Schema.tables c)) eqn:E; simpl.
  - destruct (String.eqb_spec x y) as [->|]; [|now rewrite orb_false_r].
    now rewrite E.
  - unfold Schema.has. rewrite existsb_app; simpl. now rewrite orb_false_r.
Qed.

Lemma exec_schema_ledger (c : Schema.Catalog) :
  Schema.ledger (Schema.exec_schema c) = Schema.ledger c.
Proof.
  unfold Schema.exec_schema; cbv zeta.
  rewrite (proj1 (add_table_ledger _ _)), (proj1 (add_table_ledger _ _)).
  destruct (Schema.has "chunks" (Schema.tables (Schema.add_table "sessions" c)));
    simpl; apply add_table_ledger.
Qed.

Lemma exec_schema_has_chunks (c : Schema.Catalog) :
  Schema.has "chunks" (Schema.tables (Schema.exec_schema c)) = true.
Proof.
  unfold Schema.exec_schema; cbv zeta.
  rewrite has_add_table, has_add_table.
  destruct (Schema.has "chunks" (Schema.tables (Schema.add_table "sessions" c)))
    eqn:E; simpl.
  - now rewrite E.
  - unfold Schema.has. rewrite existsb_app. simpl. now rewrite orb_true_r.
Qed.

Lemma exec_schema_columns (c : Schema.Catalog) :
  Schema.has "chunks" (Schema.tables c) = true ->
  Schema.chunk_columns (Schema.exec_schema c) = Schema.chunk_columns c.
Proof.
  intros H. unfold Schema.exec_schema; cbv zeta.
  rewrite (proj2 (add_table_ledger _ _)), (proj2 (add_table_ledger _ _)).
  rewrite has_add_table, H. simpl. apply add_table_ledger.
Qed.

Lemma applied_recorded (k : Z) (l : list (Z * string)) :
  existsb (Z.eqb k) (map fst l) = existsb (fun r => fst r =? k) l.
Proof.
  induction l as [|r l IH]; simpl; [reflexivity|].
  now rewrite IH, Z.eqb_sym.
Qed.

(** What the loop does on the two shipped steps, from a catalog whose
    ledger table exists. *)
Lemma migrate_shipped (c1 : Schema.Catalog) (l : list (Z * string))
      (fresh : bool) :
  Schema.ledger c1 = Some l ->
  Schema.has "chunks" (Schema.tables c1) = true ->
  let todo :=
    filter (fun m => negb (existsb (fun r => fst r =? Schema.id m) l))
           Schema.migrations in
  let rows := map (fun m => (Schema.id m, Schema.description m)) todo in
  let out := Schema.migrate (map fst l) fresh Schema.migrations
                            (Schema.mkState c1 []) in
  (fresh = true ->
   snd out = None
   /\ Schema.trace (fst out) = map (fun m => Schema.Recorded (Schema.id m)) todo
   /\ Schema.ledger (Schema.cat (fst out)) = Some (l ++ rows))
  /\ (fresh = false ->
      (existsb (fun r => fst r =? 1) l = true
       \/ Schema.has "is_error" (Schema.chunk_columns c1) = false) ->
      snd out = None
      /\ Schema.trace (fst out)
         = flat_map (fun m => [Schema.Executed (Schema.id m);
                               Schema.Recorded (Schema.id m)]) todo
      /\ Schema.ledger (Schema.cat (fst out)) = Some (l ++ rows))
  /\ (fresh = false ->
      existsb (fun r => fst r =? 1) l = false ->
      Schema.has "is_error" (Schema.chunk_columns c1) = true ->
      snd out = Some "duplicate column name: is_error"
      /\ Schema.trace (fst out) = [Schema.Executed 1]
      /\ Schema.cat (fst out) = c1).
Proof.
  intros Hl Hch todo rows out. subst todo rows out.
  destruct c1 as [tabs cols led]; simpl in *; subst led.
  unfold Schema.record, Schema.recorded, Schema.ledger_rows; simpl.
  rewrite !applied_recorded.
  destruct (existsb (fun r => fst r =? 1) l) eqn:E1;
    destruct (existsb (fun r => fst r =? 2) l) eqn:E2;
    destruct fresh;
    destruct (Schema.has "is_error" cols) eqn:E3;
    repeat (progress
              (simpl;
               rewrite ?Hch, ?(proj1 (add_table_ledger _ _)), ?existsb_app,
                 ?E1, ?E2));
    (split; [|split]); intros; try discriminate;
    repeat match goal with H : _ \/ _ |- _ => destruct H end;
    try discriminate;
    repeat split; rewrite <- ?app_assoc, ?app_nil_r; reflexivity.
Qed.

Lemma pending_unrecorded (c : Schema.Catalog) (m : Schema.Migration) :
  In m (Schema.pending c) -> Schema.recorded c (Schema.id m) = false.
Proof.
  unfold Schema.pending. intros H. apply filter_In in H as [_ H].
  now apply negb_true_iff in H.
Qed.

Lemma exec_schema_creates_chunks (c : Schema.Catalog) :
  Schema.has "chunks" (Schema.tables c) = false ->
  Schema.chunk_columns (Schema.exec_schema c) = Schema.latest_chunk_columns.
Proof.
  intros H. unfold Schema.exec_schema; cbv zeta.
  rewrite (proj2 (add_table_ledger _ _)), (proj2 (add_table_ledger _ _)).
  rewrite has_add_table, H. reflexivity.
Qed.

(** C7: opening a store, with the two shipped steps.
    (1) A step the ledger already holds is neither executed nor recorded
    again, whatever else happens.
    (2) On a brand-new store (no [sessions] table before SCHEMA runs)
    opening succeeds and every pending step is recorded, in list order,
    with no body executed.
    (3) On a pre-existing store whose ledger holds step 1, or whose
    [chunks] table, as SCHEMA leaves it, lacks [is_error], opening
    succeeds and every pending step is executed and then recorded, in
    list order.
    (4) On every other pre-existing store the body of step 1 is executed
    and throws: the step is not recorded, step 2 is neither executed nor
    recorded, and the exception leaves [openDatabase].  These are the
    stores whose ledger lacks step 1 while [chunks] has [is_error], or
    while there is no [chunks] table, which SCHEMA then creates with the
    column.
    (5) The columns SCHEMA leaves are those of the [chunks] table found,
    or the latest ones when it creates the table. *)
Theorem openDatabase_ledger (c : Schema.Catalog) :
  let st := fst (Schema.openDatabase c) in
  let err := snd (Schema.openDatabase c) in
  let rows :=
    map (fun m => (Schema.id m, Schema.description m)) (Schema.pending c) in
  let columns := Schema.chunk_columns (Schema.exec_schema c) in
  (forall k, Schema.recorded c k = true ->
             ~ In (Schema.Executed k) (Schema.trace st)
             /\ ~ In (Schema.Recorded k) (Schema.trace st))
  /\ (Schema.isFresh c = true ->
      err = None
      /\ Schema.trace st
         = map (fun m => Schema.Recorded (Schema.id m)) (Schema.pending c)
      /\ Schema.ledger (Schema.cat st) = Some (Schema.ledger_rows c ++ rows))
  /\ (Schema.isFresh c = false ->
      Schema.recorded c 1 = true
      \/ Schema.has "is_error" columns = false ->
      err = None
      /\ Schema.trace st
         = flat_map (fun m => [Schema.Executed (Schema.id m);
                               Schema.Recorded (Schema.id m)])
                    (Schema.pending c)
      /\ Schema.ledger (Schema.cat st) = Some (Schema.ledger_rows c ++ rows))
  /\ (Schema.isFresh c = false ->
      Schema.recorded c 1 = false ->
      Schema.has "is_error" columns = true ->
      err = Some "duplicate column name: is_error"
      /\ Schema.trace st = [Schema.Executed 1]
      /\ Schema.ledger_rows (Schema.cat st) = Schema.ledger_rows c)
  /\ columns
     = (if Schema.has "chunks" (Schema.tables c) then Schema.chunk_columns c
        else Schema.latest_chunk_columns).
Proof.
  intros st err rows columns. subst st err rows columns.
  unfold Schema.openDatabase, Schema.runMigrations, Schema.runMigrationsWith.
  set (c0 := Schema.exec_schema c).
  set (c1 := match Schema.ledger c0 with
             | Some _ => c0
             | None => Schema.mkCatalog (Schema.tables c0)
                         (Schema.chunk_columns c0) (Some [])
             end).
  assert (Hl : Schema.ledger c1 = Some (Schema.ledger_rows c)).
  { subst c1. unfold Schema.ledger_rows.
    rewrite <- (exec_schema_ledger c). fold c0.
    destruct (Schema.ledger c0) eqn:E; [exact E|reflexivity]. }
  assert (Hrows : Schema.ledger_rows c1 = Schema.ledger_rows c)
    by (unfold Schema.ledger_rows at 1; now rewrite Hl).
  assert (Hch : Schema.has "chunks" (Schema.tables c1) = true).
  { pose proof (exec_schema_has_chunks c) as H. fold c0 in H.
    subst c1. destruct (Schema.ledger c0); exact H. }
  assert (Hcols : Schema.chunk_columns c1 = Schema.chunk_columns c0)
    by (subst c1; now destruct (Schema.ledger c0)).
  rewrite Hrows.
  pose proof (migrate_shipped c1 (Schema.ledger_rows c) (Schema.isFresh c)
                Hl Hch) as (Hfresh & Hold & Hdup).
  fold (Schema.pending c) in Hfresh, Hold.
  change (filter _ Schema.migrations) with (Schema.pending c) in Hfresh, Hold.
  change (existsb (fun r => fst r =? 1) (Schema.ledger_rows c))
    with (Schema.recorded c 1) in Hold, Hdup.
  rewrite Hcols in Hold, Hdup.
  set (out := Schema.migrate (map fst (Schema.ledger_rows c))
                (Schema.isFresh c) Schema.migrations (Schema.mkState c1 []))
    in *.
  split; [|split; [|split; [|split]]].
  - intros k Hk.
    assert (Hev : forall e, In e (Schema.trace (fst out)) ->
                  e <> Schema.Executed k /\ e <> Schema.Recorded k).
    { intros e He.
      destruct (Schema.isFresh c) eqn:Ef.
      - destruct (Hfresh eq_refl) as (_ & Ht & _). rewrite Ht in He.
        apply in_map_iff in He as (m & <- & Hm).
        apply pending_unrecorded in Hm.
        split; [discriminate|]. intros [= E]. congruence.
      - destruct (Schema.recorded c 1) eqn:E1.
        + destruct (Hold eq_refl (or_introl eq_refl)) as (_ & Ht & _).
          rewrite Ht in He. apply in_flat_map in He as (m & Hm & He).
          apply pending_unrecorded in Hm.
          destruct He as [<-|[<-|[]]]; split; try discriminate;
            intros [= E]; congruence.
        + destruct (Schema.has "is_error" (Schema.chunk_columns c0)) eqn:E3.
          * destruct (Hdup eq_refl eq_refl eq_refl) as (_ & Ht & _).
            rewrite Ht in He. destruct He as [<-|[]].
            split; [|discriminate]. intros [= E]. congruence.
          * destruct (Hold eq_refl (or_intror eq_refl)) as (_ & Ht & _).
            rewrite Ht in He. apply in_flat_map in He as (m & Hm & He).
            apply pending_unrecorded in Hm.
            destruct He as [<-|[<-|[]]]; split; try discriminate;
              intros [= E]; congruence. }
    split; intros Hin; apply Hev in Hin; tauto.
  - intros Ef. rewrite Ef in *. exact (Hfresh eq_refl).
  - intros Ef Hok. rewrite Ef in *. exact (Hold eq_refl Hok).
  - intros Ef E1 H2. rewrite Ef in *.
    destruct (Hdup eq_refl E1 H2) as (He & Ht & Hc).
    repeat split; try assumption. now rewrite Hc.
  - subst c0. destruct (Schema.has "chunks" (Schema.tables c)) eqn:E.
    + now apply exec_schema_columns.
    + now apply exec_schema_creates_chunks.
Qed.

(** C7 (code evaluated): a new file and a store of the previous version
    open as claimed; a store whose [chunks] table has [is_error] while
    the ledger lacks step 1 does not: step 1 is executed, throws, and is
    not recorded, step 2 is not reached, and opening the store again
    fails in the same way. *)
Lemma openDatabase_ledger_witness :
  Schema.openDatabase Sample.newFile
  = (Schema.mkState
       (Schema.mkCatalog ["sessions"; "chunks"; "metadata"; "chunks_fts"]
          Schema.latest_chunk_columns
          (Some [(1, "add is_error column to chunks");
                 (2, "add metadata table")]))
       [Schema.Recorded 1; Schema.Recorded 2], None)
  /\ Schema.trace (fst (Schema.openDatabase Sample.legacyStore))
     = [Schema.Executed 1; Schema.Recorded 1;
        Schema.Executed 2; Schema.Recorded 2]
  /\ snd (Schema.openDatabase Sample.legacyStore) = None
  /\ snd (Schema.openDatabase Sample.halfUpgraded)
     = Some "duplicate column name: is_error"
  /\ Schema.trace (fst (Schema.openDatabase Sample.halfUpgraded))
     = [Schema.Executed 1]
  /\ Schema.ledger_rows
       (Schema.cat (fst (Schema.openDatabase Sample.halfUpgraded))) = []
  /\ snd (Schema.openDatabase
            (Schema.cat (fst (Schema.openDatabase Sample.halfUpgraded))))
     = Some "duplicate column name: is_error".
Proof.
  split; [reflexivity|].
  destruct (openDatabase_ledger Sample.legacyStore) as (_ & _ & Hold & _).
  destruct (Hold eq_refl (or_intror eq_refl)) as (Herr & Htrace & _).
  split; [exact Htrace|]. split; [exact Herr|].
  destruct (openDatabase_ledger Sample.halfUpgraded)
    as (_ & _ & _ & Hdup & _).
  destruct (Hdup eq_refl eq_refl eq_refl) as (H1 & H2 & H3).
  split; [exact H1|]. split; [exact H2|]. split; [exact H3|].
  destruct (openDatabase_ledger
              (Schema.cat (fst (Schema.openDatabase Sample.halfUpgraded))))
    as (_ & _ & _ & Hagain & _).
  exact (proj1 (Hagain eq_refl eq_refl eq_refl)).
Defined.

(** ** Lists: stable sort, DISTINCT, truncation *)

Section SortFacts.

Variable A : Type.
Variable le : A -> A -> bool.
Hypothesis le_total : forall x y, le x y = true \/ le y x = true.
Hypothesis le_trans :
  forall x y z, le x y = true -> le y z = true -> le x z = true.

Lemma insert_perm (x : A) (l : list A) :
  Permutation (Query.insert le x l) (x :: l).
Proof.
  induction l as [|y r IH]; simpl; [reflexivity|].
  destruct (le x y); [reflexivity|].
  rewrite IH. apply perm_swap.
Qed.

Lemma sort_perm (l : list A) : Permutation (Query.sort le l) l.
Proof.
  induction l as [|x r IH]; simpl; [reflexivity|].
  rewrite insert_perm. now apply perm_skip.
Qed.

Lemma sort_In (l : list A) (x : A) : In x (Query.sort le l) <-> In x l.
Proof.
  split; apply Permutation_in; [|symmetry]; apply sort_perm.
Qed.

Lemma insert_sorted (x : A) (l : list A) :
  StronglySorted (Spec.holds le) l -> StronglySorted (Spec.holds le) (Query.insert le x l).
Proof.
  induction 1 as [|y r Hs IH Hy]; simpl.
  - repeat constructor.
  - destruct (le x y) eqn:E.
    + constructor; [now constructor|].
      constructor; [exact E|].
      eapply Forall_impl; [|exact Hy]. intros z Hz. exact (le_trans _ _ _ E Hz).
    + constructor; [exact IH|].
      apply Forall_forall. intros z Hz.
      apply (Permutation_in _ (insert_perm x r)) in Hz.
      destruct Hz as [<-|Hz].
      * destruct (le_total x y) as [H|H]; [congruence|exact H].
      * rewrite Forall_forall in Hy. now apply Hy.
Qed.

Lemma sort_sorted (l : list A) : StronglySorted (Spec.holds le) (Query.sort le l).
Proof.
  induction l as [|x r IH]; simpl; [constructor|].
  now apply insert_sorted.
Qed.

(** Inserting in front of a list of larger elements. *)
Lemma insert_head (x : A) (l : list A) :
  Forall ((Spec.holds le) x) l -> Query.insert le x l = x :: l.
Proof.
  intros H. destruct l as [|y r]; simpl; [reflexivity|].
  inversion H as [|? ? Hy _]; subst. unfold Spec.holds in Hy. now rewrite Hy.
Qed.

Lemma filter_insert (p : A -> bool) (x : A) (l : list A) :
  StronglySorted (Spec.holds le) l ->
  filter p (Query.insert le x l)
  = if p x then Query.insert le x (filter p l) else filter p l.
Proof.
  induction 1 as [|y r Hs IH Hy]; simpl.
  - destruct (p x); reflexivity.
  - destruct (le x y) eqn:E; simpl.
    + assert (Hall : Forall ((Spec.holds le) x) (filter p (y :: r))).
      { apply Forall_forall. intros z Hz. apply filter_In in Hz as [Hz _].
        destruct Hz as [<-|Hz]; [exact E|].
        rewrite Forall_forall in Hy. exact (le_trans _ _ _ E (Hy z Hz)). }
      simpl in Hall.
      destruct (p x); [|reflexivity].
      now rewrite (insert_head _ _ Hall).
    + rewrite IH. destruct (p y), (p x); simpl; try reflexivity.
      now rewrite E.
Qed.

(** A stable sort commutes with a filter. *)
Lemma filter_sort (p : A -> bool) (l : list A) :
  filter p (Query.sort le l) = Query.sort le (filter p l).
Proof.
  induction l as [|x r IH]; simpl; [reflexivity|].
  rewrite filter_insert by apply sort_sorted.
  rewrite IH. destruct (p x); reflexivity.
Qed.

End SortFacts.

Section DistinctFacts.

Variable A : Type.
Variable eqb : A -> A -> bool.
Hypothesis eqb_eq : forall x y, eqb x y = true <-> x = y.

Lemma distinct_In (l : list A) (x : A) :
  In x (Query.distinct eqb l) <-> In x l.
Proof.
  induction l as [|y r IH]; simpl; [tauto|].
  rewrite filter_In, IH. split.
  - intros [H|[H _]]; auto.
  - intros [H|H]; [now left|].
    destruct (eqb y x) eqn:E.
    + left. now apply eqb_eq.
    + right. split; [exact H|reflexivity].
Qed.

Lemma filter_comm (p q : A -> bool) (l : list A) :
  filter p (filter q l) = filter q (filter p l).
Proof.
  induction l as [|x r IH]; simpl; [reflexivity|].
  destruct (p x) eqn:Ep, (q x) eqn:Eq; simpl; rewrite ?Ep, ?Eq, IH; reflexivity.
Qed.

Lemma filter_absorb (p q : A -> bool) (l : list A) :
  (forall y, p y = true -> q y = true) ->
  filter p (filter q l) = filter p l.
Proof.
  intros H. induction l as [|x r IH]; simpl; [reflexivity|].
  destruct (p x) eqn:Ep.
  - rewrite (H x Ep); simpl. now rewrite Ep, IH.
  - destruct (q x); simpl; rewrite ?Ep; exact IH.
Qed.

(** DISTINCT commutes with a WHERE clause on the selected columns. *)
Lemma distinct_filter (p : A -> bool) (l : list A) :
  Query.distinct eqb (filter p l) = filter p (Query.distinct eqb l).
Proof.
  induction l as [|x r IH]; simpl; [reflexivity|].
  destruct (p x) eqn:Ep; simpl.
  - rewrite ?Ep, IH. f_equal. apply filter_comm.
  - rewrite IH. symmetry. apply filter_absorb.
    intros y Hy. apply negb_true_iff.
    destruct (eqb x y) eqn:E; [|reflexivity].
    apply eqb_eq in E. congruence.
Qed.


End DistinctFacts.

(** A WHERE clause on the joined rows can be applied per outer row. *)
Lemma flat_map_where (A B : Type) (keep : B -> bool) (rows : A -> list B)
      (outer : list A) :
  flat_map (fun x => filter keep (rows x)) outer
  = filter keep (flat_map rows outer).
Proof.
  induction outer as [|x rest IH]; simpl; [reflexivity|].
  now rewrite filter_app, IH.
Qed.

Lemma firstn_In (A : Type) (n : nat) (l : list A) (x : A) :
  In x (firstn n l) -> In x l.
Proof.
  revert n. induction l as [|y r IH]; intros [|n]; simpl; try tauto.
  intros [H|H]; [now left|right; exact (IH n H)].
Qed.



Lemma slice0_firstn (A : Type) (n : Z) (l : list A) :
  0 <= n -> Js.slice0 n l = firstn (Z.to_nat n) l.
Proof.
  intros Hn. unfold Js.slice0.
  destruct (Z.ltb_spec n 0); [lia|].
  destruct (Z.le_ge_cases n (Z.of_nat (List.length l))) as [H1|H1].
  - now rewrite Z.min_l.
  - rewrite Z.min_r by lia. rewrite Nat2Z.id.
    rewrite firstn_all. symmetry. apply firstn_all2. lia.
Qed.

Lemma sql_limit_firstn (A : Type) (n : Z) (l : list A) :
  0 <= n -> Js.sql_limit n l = firstn (Z.to_nat n) l.
Proof.
  intros Hn. unfold Js.sql_limit. destruct (Z.ltb_spec n 0); [lia|reflexivity].
Qed.

(** ** Row equality and the orders of the two modes *)

Lemma ostr_eqb_eq (a b : option string) :
  Query.ostr_eqb a b = true <-> a = b.
Proof.
  destruct a as [x|], b as [y|]; simpl; try (split; congruence).
  rewrite String.eqb_eq. split; congruence.
Qed.

Lemma cols_eqb_eq (a b : Query.Cols) : Query.cols_eqb a b = true <-> a = b.
Proof.
  destruct a, b. unfold Query.cols_eqb; simpl.
  rewrite !andb_true_iff, !String.eqb_eq, !ostr_eqb_eq.
  split; [intros [[[[[[-> ->] ->] ->] ->] ->] ->]; reflexivity|].
  intros [= -> -> -> -> -> -> ->]. tauto.
Qed.

Lemma row_eqb_eq (a b : Query.Row) : Query.row_eqb a b = true <-> a = b.
Proof.
  destruct a, b. unfold Query.row_eqb; simpl.
  rewrite andb_true_iff, cols_eqb_eq, Z.eqb_eq.
  split; [intros [-> ->]; reflexivity|intros [= -> ->]; tauto].
Qed.

Lemma score_le_total (x y : Query.SearchResult) :
  Query.score_le x y = true \/ Query.score_le y x = true.
Proof. unfold Query.score_le. rewrite !Z.leb_le. lia. Qed.

Lemma score_le_trans (x y z : Query.SearchResult) :
  Query.score_le x y = true -> Query.score_le y z = true ->
  Query.score_le x z = true.
Proof. unfold Query.score_le. rewrite !Z.leb_le. lia. Qed.

Lemma ascii_compare_refl (a : ascii) : Ascii.compare a a = Eq.
Proof. unfold Ascii.compare. apply N.compare_refl. Qed.

Lemma ascii_compare_lt_trans (a b c : ascii) :
  Ascii.compare a b = Lt -> Ascii.compare b c = Lt -> Ascii.compare a c = Lt.
Proof.
  unfold Ascii.compare. rewrite !N.compare_lt_iff. apply N.lt_trans.
Qed.

Lemma string_leb_trans (a : string) :
  forall b c, String.leb a b = true -> String.leb b c = true ->
              String.leb a c = true.
Proof.
  unfold String.leb.
  induction a as [|x a IH]; intros [|y b] [|z c]; simpl;
    try reflexivity; try discriminate.
  destruct (Ascii.compare x y) eqn:Exy; try discriminate;
    destruct (Ascii.compare y z) eqn:Eyz; try discriminate.
  - apply Ascii.compare_eq_iff in Exy, Eyz. subst.
    rewrite ascii_compare_refl. apply IH.
  - apply Ascii.compare_eq_iff in Exy. subst. now rewrite Eyz.
  - apply Ascii.compare_eq_iff in Eyz. subst. now rewrite Exy.
  - now rewrite (ascii_compare_lt_trans _ _ _ Exy Eyz).
Qed.

Lemma newer_eq_total (x y : Query.Cols) :
  Query.newer_eq x y = true \/ Query.newer_eq y x = true.
Proof.
  unfold Query.newer_eq.
  destruct (Query.c_modifiedAt x), (Query.c_modifiedAt y); auto.
  apply String.leb_total.
Qed.

Lemma newer_eq_trans (x y z : Query.Cols) :
  Query.newer_eq x y = true -> Query.newer_eq y z = true ->
  Query.newer_eq x z = true.
Proof.
  unfold Query.newer_eq.
  destruct (Query.c_modifiedAt x), (Query.c_modifiedAt y),
    (Query.c_modifiedAt z); try reflexivity; try discriminate.
  intros H1 H2. exact (string_leb_trans _ _ _ H2 H1).
Qed.

(** ** Grouping by session *)

Lemma NoDup_map_inj (A B : Type) (f : A -> B) (l : list A) (a b : A) :
  NoDup (map f l) -> In a l -> In b l -> f a = f b -> a = b.
Proof.
  induction l as [|x r IH]; simpl; [tauto|].
  intros Hnd Ha Hb Hf. inversion Hnd as [|? ? Hx Hr]; subst.
  destruct Ha as [<-|Ha], Hb as [<-|Hb]; auto.
  - exfalso. apply Hx. rewrite Hf. now apply in_map.
  - exfalso. apply Hx. rewrite <- Hf. now apply in_map.
Qed.

Lemma upsert_In (x r : Query.SearchResult) (m : list Query.SearchResult) :
  In r (Query.upsert x m) -> r = x \/ In r m.
Proof.
  induction m as [|e m IH]; simpl.
  - intros [<-|[]]; now left.
  - destruct (String.eqb (Query.sessionId e) (Query.sessionId x)).
    + destruct (Query.score x <? Query.score e); simpl; intros [<-|H]; auto.
    + simpl. intros [<-|H]; auto. destruct (IH H); auto.
Qed.

Lemma upsert_keys (x : Query.SearchResult) (m : list Query.SearchResult) :
  map Query.sessionId (Query.upsert x m)
  = if Query.mem (Query.sessionId x) (map Query.sessionId m)
    then map Query.sessionId m
    else map Query.sessionId m ++ [Query.sessionId x].
Proof.
  unfold Query.mem.
  induction m as [|e m IH]; simpl; [reflexivity|].
  rewrite (String.eqb_sym (Query.sessionId x)).
  destruct (String.eqb_spec (Query.sessionId e) (Query.sessionId x)) as [E|E];
    simpl.
  - destruct (Query.score x <? Query.score e); simpl; congruence.
  - rewrite IH.
    destruct (existsb (String.eqb (Query.sessionId x)) (map Query.sessionId m));
      reflexivity.
Qed.

Lemma mem_In (x : string) (l : list string) :
  Query.mem x l = true <-> In x l.
Proof.
  unfold Query.mem. rewrite existsb_exists. split.
  - intros (y & Hy & E). apply String.eqb_eq in E. now subst.
  - intros H. exists x. split; [exact H|apply String.eqb_refl].
Qed.

Lemma upsert_NoDup (x : Query.SearchResult) (m : list Query.SearchResult) :
  NoDup (map Query.sessionId m) ->
  NoDup (map Query.sessionId (Query.upsert x m)).
Proof.
  intros H. rewrite upsert_keys.
  destruct (Query.mem (Query.sessionId x) (map Query.sessionId m)) eqn:E;
    [exact H|].
  apply NoDup_app; [exact H|repeat constructor; intros []|].
  intros y Hy [<-|[]].
  apply mem_In in Hy. congruence.
Qed.

(** After [upsert x], the map holds for the session of [x] an entry that
    scores no worse than [x], and every earlier entry is still matched by
    one that scores no worse. *)
Lemma upsert_dominates (x : Query.SearchResult)
      (m : list Query.SearchResult) :
  (exists r, In r (Query.upsert x m)
             /\ Query.sessionId r = Query.sessionId x
             /\ Query.score r <= Query.score x)
  /\ (forall e, In e m ->
        exists r, In r (Query.upsert x m)
                  /\ Query.sessionId r = Query.sessionId e
                  /\ Query.score r <= Query.score e).
Proof.
  induction m as [|e m [IHx IHm]]; simpl.
  - split; [exists x; repeat split; auto; lia|intros e []].
  - destruct (String.eqb_spec (Query.sessionId e) (Query.sessionId x))
      as [E|E].
    + destruct (Z.ltb_spec (Query.score x) (Query.score e)); split.
      * exists x. simpl. repeat split; auto; lia.
      * intros e' [<-|He'].
        -- exists x. simpl. repeat split; auto; lia.
        -- exists e'. simpl. repeat split; auto; lia.
      * exists e. simpl. repeat split; auto.
      * intros e' He'. exists e'. simpl. repeat split; auto; lia.
    + split.
      * destruct IHx as (r & Hr & Hk & Hs). exists r. simpl. auto.
      * intros e' [<-|He'].
        -- exists e. simpl. repeat split; auto; lia.
        -- destruct (IHm e' He') as (r & Hr & Hk & Hs). exists r. simpl. auto.
Qed.

(** Filtering on the session commutes with [upsert]. *)
Lemma filter_upsert (p : string -> bool) (x : Query.SearchResult)
      (m : list Query.SearchResult) :
  filter (fun r => p (Query.sessionId r)) (Query.upsert x m)
  = if p (Query.sessionId x)
    then Query.upsert x (filter (fun r => p (Query.sessionId r)) m)
    else filter (fun r => p (Query.sessionId r)) m.
Proof.
  induction m as [|e m IH]; simpl.
  - destruct (p (Query.sessionId x)); reflexivity.
  - destruct (String.eqb_spec (Query.sessionId e) (Query.sessionId x))
      as [E|E]; simpl.
    + rewrite E.
      destruct (Query.score x <? Query.score e) eqn:Es; simpl; rewrite ?E;
        destruct (p (Query.sessionId x)); simpl;
        rewrite ?E, ?String.eqb_refl, ?Es; reflexivity.
    + rewrite IH.
      destruct (p (Query.sessionId e)) eqn:Ee, (p (Query.sessionId x));
        simpl; try reflexivity.
      destruct (String.eqb_spec (Query.sessionId e) (Query.sessionId x));
        [contradiction|reflexivity].
Qed.

Section GroupFacts.

Variable fr : list Query.FtsRow.

Lemma grouped_fold (rows : list Query.Row) :
  forall m,
    fold_left (Query.groupStep fr) rows m
    = fold_left (fun acc x => Query.upsert x acc) (Spec.candidates fr rows) m.
Proof.
  induction rows as [|row r IH]; intros m; simpl; [reflexivity|].
  rewrite fold_left_app, IH. unfold Query.groupStep.
  destruct (Query.scoreMap_get fr (Query.chunkId row)); reflexivity.
Qed.

Lemma fold_upsert_invariant (cands : list Query.SearchResult) :
  let m := fold_left (fun acc x => Query.upsert x acc) cands [] in
  NoDup (map Query.sessionId m)
  /\ (forall r, In r m -> In r cands)
  /\ (forall x, In x cands ->
        exists r, In r m /\ Query.sessionId r = Query.sessionId x
                  /\ Query.score r <= Query.score x).
Proof.
  induction cands as [|x l IH] using rev_ind; simpl.
  - repeat split; [constructor|tauto|intros x []].
  - rewrite fold_left_app; simpl.
    set (m := fold_left (fun acc y => Query.upsert y acc) l []) in *.
    destruct IH as (Hnd & Hsub & Hdom).
    destruct (upsert_dominates x m) as [Hx Hm].
    repeat split.
    + now apply upsert_NoDup.
    + intros r Hr. apply in_or_app.
      destruct (upsert_In _ _ _ Hr) as [->|H]; [right; now left|left; auto].
    + intros y Hy. apply in_app_or in Hy as [Hy|[<-|[]]]; [|exact Hx].
      destruct (Hdom y Hy) as (r & Hr & Hk & Hs).
      destruct (Hm r Hr) as (r' & Hr' & Hk' & Hs').
      exists r'. repeat split; [exact Hr'|congruence|lia].
Qed.

(** The grouped map: one entry per session, each entry one of the
    candidates, and each entry the best of its session. *)
Lemma grouped_best (rows : list Query.Row) :
  NoDup (map Query.sessionId (Query.grouped fr rows))
  /\ (forall r, In r (Query.grouped fr rows) -> In r (Spec.candidates fr rows))
  /\ (forall r x, In r (Query.grouped fr rows) -> In x (Spec.candidates fr rows) ->
        Query.sessionId x = Query.sessionId r ->
        Query.score r <= Query.score x)
  /\ (forall x, In x (Spec.candidates fr rows) ->
        exists r, In r (Query.grouped fr rows)
                  /\ Query.sessionId r = Query.sessionId x).
Proof.
  unfold Query.grouped. rewrite grouped_fold.
  destruct (fold_upsert_invariant (Spec.candidates fr rows)) as (Hnd & Hsub & Hdom).
  repeat split; auto.
  - intros r x Hr Hx Hk.
    destruct (Hdom x Hx) as (r' & Hr' & Hk' & Hs).
    assert (r' = r) as ->
        by (apply (NoDup_map_inj _ _ _ _ _ _ Hnd Hr' Hr); congruence).
    exact Hs.
  - intros x Hx. destruct (Hdom x Hx) as (r & Hr & Hk & _). eauto.
Qed.

(** Dropping the rows of some sessions before grouping gives the grouped
    map without those sessions. *)
Lemma grouped_filter (p : string -> bool) (rows : list Query.Row) :
  Query.grouped fr
    (filter (fun row => p (Query.c_sessionId (Query.cols row))) rows)
  = filter (fun r => p (Query.sessionId r)) (Query.grouped fr rows).
Proof.
  unfold Query.grouped.
  assert (H : forall m,
             fold_left (Query.groupStep fr)
               (filter (fun row => p (Query.c_sessionId (Query.cols row))) rows)
               (filter (fun r => p (Query.sessionId r)) m)
             = filter (fun r => p (Query.sessionId r))
                 (fold_left (Query.groupStep fr) rows m)).
  { induction rows as [|row r IH]; intros m; simpl; [reflexivity|].
    destruct (p (Query.c_sessionId (Query.cols row))) eqn:Ep; simpl.
    - rewrite <- IH. f_equal. unfold Query.groupStep.
      destruct (Query.scoreMap_get fr (Query.chunkId row)); [|reflexivity].
      rewrite filter_upsert. simpl. now rewrite Ep.
    - rewrite <- IH. f_equal. unfold Query.groupStep.
      destruct (Query.scoreMap_get fr (Query.chunkId row)); [|reflexivity].
      rewrite filter_upsert. simpl. now rewrite Ep. }
  exact (H []).
Qed.

End GroupFacts.

(** ** The full-text index and the main query *)

Section FullTextFacts.

Variable bm25 :
  string -> list Db.StoredChunk -> Db.StoredChunk -> option (Z * string).

Variable q : string.
Variable corpus : list Db.StoredChunk.






End FullTextFacts.



(** The rows of the main query. *)
Lemma matchRows_In (t : Db.Tables) (o : Opt.SearchOptions)
      (fr : list Query.FtsRow) (row : Query.Row) :
  In row (Query.matchRows t o fr) <->
  exists s c,
    In s (Db.sessions t) /\ In c (Db.chunks t)
    /\ Db.id s = Db.session_id c
    /\ Query.inRowids fr (Db.chunk_id c) = true
    /\ Query.session_ok o s = true /\ Query.kind_ok o c = true
    /\ Query.tool_ok o c = true /\ Query.path_ok o c = true
    /\ Query.status_ok o t (Db.id s) = true
    /\ row = Query.mkRow (Query.select s) (Db.chunk_id c).
Proof.
  unfold Query.matchRows. rewrite (distinct_In _ _ row_eqb_eq).
  rewrite in_flat_map. split.
  - intros (c & Hc & H). apply in_flat_map in H as (s & Hs & H).
    exists s, c.
    match type of H with
    | In _ (if ?b then _ else _) => destruct b eqn:E; [|destruct H]
    end.
    destruct H as [<-|[]].
    rewrite !andb_true_iff, String.eqb_eq in E.
    intuition.
  - intros (s & c & Hs & Hc & H1 & H2 & H3 & H4 & H5 & H6 & H7 & ->).
    exists c. split; [exact Hc|]. apply in_flat_map. exists s.
    split; [exact Hs|].
    rewrite H2, H3, H4, H5, H6, H7, (proj2 (String.eqb_eq _ _) H1).
    now left.
Qed.

Lemma matchRows_nil (t : Db.Tables) (o : Opt.SearchOptions) :
  Query.matchRows t o [] = [].
Proof.
  destruct (Query.matchRows t o []) as [|row r] eqn:E; [reflexivity|].
  assert (H : In row (Query.matchRows t o [])) by (rewrite E; now left).
  apply matchRows_In in H as (s & c & _ & _ & _ & H & _). discriminate.
Qed.

(** In full-text mode [search] is the sorted grouping cut at [limit]; the
    early return on an empty match agrees with it. *)
Lemma search_fulltext_eq
      (bm25 : string -> list Db.StoredChunk -> Db.StoredChunk
              -> option (Z * string))
      (d : Db.Database) (q : string) (o : Opt.SearchOptions) :
  Js.isBlank q = false -> q <> "*" ->
  Query.search bm25 d q o
  = Ok (Js.slice0 (Query.limit_of o) (Query.ranked bm25 (Db.view d) o q)).
Proof.
  intros Hb Hq. unfold Query.search. rewrite Hb.
  destruct (String.eqb_spec q "*") as [->|_]; [congruence|].
  destruct (Query.ftsResults bm25 (Db.view d) (Query.escapeFtsQuery q))
    eqn:E; [|reflexivity].
  unfold Query.ranked. rewrite E, matchRows_nil. simpl.
  unfold Js.slice0. now rewrite firstn_nil.
Qed.

(** ** The primary key of [chunks] is an invariant of the write path *)

Lemma numbered_ids (cs : list Db.StoredChunk) :
  forall k c, In c (Db.numbered k cs) ->
              k < Db.chunk_id c <= k + Z.of_nat (List.length cs).
Proof.
  induction cs as [|x r IH]; intros k c; simpl; [intros []|].
  intros [<-|H]; simpl; [lia|]. apply IH in H. lia.
Qed.

Lemma numbered_NoDup (cs : list Db.StoredChunk) :
  forall k, NoDup (map Db.chunk_id (Db.numbered k cs)).
Proof.
  induction cs as [|x r IH]; intros k; simpl; constructor; [|apply IH].
  intros H. apply in_map_iff in H as (c & Hid & Hc).
  apply numbered_ids in Hc. lia.
Qed.

Lemma insertSession_chunk_keys (fault : Db.Fault) (d : Db.Database)
      (s : Db.StoredSession) (cs : list Db.StoredChunk) :
  Spec.chunk_keys (Db.committed d) ->
  Spec.chunk_keys (Db.committed (fst (Db.insertSession fault d s cs))).
Proof.
  intros [Hnd Hle].
  pose proof (insertSession_cases fault d s cs) as H.
  destruct (Db.insertSession fault d s cs) as [d' [e|]]; simpl.
  - subst d'. now split.
  - destruct H as [_ ->]. unfold Spec.chunk_keys; simpl. split.
    + rewrite map_app. apply NoDup_app; [exact Hnd|apply numbered_NoDup|].
      intros k H1 H2.
      apply in_map_iff in H1 as (c1 & <- & Hc1).
      apply in_map_iff in H2 as (c2 & E & Hc2).
      apply Hle in Hc1. apply numbered_ids in Hc2. lia.
    + intros c Hc. apply in_app_or in Hc as [Hc|Hc].
      * apply Hle in Hc. lia.
      * apply numbered_ids in Hc. lia.
Qed.

(** Deleting rows keeps the remaining chunk ids distinct. *)
Lemma chunk_ids_after_delete (keep : Db.StoredChunk -> bool)
      (cs : list Db.StoredChunk) :
  NoDup (map Db.chunk_id cs) -> NoDup (map Db.chunk_id (filter keep cs)).
Proof.
  induction cs as [|c rest IH]; simpl; [constructor|].
  intros Huniq. inversion Huniq as [|? ? Hfresh Hrest]; subst.
  destruct (keep c); simpl; [constructor|]; auto.
  intros Hin. apply Hfresh. apply in_map_iff in Hin as (c' & Hid & Hin).
  apply filter_In in Hin as [Hin _]. rewrite <- Hid. now apply in_map.
Qed.

Lemma deleteSession_chunk_keys (d : Db.Database) (sid : string) :
  Spec.chunk_keys (Db.view d) ->
  Spec.chunk_keys (Db.view (Db.deleteSession d sid)).
Proof.
  intros [Hnd Hle].
  assert (Hv : Db.view (Db.deleteSession d sid)
               = Db.mkTables
                   (filter (fun s => negb (String.eqb (Db.id s) sid))
                           (Db.sessions (Db.view d)))
                   (filter (fun c => negb (String.eqb (Db.session_id c) sid))
                           (Db.chunks (Db.view d)))
                   (Db.chunk_seq (Db.view d))).
  { unfold Db.deleteSession, Db.write, Db.view.
    destruct (Db.working d); reflexivity. }
  rewrite Hv. split; simpl.
  - now apply chunk_ids_after_delete.
  - intros c Hc. apply filter_In in Hc as [Hc _]. now apply Hle.
Qed.

(** ** Full-text mode *)


Lemma candidates_In (fr : list Query.FtsRow) (rows : list Query.Row)
      (x : Query.SearchResult) :
  In x (Spec.candidates fr rows) <->
  exists row sd, In row rows
                 /\ Query.scoreMap_get fr (Query.chunkId row) = Some sd
                 /\ x = Query.toResult row sd.
Proof.
  unfold Spec.candidates. rewrite in_flat_map. split.
  - intros (row & Hrow & H).
    destruct (Query.scoreMap_get fr (Query.chunkId row)) as [sd|] eqn:E;
      [|destruct H].
    destruct H as [<-|[]]. exists row, sd. auto.
  - intros (row & sd & Hrow & E & ->). exists row. split; [exact Hrow|].
    rewrite E. now left.
Qed.

Section Ranking.

Variable bm25 :
  string -> list Db.StoredChunk -> Db.StoredChunk -> option (Z * string).



End Ranking.


(** ** Query validation *)

(** C8: a query that is empty or holds whitespace only makes [search]
    throw the input error, whatever the store and the options; a non-blank
    query of full-text mode whose match returns no row gives the empty
    list and no error. *)
Theorem search_rejects_blank_query
        (bm25 : string -> list Db.StoredChunk -> Db.StoredChunk
                -> option (Z * string))
        (d : Db.Database) (q : string) (o : Opt.SearchOptions) :
  (Js.isBlank q = true ->
   Query.search bm25 d q o = Err "Search query cannot be empty")
  /\ (Js.isBlank q = false ->
      q <> "*" ->
      Query.ftsResults bm25 (Db.view d) (Query.escapeFtsQuery q) = [] ->
      Query.search bm25 d q o = Ok []).
Proof.
  split.
  - intros Hb. unfold Query.search. now rewrite Hb.
  - intros Hb Hq Hfts. unfold Query.search. rewrite Hb.
    destruct (String.eqb_spec q "*") as [->|_]; [congruence|].
    now rewrite Hfts.
Qed.

Lemma search_rejects_blank_query_witness :
  Query.search Sample.bm25 Sample.store "" Opt.none
  = Err "Search query cannot be empty"
  /\ Query.search Sample.bm25 Sample.store "   " Opt.none
     = Err "Search query cannot be empty"
  /\ Query.search Sample.bm25 Sample.store "zebra" Opt.none = Ok [].
Proof.
  split; [|split].
  - exact (proj1 (search_rejects_blank_query Sample.bm25 Sample.store ""
                    Opt.none) eq_refl).
  - exact (proj1 (search_rejects_blank_query Sample.bm25 Sample.store "   "
                    Opt.none) eq_refl).
  - refine (proj2 (search_rejects_blank_query Sample.bm25 Sample.store "zebra"
                     Opt.none) eq_refl _ eq_refl).
    discriminate.
Defined.

(** Runs of ASCII blanks are blank. *)
Lemma isBlank_spaces (n : nat) :
  Js.isBlank (String.concat "" (repeat " " n)) = true.
Proof.
  induction n as [|n IH]; [reflexivity|].
  destruct n as [|n]; [reflexivity|].
  exact IH.
Qed.

(** ** Listing mode *)


(** Which rows the listing query selects. *)
Lemma listRows_spec (t : Db.Tables) (o : Opt.SearchOptions)
      (row : Query.Cols) :
  In row (Query.listRows t o) <->
  exists s, In s (Db.sessions t) /\ row = Query.select s
            /\ Query.session_ok o s = true
            /\ (Query.tool_scoped o = true ->
                exists c, In c (Db.chunks t)
                          /\ Db.session_id c = Db.id s
                          /\ Query.kind_ok o c = true
                          /\ Query.tool_ok o c = true
                          /\ Query.status_ok o t (Db.id s) = true).
Proof.
  unfold Query.listRows. destruct (Query.tool_scoped o).
  - rewrite (distinct_In _ _ cols_eqb_eq). rewrite in_flat_map. split.
    + intros (c & Hc & H). apply in_flat_map in H as (s & Hs & H).
      match type of H with
      | In _ (if ?b then _ else _) => destruct b eqn:E; [|destruct H]
      end.
      destruct H as [<-|[]]. rewrite !andb_true_iff in E.
      destruct E as ((((E1 & E2) & E3) & E4) & E5).
      apply String.eqb_eq in E1.
      exists s. repeat split; auto. intros _. exists c. auto.
    + intros (s & Hs & -> & Hok & Hc).
      destruct (Hc eq_refl) as (c & Hin & Hid & Hk & Ht & Hst).
      exists c. split; [exact Hin|]. apply in_flat_map.
      exists s. split; [exact Hs|].
      apply String.eqb_eq in Hid. rewrite Hid, Hok, Hk, Ht, Hst.
      now left.
  - rewrite in_map_iff. split.
    + intros (s & <- & H). apply filter_In in H as [Hs Hok].
      exists s. repeat split; auto. discriminate.
    + intros (s & Hs & -> & Hok & _). exists s.
      split; [reflexivity|]. apply filter_In. now split.
Qed.

Lemma listRows_In (t : Db.Tables) (o : Opt.SearchOptions) (c : Query.Cols) :
  In c (Query.listRows t o) ->
  exists s, In s (Db.sessions t) /\ c = Query.select s
            /\ Query.session_ok o s = true.
Proof.
  intros H. apply listRows_spec in H as (s & Hs & Hc & Hok & _).
  exists s. auto.
Qed.





(** ** Exclusion *)

Lemma exclude_ok_some (o : Opt.SearchOptions) (E : list string) (sid : string) :
  Query.exclude_ok (Opt.with_exclude o (Some E)) sid = negb (Query.mem sid E).
Proof. destruct E; reflexivity. Qed.

Lemma session_ok_exclude (o : Opt.SearchOptions) (E : list string)
      (s : Db.StoredSession) :
  Query.session_ok (Opt.with_exclude o (Some E)) s
  = (Query.session_ok (Opt.with_exclude o None) s
     && negb (Query.mem (Db.id s) E))%bool.
Proof.
  unfold Query.session_ok. rewrite exclude_ok_some.
  change (Query.exclude_ok (Opt.with_exclude o None) (Db.id s)) with true.
  now rewrite andb_true_r.
Qed.

Lemma if_filter (A : Type) (p : A -> bool) (b : bool) (x : A) :
  filter p (if b then [x] else []) = if (b && p x)%bool then [x] else [].
Proof. destruct b; simpl; [destruct (p x)|]; reflexivity. Qed.

Lemma matchRows_exclude (t : Db.Tables) (o : Opt.SearchOptions)
      (E : list string) (fr : list Query.FtsRow) :
  Query.matchRows t (Opt.with_exclude o (Some E)) fr
  = filter (fun row => negb (Query.mem (Query.c_sessionId (Query.cols row)) E))
           (Query.matchRows t (Opt.with_exclude o None) fr).
Proof.
  unfold Query.matchRows.
  rewrite <- (distinct_filter _ _ row_eqb_eq). f_equal.
  rewrite <- flat_map_where. apply flat_map_ext. intros c.
  rewrite <- flat_map_where. apply flat_map_ext. intros s.
  rewrite if_filter, session_ok_exclude. simpl.
  match goal with
  | |- (if ?a then _ else _) = (if ?b then _ else _) =>
      replace a with b; [reflexivity|]
  end.
  change (Query.kind_ok (Opt.with_exclude o (Some E)) c)
    with (Query.kind_ok (Opt.with_exclude o None) c).
  change (Query.tool_ok (Opt.with_exclude o (Some E)) c)
    with (Query.tool_ok (Opt.with_exclude o None) c).
  change (Query.path_ok (Opt.with_exclude o (Some E)) c)
    with (Query.path_ok (Opt.with_exclude o None) c).
  change (Query.status_ok (Opt.with_exclude o (Some E)) t (Db.id s))
    with (Query.status_ok (Opt.with_exclude o None) t (Db.id s)).
  destruct (String.eqb (Db.id s) (Db.session_id c)),
    (Query.inRowids fr (Db.chunk_id c)),
    (Query.session_ok (Opt.with_exclude o None) s),
    (negb (Query.mem (Db.id s) E)),
    (Query.kind_ok (Opt.with_exclude o None) c),
    (Query.tool_ok (Opt.with_exclude o None) c),
    (Query.path_ok (Opt.with_exclude o None) c),
    (Query.status_ok (Opt.with_exclude o None) t (Db.id s)); reflexivity.
Qed.

Lemma ranked_exclude
      (bm25 : string -> list Db.StoredChunk -> Db.StoredChunk
              -> option (Z * string))
      (t : Db.Tables) (o : Opt.SearchOptions) (E : list string) (q : string) :
  Query.ranked bm25 t (Opt.with_exclude o (Some E)) q
  = filter (Spec.kept E) (Query.ranked bm25 t (Opt.with_exclude o None) q).
Proof.
  unfold Query.ranked.
  rewrite matchRows_exclude.
  rewrite (grouped_filter _ (fun sid => negb (Query.mem sid E))).
  symmetry. apply (filter_sort _ _ score_le_total score_le_trans).
Qed.

Lemma filter_map_comm (A B : Type) (f : A -> B) (p : B -> bool) (l : list A) :
  filter p (map f l) = map f (filter (fun x => p (f x)) l).
Proof.
  induction l as [|x r IH]; simpl; [reflexivity|].
  destruct (p (f x)); simpl; now rewrite IH.
Qed.

Lemma filter_andb (A : Type) (p q : A -> bool) (l : list A) :
  filter (fun x => (p x && q x)%bool) l = filter q (filter p l).
Proof.
  induction l as [|x r IH]; simpl; [reflexivity|].
  destruct (p x); simpl; [destruct (q x)|]; now rewrite IH.
Qed.

Lemma listRows_exclude (t : Db.Tables) (o : Opt.SearchOptions)
      (E : list string) :
  Query.listRows t (Opt.with_exclude o (Some E))
  = filter (Spec.kept_cols E) (Query.listRows t (Opt.with_exclude o None)).
Proof.
  unfold Query.listRows.
  change (Query.tool_scoped (Opt.with_exclude o (Some E)))
    with (Query.tool_scoped (Opt.with_exclude o None)).
  destruct (Query.tool_scoped (Opt.with_exclude o None)).
  - rewrite <- (distinct_filter _ _ cols_eqb_eq). f_equal.
    rewrite <- flat_map_where. apply flat_map_ext. intros c.
    rewrite <- flat_map_where. apply flat_map_ext. intros s.
    rewrite if_filter, session_ok_exclude.
    unfold Spec.kept_cols; simpl.
    match goal with
    | |- (if ?a then _ else _) = (if ?b then _ else _) =>
        replace a with b; [reflexivity|]
    end.
    change (Query.kind_ok (Opt.with_exclude o (Some E)) c)
      with (Query.kind_ok (Opt.with_exclude o None) c).
    change (Query.tool_ok (Opt.with_exclude o (Some E)) c)
      with (Query.tool_ok (Opt.with_exclude o None) c).
    change (Query.status_ok (Opt.with_exclude o (Some E)) t (Db.id s))
      with (Query.status_ok (Opt.with_exclude o None) t (Db.id s)).
    destruct (String.eqb (Db.session_id c) (Db.id s)),
      (Query.session_ok (Opt.with_exclude o None) s),
      (negb (Query.mem (Db.id s) E)),
      (Query.kind_ok (Opt.with_exclude o None) c),
      (Query.tool_ok (Opt.with_exclude o None) c),
      (Query.status_ok (Opt.with_exclude o None) t (Db.id s)); reflexivity.
  - rewrite filter_map_comm. f_equal.
    rewrite <- filter_andb. apply filter_ext. intros s.
    apply session_ok_exclude.
Qed.

Lemma listed_exclude (t : Db.Tables) (o : Opt.SearchOptions)
      (E : list string) :
  map Query.listResult (Query.listed t (Opt.with_exclude o (Some E)))
  = filter (Spec.kept E)
      (map Query.listResult (Query.listed t (Opt.with_exclude o None))).
Proof.
  unfold Query.listed. rewrite listRows_exclude.
  rewrite <- (filter_sort _ _ newer_eq_total newer_eq_trans).
  now rewrite filter_map_comm.
Qed.

(** C6: for a non-negative limit [n], in either mode, searching with the
    exclusion set [E] returns the first [n] entries of what is left of the
    complete, un-truncated result list of the same search without
    exclusion once the sessions of [E] are removed from it.  So no
    excluded id is returned, and the page is as long as [n] and the number
    of remaining sessions allow. *)
Theorem exclude_applies_before_limit
        (bm25 : string -> list Db.StoredChunk -> Db.StoredChunk
                -> option (Z * string))
        (d : Db.Database) (q : string) (o : Opt.SearchOptions)
        (E : list string) :
  Js.isBlank q = false ->
  0 <= Query.limit_of o ->
  (q = "*" -> Query.hasFilters o = true) ->
  let n := Z.to_nat (Query.limit_of o) in
  let complete :=
    if String.eqb q "*"
    then map Query.listResult
             (Query.listed (Db.view d) (Opt.with_exclude o None))
    else Query.ranked bm25 (Db.view d) (Opt.with_exclude o None) q in
  Query.search bm25 d q (Opt.with_exclude o None) = Ok (firstn n complete)
  /\ exists res,
      Query.search bm25 d q (Opt.with_exclude o (Some E)) = Ok res
      /\ res = firstn n (filter (Spec.kept E) complete)
      /\ (forall r, In r res -> ~ In (Query.sessionId r) E)
      /\ List.length res
         = Nat.min n (List.length (filter (Spec.kept E) complete)).
Proof.
  intros Hb Hl Hf n complete.
  assert (Hlisting : forall o', Query.hasFilters o' = true ->
            0 <= Query.limit_of o' ->
            Query.search bm25 d "*" o'
            = Ok (firstn (Z.to_nat (Query.limit_of o'))
                    (map Query.listResult (Query.listed (Db.view d) o')))).
  { intros o' Hf' Hl'. unfold Query.search; simpl. rewrite Hf'.
    unfold Query.listAllSessions.
    now rewrite sql_limit_firstn, firstn_map. }
  assert (Hres : Query.search bm25 d q (Opt.with_exclude o (Some E))
                 = Ok (firstn n (filter (Spec.kept E) complete))
                 /\ Query.search bm25 d q (Opt.with_exclude o None)
                    = Ok (firstn n complete)).
  { subst complete. destruct (String.eqb_spec q "*") as [->|Hq].
    - rewrite !Hlisting; try (apply Hf; reflexivity); try exact Hl.
      now rewrite listed_exclude.
    - rewrite !search_fulltext_eq by assumption.
      rewrite !slice0_firstn by exact Hl.
      now rewrite ranked_exclude. }
  destruct Hres as [HE H0]. split; [exact H0|].
  exists (firstn n (filter (Spec.kept E) complete)).
  split; [exact HE|]. split; [reflexivity|]. split.
  - intros r Hr Hin. apply firstn_In, filter_In in Hr as [_ Hk].
    unfold Spec.kept in Hk. apply negb_true_iff in Hk.
    apply mem_In in Hin. congruence.
  - apply length_firstn.
Qed.

Lemma exclude_applies_before_limit_witness :
  Query.search Sample.bm25 Sample.store "*" (Sample.page 1 [])
  = Ok [Query.listResult (Query.select Sample.alpha)]
  /\ Query.search Sample.bm25 Sample.store "*" (Sample.page 1 ["alpha"])
     = Ok [Query.listResult (Query.select Sample.beta)]
  /\ (exists res,
        Query.search Sample.bm25 Sample.store "database"
                     (Sample.page 1 ["alpha"]) = Ok res
        /\ map Query.sessionId res = ["beta"]).
Proof.
  split; [reflexivity|].
  destruct (exclude_applies_before_limit Sample.bm25 Sample.store "*"
              (Sample.page 1 []) ["alpha"] eq_refl ltac:(discriminate)
              (fun _ => eq_refl))
    as (_ & res & Hs & Hres & _).
  split; [rewrite Hres in Hs; exact Hs|].
  destruct (exclude_applies_before_limit Sample.bm25 Sample.store "database"
              (Sample.page 1 []) ["alpha"] eq_refl ltac:(discriminate)
              ltac:(discriminate))
    as (_ & res' & Hs' & Hres' & _).
  exists res'. split; [exact Hs'|]. rewrite Hres'. reflexivity.
Defined.

(** ** The cwd filter *)

(** C10 (code evaluated on the sample store): with [cwd] set to
    "/home/u/my_app", both modes also return session "beta", whose stored
    cwd "/home/u/my-app" does not start with that string: the filter is
    the LIKE pattern "/home/u/my_app%", in which [_] matches any
    character; and LIKE ignores ASCII case, so "/HOME/U/MY-APP" selects
    "beta" too. *)
Theorem cwd_filter_matches_like_pattern :
  Db.cwd Sample.beta = Some "/home/u/my-app"
  /\ String.prefix "/home/u/my_app" "/home/u/my-app" = false
  /\ (exists res,
        Query.search Sample.bm25 Sample.store "*"
                     (Sample.inProject "/home/u/my_app") = Ok res
        /\ map Query.sessionId res = ["alpha"; "beta"])
  /\ (exists res,
        Query.search Sample.bm25 Sample.store "database"
                     (Sample.inProject "/home/u/my_app") = Ok res
        /\ map Query.sessionId res = ["alpha"; "beta"])
  /\ String.prefix "/HOME/U/MY-APP" "/home/u/my-app" = false
  /\ (exists res,
        Query.search Sample.bm25 Sample.store "*"
                     (Sample.inProject "/HOME/U/MY-APP") = Ok res
        /\ map Query.sessionId res = ["beta"]).
Proof.
  split; [reflexivity|]. split; [reflexivity|].
  split; [eexists; split; [vm_compute; reflexivity|reflexivity]|].
  split; [eexists; split; [vm_compute; reflexivity|reflexivity]|].
  split; [reflexivity|].
  eexists; split; [vm_compute; reflexivity|reflexivity].
Qed.

(** * Further properties *)

(** ** The store: delete, insert and lookup *)

Lemma view_deleteSession (d : Db.Database) (sid : string) :
  Db.view (Db.deleteSession d sid)
  = Db.mkTables
      (filter (fun s => negb (String.eqb (Db.id s) sid))
              (Db.sessions (Db.view d)))
      (filter (fun c => negb (String.eqb (Db.session_id c) sid))
              (Db.chunks (Db.view d)))
      (Db.chunk_seq (Db.view d)).
Proof.
  unfold Db.deleteSession, Db.write, Db.view.
  destruct (Db.working d); reflexivity.
Qed.

Lemma find_session_filter (sid other : string) (l : list Db.StoredSession) :
  other <> sid ->
  find (fun s => String.eqb (Db.id s) other)
       (filter (fun s => negb (String.eqb (Db.id s) sid)) l)
  = find (fun s => String.eqb (Db.id s) other) l.
Proof.
  intros Hne. induction l as [|s r IH]; simpl; [reflexivity|].
  destruct (String.eqb_spec (Db.id s) sid) as [E|E]; simpl.
  - destruct (String.eqb_spec (Db.id s) other); [congruence|exact IH].
  - now rewrite IH.
Qed.

Lemma has_session_find (t : Db.Tables) (sid : string) :
  Db.has_session t sid = false ->
  find (fun s => String.eqb (Db.id s) sid) (Db.sessions t) = None.
Proof.
  unfold Db.has_session.
  induction (Db.sessions t) as [|s r IH]; simpl; [reflexivity|].
  destruct (String.eqb (Db.id s) sid); simpl; [discriminate|exact IH].
Qed.

Lemma has_session_In (t : Db.Tables) (sid : string) :
  Db.has_session t sid = true <->
  exists s, In s (Db.sessions t) /\ Db.id s = sid.
Proof.
  unfold Db.has_session. rewrite existsb_exists.
  split; intros (s & Hs & E); exists s; split; auto;
    now apply String.eqb_eq.
Qed.

Lemma run_chunks_owners (fault : Db.Fault) (cs : list Db.StoredChunk) :
  forall (k : nat) (c0 w : Db.Tables),
    snd (Db.run_all fault k (map Db.InsertChunkStmt cs ++ [Db.Commit])
                    (Db.mkDatabase c0 (Some w))) = None ->
    forall c, In c cs -> Db.has_session w (Db.session_id c) = true.
Proof.
  induction cs as [|c r IH]; intros k c0 w H c' Hc'; [destruct Hc'|].
  simpl in H.
  destruct (Db.strikes fault k); simpl in H; [discriminate|].
  unfold Db.insert_chunk_row, Db.view in H; simpl in H.
  destruct (Db.has_session w (Db.session_id c)) eqn:E; simpl in H;
    [|discriminate].
  unfold Db.write in H; simpl in H.
  destruct Hc' as [<-|Hc']; [exact E|].
  exact (IH _ _ _ H c' Hc').
Qed.

(** A write that returns normally was given an id the store did not hold
    and chunks owned by stored sessions or by the new one. *)
Lemma insertSession_new_id (fault : Db.Fault) (d : Db.Database)
      (s : Db.StoredSession) (cs : list Db.StoredChunk) :
  snd (Db.insertSession fault d s cs) = None ->
  Db.has_session (Db.committed d) (Db.id s) = false
  /\ forall c, In c cs ->
       (Db.has_session (Db.committed d) (Db.session_id c)
        || String.eqb (Db.id s) (Db.session_id c))%bool = true.
Proof.
  unfold Db.insertSession.
  destruct d as [c0 [w|]]; simpl; [discriminate|].
  destruct (Db.strikes fault 0); simpl; [discriminate|].
  unfold Db.insert_session_row, Db.view; simpl.
  destruct (Db.has_session c0 (Db.id s)) eqn:E; simpl; [discriminate|].
  unfold Db.write; simpl. intros H. split; [reflexivity|].
  intros c Hc. rewrite <- has_session_app.
  apply (run_chunks_owners fault cs 1 c0 _) with (c := c); [|exact Hc].
  destruct (Db.run_all fault 1 (map Db.InsertChunkStmt cs ++ [Db.Commit]) _)
    as [d2 [e|]]; simpl in *; [discriminate|reflexivity].
Qed.

Lemma numbered_owner (cs : list Db.StoredChunk) :
  forall k c', In c' (Db.numbered k cs) ->
               exists c, In c cs /\ Db.session_id c' = Db.session_id c
                         /\ Db.is_error c' = Db.is_error c.
Proof.
  induction cs as [|x r IH]; intros k c'; simpl; [intros []|].
  intros [<-|H].
  - exists x. split; [now left|split; reflexivity].
  - destruct (IH _ _ H) as (c & Hc & E). exists c. split; [now right|exact E].
Qed.

Lemma session_ids_after_delete (keep : Db.StoredSession -> bool)
      (ss : list Db.StoredSession) :
  NoDup (map Db.id ss) -> NoDup (map Db.id (filter keep ss)).
Proof.
  induction ss as [|s rest IH]; simpl; [constructor|].
  intros Huniq. inversion Huniq as [|? ? Hfresh Hrest]; subst.
  destruct (keep s); simpl; [constructor|]; auto.
  intros Hin. apply Hfresh. apply in_map_iff in Hin as (s' & Hid & Hin).
  apply filter_In in Hin as [Hin _]. rewrite <- Hid. now apply in_map.
Qed.

Lemma integrity_insert (fault : Db.Fault) (d : Db.Database)
      (s : Db.StoredSession) (cs : list Db.StoredChunk) :
  More.integrity (Db.committed d) ->
  More.integrity (Db.committed (fst (Db.insertSession fault d s cs))).
Proof.
  intros (Hs & Hc & Hle & Hfk).
  pose proof (insertSession_chunk_keys fault d s cs (conj Hc Hle))
    as [Hc' Hle'].
  pose proof (insertSession_cases fault d s cs) as H.
  pose proof (insertSession_new_id fault d s cs) as Hnew.
  destruct (Db.insertSession fault d s cs) as [d' [e|]]; simpl in *.
  - subst d'. repeat split; assumption.
  - destruct H as [_ ->]. destruct (Hnew eq_refl) as [Hid Hown].
    unfold More.integrity; simpl in *. repeat split; try assumption.
    + rewrite map_app. apply NoDup_app; [exact Hs|repeat constructor; intros []|].
      intros x Hx [<-|[]].
      apply in_map_iff in Hx as (s0 & E & Hs0).
      assert (Db.has_session (Db.committed d) (Db.id s) = true)
        by (apply has_session_In; eauto).
      congruence.
    + intros c Hin.
      change (Db.has_session
                (Db.mkTables (Db.sessions (Db.committed d) ++ [s])
                   (Db.chunks (Db.committed d)) (Db.chunk_seq (Db.committed d)))
                (Db.session_id c) = true).
      rewrite has_session_app.
      apply in_app_or in Hin as [Hin|Hin].
      * rewrite (Hfk c Hin). reflexivity.
      * apply numbered_owner in Hin as (c0 & Hc0 & -> & _). now apply Hown.
Qed.

Lemma integrity_delete (d : Db.Database) (sid : string) :
  More.integrity (Db.view d) ->
  More.integrity (Db.view (Db.deleteSession d sid)).
Proof.
  intros (Hs & Hc & Hle & Hfk). rewrite view_deleteSession.
  unfold More.integrity; simpl. repeat split.
  - now apply session_ids_after_delete.
  - now apply chunk_ids_after_delete.
  - intros c Hin. apply filter_In in Hin as [Hin _]. now apply Hle.
  - intros c Hin. apply filter_In in Hin as [Hin Hne].
    apply negb_true_iff, String.eqb_neq in Hne.
    apply has_session_In. apply Hfk, has_session_In in Hin
      as (s & Hsin & E).
    exists s. split; [|exact E]. apply filter_In. split; [exact Hsin|].
    apply negb_true_iff, String.eqb_neq. congruence.
Qed.

(** X1: [deleteSession] removes the session row and, by the cascade, all
    and only the chunks of that session; every other session's row and
    stored mtime are untouched; it opens no transaction and keeps the
    store's keys intact. *)
Theorem deleteSession_cascade (d : Db.Database) (sid : string) :
  let d' := Db.deleteSession d sid in
  Db.getSessionMtime d' sid = None
  /\ (forall c, In c (Db.chunks (Db.view d')) <->
                In c (Db.chunks (Db.view d)) /\ Db.session_id c <> sid)
  /\ (forall s, In s (Db.sessions (Db.view d')) <->
                In s (Db.sessions (Db.view d)) /\ Db.id s <> sid)
  /\ (forall other, other <> sid ->
        Db.getSessionMtime d' other = Db.getSessionMtime d other)
  /\ (Db.working d = None -> Db.working d' = None)
  /\ (More.integrity (Db.view d) -> More.integrity (Db.view d')).
Proof.
  intros d'. subst d'.
  assert (Hc : forall c, In c (Db.chunks (Db.view (Db.deleteSession d sid))) <->
                In c (Db.chunks (Db.view d)) /\ Db.session_id c <> sid).
  { intros c. rewrite view_deleteSession; simpl. rewrite filter_In.
    rewrite negb_true_iff, String.eqb_neq. reflexivity. }
  assert (Hs : forall s, In s (Db.sessions (Db.view (Db.deleteSession d sid))) <->
                In s (Db.sessions (Db.view d)) /\ Db.id s <> sid).
  { intros s. rewrite view_deleteSession; simpl. rewrite filter_In.
    rewrite negb_true_iff, String.eqb_neq. reflexivity. }
  split; [|split; [exact Hc|split; [exact Hs|split; [|split]]]].
  - clear Hc Hs. unfold Db.getSessionMtime. rewrite view_deleteSession; simpl.
    induction (Db.sessions (Db.view d)) as [|s r IH]; simpl; [reflexivity|].
    destruct (String.eqb (Db.id s) sid) eqn:E; simpl; [exact IH|].
    now rewrite E.
  - intros other Hne. unfold Db.getSessionMtime.
    rewrite view_deleteSession; simpl.
    now rewrite find_session_filter.
  - intros Hw. now apply deleteSession_autocommit.
  - apply integrity_delete.
Qed.

Lemma find_session_app (sid : string) (l r : list Db.StoredSession) :
  find (fun s => String.eqb (Db.id s) sid) (l ++ r)
  = match find (fun s => String.eqb (Db.id s) sid) l with
    | Some s => Some s
    | None => find (fun s => String.eqb (Db.id s) sid) r
    end.
Proof.
  induction l as [|x l IH]; simpl; [reflexivity|].
  destruct (String.eqb (Db.id x) sid); [reflexivity|exact IH].
Qed.

Lemma insert_lookup (fault : Db.Fault) (d : Db.Database)
      (s : Db.StoredSession) (cs : list Db.StoredChunk) :
  snd (Db.insertSession fault d s cs) = None ->
  Db.getSessionMtime d (Db.id s) = None
  /\ Db.working (fst (Db.insertSession fault d s cs)) = None
  /\ Db.getSessionMtime (fst (Db.insertSession fault d s cs)) (Db.id s)
     = Some (Db.file_mtime s)
  /\ forall other, other <> Db.id s ->
       Db.getSessionMtime (fst (Db.insertSession fault d s cs)) other
       = Db.getSessionMtime d other.
Proof.
  intros Hok.
  destruct (insertSession_new_id fault d s cs Hok) as [Hnew _].
  pose proof (insertSession_cases fault d s cs) as H.
  destruct (Db.insertSession fault d s cs) as [d' [e|]]; simpl in *;
    [discriminate|].
  destruct H as [Hw ->].
  assert (Hv : Db.view d = Db.committed d)
    by (unfold Db.view; now rewrite Hw).
  unfold Db.getSessionMtime. rewrite Hv. simpl.
  pose proof (has_session_find _ _ Hnew) as Hf.
  repeat split.
  - now rewrite Hf.
  - rewrite find_session_app, Hf; simpl. now rewrite String.eqb_refl.
  - intros other Hne. rewrite find_session_app.
    destruct (find (fun x => String.eqb (Db.id x) other)
                (Db.sessions (Db.committed d))); [reflexivity|].
    simpl. destruct (String.eqb_spec (Db.id s) other); [congruence|reflexivity].
Qed.

(** X2: a write that returns normally was for an id not yet stored, and
    afterwards that id reads back the mtime written while every other id
    reads as before; a write that throws changes no lookup at all.  This
    is the lookup the incremental check of the indexer relies on. *)
Theorem insertSession_then_getSessionMtime
        (fault : Db.Fault) (d : Db.Database)
        (s : Db.StoredSession) (cs : list Db.StoredChunk) :
  let d' := fst (Db.insertSession fault d s cs) in
  match snd (Db.insertSession fault d s cs) with
  | None =>
      Db.getSessionMtime d (Db.id s) = None
      /\ Db.getSessionMtime d' (Db.id s) = Some (Db.file_mtime s)
      /\ forall other, other <> Db.id s ->
           Db.getSessionMtime d' other = Db.getSessionMtime d other
  | Some _ =>
      forall sid, Db.getSessionMtime d' sid = Db.getSessionMtime d sid
  end.
Proof.
  intros d'. subst d'.
  pose proof (insert_lookup fault d s cs) as Hok.
  pose proof (insertSession_cases fault d s cs) as H.
  destruct (Db.insertSession fault d s cs) as [d' [e|]]; simpl in *.
  - subst d'. reflexivity.
  - destruct (Hok eq_refl) as (H1 & _ & H2 & H3). auto.
Qed.

(** ** The indexing loop *)

Lemma reindex_db_inv (rt : Db.Runtime)
      (fmt : Session.ToolCall -> Result string)
      (P : Db.Database -> Prop) :
  (forall d sid, P d -> P (Db.deleteSession d sid)) ->
  (forall fault d s sid ts cs,
     P d -> Indexer.buildChunks fmt sid ts 0 = Ok cs ->
     P (fst (Db.insertSession fault d s cs))) ->
  forall st f m,
    P (Indexer.db st) -> P (Indexer.db (Indexer.reindex rt fmt st f m)).
Proof.
  intros Hdel Hins st f m HP. unfold Indexer.reindex.
  destruct (Indexer.parse f) as [ps|e]; simpl; [|exact HP].
  assert (Hb : P (match Db.getSessionMtime (Indexer.db st) (Session.id ps)
                  with
                  | Some _ => Db.deleteSession (Indexer.db st) (Session.id ps)
                  | None => Indexer.db st
                  end))
    by (destruct (Db.getSessionMtime (Indexer.db st) (Session.id ps)); auto).
  destruct (Indexer.buildChunks fmt (Session.id ps) (Session.turns ps) 0)
    as [cs|e] eqn:Ecs; simpl; [|exact Hb].
  match goal with
  | |- context [Db.insertSession ?a ?b ?c ?k] =>
      pose proof (Hins a b c _ _ k Hb Ecs) as H;
      destruct (Db.insertSession a b c k) as [db2 [err|]]; exact H
  end.
Qed.

Lemma indexFile_db_inv (rt : Db.Runtime)
      (fmt : Session.ToolCall -> Result string)
      (P : Db.Database -> Prop) :
  (forall d sid, P d -> P (Db.deleteSession d sid)) ->
  (forall fault d s sid ts cs,
     P d -> Indexer.buildChunks fmt sid ts 0 = Ok cs ->
     P (fst (Db.insertSession fault d s cs))) ->
  forall st f,
    P (Indexer.db st) -> P (Indexer.db (Indexer.indexFile rt fmt st f)).
Proof.
  intros Hdel Hins st f HP. unfold Indexer.indexFile.
  pose proof (reindex_db_inv rt fmt P Hdel Hins st f) as Hre.
  destruct (Indexer.canParse f); simpl; [|exact HP].
  destruct (Indexer.mtimeMs f) as [m|]; simpl; [|exact HP].
  destruct (Indexer.header f) as [| |[sid|]]; simpl; auto.
  destruct (Db.getSessionMtime (Indexer.db st) sid) as [m'|]; auto.
  destruct (m' =? m); simpl; auto.
Qed.

Lemma indexFiles_db_inv (rt : Db.Runtime)
      (fmt : Session.ToolCall -> Result string)
      (P : Db.Database -> Prop) :
  (forall d sid, P d -> P (Db.deleteSession d sid)) ->
  (forall fault d s sid ts cs,
     P d -> Indexer.buildChunks fmt sid ts 0 = Ok cs ->
     P (fst (Db.insertSession fault d s cs))) ->
  forall fs st,
    P (Indexer.db st) -> P (Indexer.db (Indexer.indexFiles rt fmt fs st)).
Proof.
  intros Hdel Hins fs. unfold Indexer.indexFiles.
  induction fs as [|f r IH]; intros st HP; simpl; [exact HP|].
  apply IH. now apply indexFile_db_inv.
Qed.

Lemma settled_delete (d : Db.Database) (sid : string) :
  Db.working d = None /\ More.integrity (Db.committed d) ->
  Db.working (Db.deleteSession d sid) = None
  /\ More.integrity (Db.committed (Db.deleteSession d sid)).
Proof.
  intros [Hw Hi].
  destruct (deleteSession_autocommit d sid Hw) as [Hw' Hv].
  split; [exact Hw'|]. rewrite <- Hv. apply integrity_delete.
  unfold Db.view. now rewrite Hw.
Qed.

Lemma settled_insert (fault : Db.Fault) (d : Db.Database)
      (s : Db.StoredSession) (cs : list Db.StoredChunk) :
  Db.working d = None /\ More.integrity (Db.committed d) ->
  Db.working (fst (Db.insertSession fault d s cs)) = None
  /\ More.integrity (Db.committed (fst (Db.insertSession fault d s cs))).
Proof.
  intros [Hw Hi]. split; [|now apply integrity_insert].
  pose proof (insertSession_cases fault d s cs) as H.
  destruct (Db.insertSession fault d s cs) as [d' [e|]]; simpl.
  - now subst d'.
  - destruct H as [_ ->]. reflexivity.
Qed.

(** X3: a run of [indexSessions] on a store with unique session ids,
    unique chunk ids and no orphan chunk ends with such a store, whatever
    the files hold, whichever writes fail, whichever formatter call
    throws and on either runtime, and leaves no transaction open. *)
Theorem indexSessions_keeps_integrity
        (rt : Db.Runtime) (fmt : Session.ToolCall -> Result string)
        (d : Db.Database) (dir : option (list Indexer.Entry)) :
  Db.working d = None ->
  More.integrity (Db.committed d) ->
  Db.working (Indexer.db (Indexer.indexSessions rt fmt d dir)) = None
  /\ More.integrity
       (Db.committed (Indexer.db (Indexer.indexSessions rt fmt d dir))).
Proof.
  intros Hw Hi. unfold Indexer.indexSessions.
  destruct dir as [entries|]; simpl; [|now split].
  apply (indexFiles_db_inv rt fmt
           (fun x => Db.working x = None /\ More.integrity (Db.committed x))).
  - intros; now apply settled_delete.
  - intros; now apply settled_insert.
  - now split.
Qed.

Lemma indexSessions_keeps_integrity_witness :
  Db.working
    (Indexer.db (Indexer.indexSessions Db.Node Sample.fmt Sample.emptyDb
                   Sample.sessionsDir)) = None
  /\ More.integrity
       (Db.committed
          (Indexer.db (Indexer.indexSessions Db.Node Sample.fmt
                         Sample.emptyDb Sample.sessionsDir))).
Proof.
  apply (indexSessions_keeps_integrity Db.Node Sample.fmt Sample.emptyDb
           Sample.sessionsDir).
  - reflexivity.
  - unfold More.integrity; simpl.
    repeat split; try constructor; intros c [].
Defined.

Lemma indexFile_counts (rt : Db.Runtime)
      (fmt : Session.ToolCall -> Result string)
      (st : Indexer.State) (f : Indexer.File) :
  let r := Indexer.result st in
  let r' := Indexer.result (Indexer.indexFile rt fmt st f) in
  More.total r' = More.total r + (if Indexer.canParse f then 1 else 0)
  /\ Indexer.added r <= Indexer.added r'
  /\ Indexer.updated r <= Indexer.updated r'
  /\ Indexer.skipped r <= Indexer.skipped r'
  /\ Indexer.errors r <= Indexer.errors r'.
Proof.
  unfold Indexer.indexFile, Indexer.reindex, Indexer.caught, More.total.
  destruct (Indexer.canParse f); simpl; [|lia].
  destruct (Indexer.mtimeMs f) as [m|]; simpl; [|lia].
  destruct (Indexer.parse f) as [ps|e].
  - destruct (Indexer.buildChunks fmt (Session.id ps) (Session.turns ps) 0)
      as [cs|e];
      [destruct (Db.insertSession _ _ _ _) as [db2 [err|]]|];
      destruct (Indexer.header f) as [| |[sid|]]; simpl; try lia;
      try (destruct (Db.getSessionMtime (Indexer.db st) (Session.id ps));
           simpl; lia);
      destruct (Db.getSessionMtime (Indexer.db st) sid) as [m'|];
      try destruct (m' =? m); simpl; try lia;
      destruct (Db.getSessionMtime (Indexer.db st) (Session.id ps));
      simpl; lia.
  - destruct (Indexer.header f) as [| |[sid|]]; simpl; try lia.
    destruct (Db.getSessionMtime (Indexer.db st) sid) as [m'|];
      try destruct (m' =? m); simpl; lia.
Qed.

(** X4: every file the parser accepts moves exactly one of the four
    counters by one, and a file it rejects moves none: after a run the
    counters add up to the number of accepted files, and no counter ever
    goes down. *)
Theorem indexFiles_counts_each_file_once
        (rt : Db.Runtime) (fmt : Session.ToolCall -> Result string)
        (fs : list Indexer.File) (st : Indexer.State) :
  let r := Indexer.result st in
  let r' := Indexer.result (Indexer.indexFiles rt fmt fs st) in
  More.total r' = More.total r + Z.of_nat (List.length (More.accepted fs))
  /\ Indexer.added r <= Indexer.added r'
  /\ Indexer.updated r <= Indexer.updated r'
  /\ Indexer.skipped r <= Indexer.skipped r'
  /\ Indexer.errors r <= Indexer.errors r'.
Proof.
  unfold Indexer.indexFiles, More.accepted. revert st.
  induction fs as [|f r IH]; intros st; simpl; [lia|].
  specialize (IH (Indexer.indexFile rt fmt st f)).
  pose proof (indexFile_counts rt fmt st f) as H. cbv zeta in *.
  destruct (Indexer.canParse f); simpl List.length; lia.
Qed.

Lemma reindex_settled (rt : Db.Runtime)
      (fmt : Session.ToolCall -> Result string)
      (st : Indexer.State) (f : Indexer.File) (m : Z)
      (ps : Session.ParsedSession) (cs : list Db.StoredChunk) :
  Db.working (Indexer.db st) = None ->
  Indexer.parse f = Ok ps ->
  Indexer.buildChunks fmt (Session.id ps) (Session.turns ps) 0 = Ok cs ->
  Indexer.writeFault f = None ->
  rt = Db.Bun \/ cs = [] ->
  let st' := Indexer.reindex rt fmt st f m in
  Db.working (Indexer.db st') = None
  /\ Db.getSessionMtime (Indexer.db st') (Session.id ps) = Some m
  /\ (forall other, other <> Session.id ps ->
        Db.getSessionMtime (Indexer.db st') other
        = Db.getSessionMtime (Indexer.db st) other)
  /\ Indexer.result st'
     = match Db.getSessionMtime (Indexer.db st) (Session.id ps) with
       | None => Indexer.bump_added (Indexer.result st)
       | Some _ => Indexer.bump_updated (Indexer.result st)
       end
  /\ In (Indexer.storedSession f ps m)
        (Db.sessions (Db.view (Indexer.db st'))).
Proof.
  intros Hw Hp Hb Hf Hrt.
  assert (Hbind : Indexer.bindFault rt (Indexer.writeFault f) cs = None)
    by (apply bindFault_none; auto).
  unfold Indexer.reindex. rewrite Hp. cbv zeta. rewrite Hb, Hbind.
  set (sid := Session.id ps) in *.
  set (db1 := match Db.getSessionMtime (Indexer.db st) sid with
              | Some _ => Db.deleteSession (Indexer.db st) sid
              | None => Indexer.db st
              end).
  assert (Hw1 : Db.working db1 = None).
  { subst db1. destruct (Db.getSessionMtime (Indexer.db st) sid);
      [now apply deleteSession_autocommit|exact Hw]. }
  assert (Hfresh : Db.has_session (Db.committed db1) sid = false).
  { subst db1. destruct (Db.getSessionMtime (Indexer.db st) sid) eqn:E.
    - destruct (deleteSession_autocommit (Indexer.db st) sid Hw) as [_ Hv].
      rewrite <- Hv. apply deleteSession_removes.
    - apply getSessionMtime_none in E. unfold Db.view in E.
      now rewrite Hw in E. }
  assert (Hothers : forall other, other <> sid ->
            Db.getSessionMtime db1 other
            = Db.getSessionMtime (Indexer.db st) other).
  { intros other Hne. subst db1.
    destruct (Db.getSessionMtime (Indexer.db st) sid); [|reflexivity].
    unfold Db.getSessionMtime. rewrite view_deleteSession; simpl.
    now rewrite find_session_filter. }
  set (s := Indexer.storedSession f ps m).
  assert (Hok : snd (Db.insertSession None db1 s cs) = None).
  { apply insertSession_succeeds; [exact Hw1|exact Hfresh|].
    intros c Hc.
    rewrite (buildChunks_session_id fmt sid (Session.turns ps) 0 cs Hb c Hc).
    simpl. now rewrite String.eqb_refl, orb_true_r. }
  destruct (insert_lookup None db1 s cs Hok) as (_ & H1 & H2 & H3).
  pose proof (insertSession_cases None db1 s cs) as Hcase.
  destruct (Db.insertSession None db1 s cs) as [db2 o]; simpl in *.
  subst o. simpl. split; [|split; [|split; [|split]]].
  - exact H1.
  - exact H2.
  - intros other Hne. rewrite H3 by exact Hne. now apply Hothers.
  - destruct (Db.getSessionMtime (Indexer.db st) sid); reflexivity.
  - destruct Hcase as [_ ->]. unfold Db.view. simpl.
    apply in_or_app. right. now left.
Qed.

Lemma settles_accepted (rt : Db.Runtime)
      (fmt : Session.ToolCall -> Result string) (f : Indexer.File) :
  More.settles rt fmt f -> Indexer.canParse f = true ->
  exists m sid ps cs,
    Indexer.mtimeMs f = Some m
    /\ Indexer.header f = Indexer.HeaderId (Some sid)
    /\ Indexer.parse f = Ok ps
    /\ Session.id ps = sid
    /\ Indexer.buildChunks fmt sid (Session.turns ps) 0 = Ok cs
    /\ Indexer.writeFault f = None
    /\ (rt = Db.Bun \/ cs = [])
    /\ More.quickId f = [sid].
Proof.
  intros [H|(m & sid & ps & cs & H1 & H2 & H3 & H4 & H5 & H6 & H7)] Hc;
    [congruence|].
  exists m, sid, ps, cs. unfold More.quickId. rewrite Hc, H2. auto 10.
Qed.

Lemma indexFile_settled (rt : Db.Runtime)
      (fmt : Session.ToolCall -> Result string)
      (st : Indexer.State) (f : Indexer.File) :
  Db.working (Indexer.db st) = None ->
  More.settles rt fmt f ->
  let st' := Indexer.indexFile rt fmt st f in
  Db.working (Indexer.db st') = None
  /\ (forall sid, In sid (More.quickId f) ->
        exists m, Indexer.mtimeMs f = Some m
                  /\ Db.getSessionMtime (Indexer.db st') sid = Some m)
  /\ (forall other, ~ In other (More.quickId f) ->
        Db.getSessionMtime (Indexer.db st') other
        = Db.getSessionMtime (Indexer.db st) other).
Proof.
  intros Hw Hs. cbv zeta.
  destruct (Indexer.canParse f) eqn:Hc.
  - destruct (settles_accepted rt fmt f Hs Hc)
      as (m & sid & ps & cs & H1 & H2 & H3 & H4 & Hb & H5 & Hrt & H6).
    rewrite H6. unfold Indexer.indexFile. rewrite Hc, H1, H2. simpl.
    rewrite <- H4 in Hb.
    destruct (reindex_settled rt fmt st f m ps cs Hw H3 Hb H5 Hrt)
      as (R1 & R2 & R3 & _).
    rewrite H4 in R2, R3.
    assert (Hre :
      Db.working (Indexer.db (Indexer.reindex rt fmt st f m)) = None
      /\ (forall x, x = sid \/ False ->
            exists m0, Some m = Some m0
              /\ Db.getSessionMtime
                   (Indexer.db (Indexer.reindex rt fmt st f m)) x = Some m0)
      /\ (forall other, ~ (sid = other \/ False) ->
            Db.getSessionMtime
              (Indexer.db (Indexer.reindex rt fmt st f m)) other
            = Db.getSessionMtime (Indexer.db st) other)).
    { repeat split; [exact R1| |].
      - intros x [->|[]]. exists m. now split.
      - intros other Hne. apply R3. intros ->. apply Hne. now left. }
    destruct (Db.getSessionMtime (Indexer.db st) sid) as [m'|] eqn:E.
    + destruct (m' =? m) eqn:Em.
      * apply Z.eqb_eq in Em. subst m'. simpl. repeat split; auto.
        intros x [<-|[]]. exists m. now split.
      * destruct Hre as (A & B & C). repeat split; auto.
        intros x [<-|[]]. apply B. now left.
    + destruct Hre as (A & B & C). repeat split; auto.
      intros x [<-|[]]. apply B. now left.
  - unfold Indexer.indexFile, More.quickId. rewrite Hc. simpl.
    repeat split; auto. intros sid [].
Qed.

Lemma indexFiles_leaves_others (rt : Db.Runtime)
      (fmt : Session.ToolCall -> Result string)
      (fs : list Indexer.File) :
  forall st sid,
    Db.working (Indexer.db st) = None ->
    Forall (More.settles rt fmt) fs ->
    ~ In sid (flat_map More.quickId fs) ->
    Db.working (Indexer.db (Indexer.indexFiles rt fmt fs st)) = None
    /\ Db.getSessionMtime (Indexer.db (Indexer.indexFiles rt fmt fs st)) sid
       = Db.getSessionMtime (Indexer.db st) sid.
Proof.
  unfold Indexer.indexFiles.
  induction fs as [|f r IH]; intros st sid Hw Hall Hout; simpl;
    [now split|].
  inversion Hall as [|? ? Hf Hr]; subst.
  destruct (indexFile_settled rt fmt st f Hw Hf) as (W & _ & O).
  simpl in Hout.
  destruct (IH (Indexer.indexFile rt fmt st f) sid W Hr) as [W' E].
  { intros Hin. apply Hout, in_or_app. now right. }
  split; [exact W'|]. rewrite E. apply O.
  intros Hin. apply Hout, in_or_app. now left.
Qed.

Lemma first_pass_records (rt : Db.Runtime)
      (fmt : Session.ToolCall -> Result string)
      (fs : list Indexer.File) :
  forall st,
    Db.working (Indexer.db st) = None ->
    Forall (More.settles rt fmt) fs ->
    NoDup (flat_map More.quickId fs) ->
    forall f, In f fs -> Indexer.canParse f = true ->
      exists m sid,
        Indexer.mtimeMs f = Some m
        /\ Indexer.header f = Indexer.HeaderId (Some sid)
        /\ Db.getSessionMtime
             (Indexer.db (Indexer.indexFiles rt fmt fs st)) sid = Some m.
Proof.
  induction fs as [|f r IH]; intros st Hw Hall Hnd f0 Hin Hc; [destruct Hin|].
  inversion Hall as [|? ? Hf Hr]; subst.
  destruct (indexFile_settled rt fmt st f Hw Hf) as (W & Own & _).
  change (Indexer.indexFiles rt fmt (f :: r) st)
    with (Indexer.indexFiles rt fmt r (Indexer.indexFile rt fmt st f)).
  simpl in Hnd.
  destruct Hin as [<-|Hin].
  - destruct (settles_accepted rt fmt f Hf Hc)
      as (m & sid & ps & cs & H1 & H2 & H3 & H4 & Hb & H5 & Hrt & H6).
    rewrite H6 in Hnd, Own. simpl in Hnd.
    apply NoDup_cons_iff in Hnd as [Hout _].
    destruct (Own sid (or_introl eq_refl)) as (m0 & Em & Hl).
    exists m, sid. repeat split; auto.
    destruct (indexFiles_leaves_others rt fmt r _ sid W Hr Hout) as [_ ->].
    congruence.
  - apply IH; auto.
    clear - Hnd. induction (More.quickId f) as [|x l IHl]; simpl in *; auto.
    apply IHl. now inversion Hnd.
Qed.

Lemma second_pass_skips (rt : Db.Runtime)
      (fmt : Session.ToolCall -> Result string)
      (fs : list Indexer.File) :
  forall st,
    (forall f, In f fs -> Indexer.canParse f = true ->
       exists m sid,
         Indexer.mtimeMs f = Some m
         /\ Indexer.header f = Indexer.HeaderId (Some sid)
         /\ Db.getSessionMtime (Indexer.db st) sid = Some m) ->
    Indexer.indexFiles rt fmt fs st
    = Indexer.mkState (Indexer.db st)
        (Indexer.mkIndexResult
           (Indexer.added (Indexer.result st))
           (Indexer.updated (Indexer.result st))
           (Indexer.skipped (Indexer.result st)
            + Z.of_nat (List.length (More.accepted fs)))
           (Indexer.errors (Indexer.result st)))
        (Indexer.log st).
Proof.
  unfold Indexer.indexFiles, More.accepted.
  induction fs as [|f r IH]; intros st Hrec; simpl.
  - destruct st as [d [a u s e] l]; simpl. now rewrite Z.add_0_r.
  - assert (Hstep : Indexer.indexFile rt fmt st f
              = if Indexer.canParse f
                then Indexer.mkState (Indexer.db st)
                       (Indexer.bump_skipped (Indexer.result st))
                       (Indexer.log st)
                else st).
    { unfold Indexer.indexFile.
      destruct (Indexer.canParse f) eqn:Hc; simpl; [|reflexivity].
      destruct (Hrec f (or_introl eq_refl) Hc) as (m & sid & H1 & H2 & H3).
      now rewrite H1, H2, H3, Z.eqb_refl. }
    rewrite Hstep.
    destruct (Indexer.canParse f); rewrite IH.
    + simpl Indexer.db. simpl Indexer.log. simpl Indexer.result.
      cbn [Indexer.bump_skipped Indexer.added Indexer.updated
           Indexer.skipped Indexer.errors List.length].
      f_equal. f_equal. lia.
    + intros f0 Hin Hc. simpl. apply Hrec; [now right|exact Hc].
    + reflexivity.
    + intros f0 Hin Hc. apply Hrec; [now right|exact Hc].
Qed.

(** X5: indexing is idempotent on unchanged files that were stored.
    When every accepted file parses, has its chunks built without a
    throw, is written without failure on a binding that takes its chunks
    (the store runs on [bun:sqlite], or the file yields no chunk) and
    carries in its first line the id it is stored under, and no two files
    share that id, a second pass over the same files leaves the store and
    the sequence of parses and writes as the first pass left them and
    counts every accepted file as skipped. *)
Theorem indexFiles_second_pass_skips
        (rt : Db.Runtime) (fmt : Session.ToolCall -> Result string)
        (fs : list Indexer.File) (st : Indexer.State) :
  Db.working (Indexer.db st) = None ->
  Forall (More.settles rt fmt) fs ->
  NoDup (flat_map More.quickId fs) ->
  let once := Indexer.indexFiles rt fmt fs st in
  let twice := Indexer.indexFiles rt fmt fs once in
  Indexer.db twice = Indexer.db once
  /\ Indexer.log twice = Indexer.log once
  /\ Indexer.result twice
     = Indexer.mkIndexResult
         (Indexer.added (Indexer.result once))
         (Indexer.updated (Indexer.result once))
         (Indexer.skipped (Indexer.result once)
          + Z.of_nat (List.length (More.accepted fs)))
         (Indexer.errors (Indexer.result once)).
Proof.
  intros Hw Hall Hnd. cbv zeta.
  rewrite (second_pass_skips rt fmt fs (Indexer.indexFiles rt fmt fs st)).
  - simpl. auto.
  - now apply first_pass_records.
Qed.

Lemma indexFiles_second_pass_skips_witness :
  let fs := [Sample.file "s1" 1000; Sample.file "s2" 2000] in
  let once := Indexer.indexFiles Db.Bun Sample.fmt fs Sample.start in
  let twice := Indexer.indexFiles Db.Bun Sample.fmt fs once in
  Indexer.db twice = Indexer.db once
  /\ Indexer.log twice = Indexer.log once
  /\ Indexer.result twice
     = Indexer.mkIndexResult
         (Indexer.added (Indexer.result once))
         (Indexer.updated (Indexer.result once))
         (Indexer.skipped (Indexer.result once)
          + Z.of_nat (List.length (More.accepted fs)))
         (Indexer.errors (Indexer.result once)).
Proof.
  apply (indexFiles_second_pass_skips Db.Bun Sample.fmt
           [Sample.file "s1" 1000; Sample.file "s2" 2000] Sample.start).
  - reflexivity.
  - constructor; [|constructor; [|constructor]]; right.
    + exists 1000, "s1"%string, (Sample.parsed "s1").
      eexists. repeat split; try reflexivity. now left.
    + exists 2000, "s2"%string, (Sample.parsed "s2").
      eexists. repeat split; try reflexivity. now left.
  - simpl. repeat constructor; simpl; intuition discriminate.
Defined.

(** ** Chunks *)

Lemma countFrom_app (a b : nat) :
  forall n, More.countFrom n (a + b)
            = More.countFrom n a ++ More.countFrom (n + Z.of_nat a) b.
Proof.
  induction a as [|a IH]; intros n; simpl More.countFrom.
  - simpl. now rewrite Z.add_0_r.
  - rewrite IH. simpl. do 3 f_equal. lia.
Qed.

Lemma toolChunks_seq (fmt : Session.ToolCall -> Result string)
      (sid : string) (tcs : list Session.ToolCall) :
  forall n cs n',
    Indexer.toolChunks fmt sid tcs n = Ok (cs, n') ->
    map Db.seq cs = More.countFrom n (List.length cs)
    /\ n' = n + Z.of_nat (List.length cs)
    /\ Forall (fun c => Js.isBlank (Db.content c) = false) cs
    /\ (List.length cs <= List.length tcs)%nat.
Proof.
  induction tcs as [|tc r IH]; intros n cs n' H; simpl in H.
  - inversion H; subst. simpl. repeat split; [lia|constructor|lia].
  - destruct (fmt tc) as [content|e]; [|discriminate].
    destruct (Js.isBlank content) eqn:E.
    + destruct (IH n cs n' H) as (A & B & C & D).
      repeat split; auto. simpl. lia.
    + destruct (Indexer.toolChunks fmt sid r (n + 1)) as [[cs1 n1]|e] eqn:E1;
        [|discriminate].
      inversion H; subst. clear H.
      destruct (IH (n + 1) cs1 n' E1) as (A & B & C & D).
      simpl. repeat split.
      * now rewrite A.
      * lia.
      * constructor; [exact E|exact C].
      * lia.
Qed.

Lemma toolChunks_returns (fmt : Session.ToolCall -> Result string)
      (sid : string) (tcs : list Session.ToolCall) :
  forall n,
    (exists r, Indexer.toolChunks fmt sid tcs n = Ok r)
    <-> Forall (fun tc => exists text, fmt tc = Ok text) tcs.
Proof.
  induction tcs as [|tc r IH]; intros n; simpl.
  - split; [constructor|]. intros _. now exists ([], n).
  - destruct (fmt tc) as [content|e] eqn:E.
    + destruct (Js.isBlank content).
      * rewrite IH. split; [intros H; constructor; eauto|].
        intros H. now inversion H.
      * specialize (IH (n + 1)).
        destruct (Indexer.toolChunks fmt sid r (n + 1)) as [[cs1 n1]|e].
        -- split; [|intros _; eauto].
           intros _. constructor; [eauto|]. apply IH. eauto.
        -- split; [intros [x Hx]; discriminate|].
           intros H. inversion H as [|? ? _ Hr]; subst.
           apply IH in Hr as [x Hx]. discriminate.
    + split; [intros [x Hx]; discriminate|].
      intros H. inversion H as [|? ? [text Ht] _]; subst. congruence.
Qed.

Lemma turnChunks_seq (fmt : Session.ToolCall -> Result string)
      (sid : string) (t : Session.Turn) (n : Z)
      (cs : list Db.StoredChunk) (n' : Z) :
  Indexer.turnChunks fmt sid t n = Ok (cs, n') ->
  map Db.seq cs = More.countFrom n (List.length cs)
  /\ n' = n + Z.of_nat (List.length cs)
  /\ Forall (fun c => Js.isBlank (Db.content c) = false) cs
  /\ (List.length cs <= 1 + List.length (Session.toolCalls t))%nat.
Proof.
  unfold Indexer.turnChunks. intros H.
  destruct (Session.textContent t) as [text|]; [|discriminate].
  destruct (Js.isBlank text) eqn:E.
  - destruct (toolChunks_seq fmt sid (Session.toolCalls t) n cs n' H)
      as (A & B & C & D). repeat split; auto.
  - destruct (Indexer.toolChunks fmt sid (Session.toolCalls t) (n + 1))
      as [[cs1 n1]|e] eqn:E1; [|discriminate].
    inversion H; subst. clear H.
    destruct (toolChunks_seq fmt sid (Session.toolCalls t) (n + 1) cs1 n' E1)
      as (A & B & C & D).
    simpl. repeat split.
    + now rewrite A.
    + lia.
    + constructor; [exact E|exact C].
    + lia.
Qed.

Lemma turnChunks_returns (fmt : Session.ToolCall -> Result string)
      (sid : string) (t : Session.Turn) (n : Z) :
  (exists r, Indexer.turnChunks fmt sid t n = Ok r)
  <-> Session.textContent t <> None
      /\ Forall (fun tc => exists text, fmt tc = Ok text)
                (Session.toolCalls t).
Proof.
  unfold Indexer.turnChunks.
  destruct (Session.textContent t) as [text|].
  - destruct (Js.isBlank text).
    + rewrite toolChunks_returns. split; [now split|tauto].
    + pose proof (toolChunks_returns fmt sid (Session.toolCalls t) (n + 1))
        as H.
      destruct (Indexer.toolChunks fmt sid (Session.toolCalls t) (n + 1))
        as [[cs1 n1]|e].
      * split; [|eauto]. intros _. split; [discriminate|]. apply H. eauto.
      * split; [intros [x Hx]; discriminate|].
        intros [_ Hf]. apply H in Hf as [x Hx]. discriminate.
  - split; [intros [x Hx]; discriminate|]. intros [Hn _]. congruence.
Qed.

(** X6: the chunks built for a session are numbered without gaps, in the
    order the turns and their tool calls come, starting from the first
    [seq]; no chunk with blank content is built; and there is at most one
    chunk per turn plus one per tool call.  The chunks are built, with no
    throw, exactly when every turn has a text and the formatter renders
    every tool call. *)
Theorem buildChunks_seq_gapless
        (fmt : Session.ToolCall -> Result string) (sid : string)
        (ts : list Session.Turn) (n : Z) :
  (forall cs,
     Indexer.buildChunks fmt sid ts n = Ok cs ->
     map Db.seq cs = More.countFrom n (List.length cs)
     /\ Forall (fun c => Js.isBlank (Db.content c) = false) cs
     /\ (List.length cs
         <= List.length ts + List.length (flat_map Session.toolCalls ts))%nat)
  /\ ((exists cs, Indexer.buildChunks fmt sid ts n = Ok cs)
      <-> Forall (fun t => Session.textContent t <> None) ts
          /\ Forall (fun tc => exists text, fmt tc = Ok text)
                    (flat_map Session.toolCalls ts)).
Proof.
  revert n. induction ts as [|t r IH]; intros n; simpl.
  - split.
    + intros cs H. inversion H; subst. simpl.
      repeat split; [constructor|lia].
    + split; [intros _; split; constructor|intros _; now exists []].
  - pose proof (turnChunks_seq fmt sid t n) as Hs.
    pose proof (turnChunks_returns fmt sid t n) as Hr.
    destruct (Indexer.turnChunks fmt sid t n) as [[cs1 n1]|e].
    + destruct (Hs cs1 n1 eq_refl) as (A & B & C & D).
      destruct (IH n1) as [IH1 IH2].
      assert (Ht : Session.textContent t <> None
                   /\ Forall (fun tc => exists text, fmt tc = Ok text)
                             (Session.toolCalls t))
        by (apply Hr; eauto).
      destruct (Indexer.buildChunks fmt sid r n1) as [rest|e].
      * split.
        -- intros cs H. inversion H; subst. clear H.
           destruct (IH1 rest eq_refl) as (A' & C' & D'). repeat split.
           ++ rewrite map_app, length_app, countFrom_app, A, A'.
              reflexivity.
           ++ apply Forall_app. now split.
           ++ rewrite !length_app. lia.
        -- split; [|intros _; eauto].
           intros _. destruct IH2 as [IH2 _].
           destruct IH2 as [F1 F2]; [eauto|].
           split; [constructor; tauto|apply Forall_app; tauto].
      * split; [intros cs H; discriminate|].
        split; [intros [x Hx]; discriminate|].
        intros [F1 F2]. apply Forall_app in F2 as [_ F2].
        inversion F1; subst.
        destruct IH2 as [_ IH2]. destruct IH2 as [x Hx]; [tauto|].
        discriminate.
    + split; [intros cs H; discriminate|].
      split; [intros [x Hx]; discriminate|].
      intros [F1 F2]. apply Forall_app in F2 as [F2 _].
      inversion F1; subst.
      destruct Hr as [_ Hr]. destruct Hr as [x Hx]; [tauto|]. discriminate.
Qed.

Lemma prefix_of_append (h x : string) : String.prefix h (h ++ x) = true.
Proof.
  induction h as [|a h IH]; simpl; [now destruct x|].
  destruct (ascii_dec a a); [exact IH|congruence].
Qed.

Lemma buildText_head (h : string) (rest : list (option string)) :
  String.eqb h "" = false ->
  String.prefix h (Format.buildText (Some h :: rest)) = true.
Proof.
  intros Hne. unfold Format.buildText. simpl. rewrite Hne. simpl.
  destruct (flat_map _ rest).
  - clear. induction h as [|a h IH]; simpl; [reflexivity|].
    destruct (ascii_dec a a); [exact IH|congruence].
  - apply prefix_of_append.
Qed.

Lemma extractArg_object (stringify : Session.Json -> string)
      (tc : Session.ToolCall) (keys : list string) :
  More.objectArgs tc = true ->
  exists v, Format.extractArg stringify tc keys = Ok v.
Proof.
  unfold More.objectArgs. intros Ho.
  induction keys as [|k r IH]; simpl; [eauto|].
  unfold Format.getField.
  destruct (Session.args tc) as [| | | | |f]; try discriminate.
  destruct (find _ f) as [[k' v]|]; [|exact IH].
  destruct v; simpl; eauto.
Qed.

Lemma formatToolCall_head (stringify : Session.Json -> string)
      (toLowerCase : string -> string) (codeUnits : string -> list string)
      (tc : Session.ToolCall) :
  More.objectArgs tc = true ->
  exists text,
    Format.formatToolCall stringify toLowerCase codeUnits tc = Ok text
    /\ String.prefix ("tool: " ++ Session.tc_name tc) text = true.
Proof.
  intros Ho. unfold Format.formatToolCall, Format.argsText. cbv zeta.
  assert (Hf : exists f, Format.fields codeUnits (Session.args tc) = Ok f).
  { unfold More.objectArgs in Ho. unfold Format.fields.
    destruct (Session.args tc); try discriminate; eauto. }
  destruct Hf as [f Hf]. rewrite Hf.
  repeat match goal with
         | |- context [if ?b then _ else _] => destruct b
         end;
    repeat match goal with
           | |- context [Format.extractArg stringify tc ?k] =>
               let v := fresh "v" in
               let E := fresh "E" in
               destruct (extractArg_object stringify tc k Ho) as [v E];
               rewrite E
           end;
    cbn [Format.andThen]; eexists; (split; [reflexivity|]);
    apply buildText_head; reflexivity.
Qed.

Lemma isBlank_letter (a : ascii) (r : string) :
  (Js.byte a <? 128)%nat = true -> Js.ascii_ws a = false ->
  Js.isBlank (String a r) = false.
Proof.
  intros Hlow Hws. unfold Js.isBlank. simpl. rewrite Hws.
  apply Nat.ltb_lt in Hlow.
  assert (H2 : forall b, Js.ws2 a b = false).
  { intros b. unfold Js.ws2.
    destruct (Nat.eqb_spec (Js.byte a) 194); [lia|reflexivity]. }
  assert (H3 : forall b c, Js.ws3 a b c = false).
  { intros b c. unfold Js.ws3. cbv zeta.
    destruct (Nat.eqb_spec (Js.byte a) 225); [lia|].
    destruct (Nat.eqb_spec (Js.byte a) 226); [lia|].
    destruct (Nat.eqb_spec (Js.byte a) 227); [lia|].
    destruct (Nat.eqb_spec (Js.byte a) 239); [lia|]. reflexivity. }
  destruct r as [|b [|c r]]; [reflexivity|rewrite H2; reflexivity|].
  rewrite H2, H3. reflexivity.
Qed.

Lemma prefixed_not_blank (name text : string) :
  String.prefix ("tool: " ++ name) text = true -> Js.isBlank text = false.
Proof.
  intros H.
  destruct text as [|a r]; cbn [String.append String.prefix] in H;
    [discriminate|].
  destruct (ascii_dec "t"%char a) as [<-|]; [|discriminate].
  now apply isBlank_letter.
Qed.

Lemma toolChunks_of_real_formatter (stringify : Session.Json -> string)
      (toLowerCase : string -> string) (codeUnits : string -> list string)
      (sid : string) (tcs : list Session.ToolCall) :
  Forall (fun tc => More.objectArgs tc = true) tcs ->
  forall n,
    exists cs n',
      Indexer.toolChunks
        (Format.formatToolCall stringify toLowerCase codeUnits) sid tcs n
      = Ok (cs, n')
      /\ map Db.tool_name cs = map (fun tc => Some (Session.tc_name tc)) tcs
      /\ filter More.isToolCallChunk cs = cs.
Proof.
  induction 1 as [|tc r Ho _ IH]; intros n; simpl; [now exists [], n|].
  destruct (formatToolCall_head stringify toLowerCase codeUnits tc Ho)
    as (text & E & Hp).
  rewrite E, (prefixed_not_blank _ _ Hp).
  destruct (IH (n + 1)) as (cs & n' & E1 & A & B). rewrite E1.
  exists (Indexer.toolCallChunk sid tc text n :: cs), n'. simpl.
  split; [reflexivity|]. split; [now rewrite A|now rewrite B].
Qed.

(** X7: for tool calls whose arguments are an object, [formatToolCall]
    does not throw and the text it renders begins with the line
    [tool: <name>], so it is never blank.  For a session of such tool
    calls in which every turn has a text, the indexer therefore builds
    exactly one [tool_call] chunk for every tool call of every turn, in
    order and under the tool's name; if a turn has no text, the chunk
    loop throws the [TypeError] of [trim]. *)
Theorem every_tool_call_is_indexed
        (stringify : Session.Json -> string)
        (toLowerCase : string -> string)
        (codeUnits : string -> list string) (sid : string)
        (ts : list Session.Turn) (n : Z) :
  Forall (fun tc => More.objectArgs tc = true)
         (flat_map Session.toolCalls ts) ->
  let fmt := Format.formatToolCall stringify toLowerCase codeUnits in
  (forall tc, In tc (flat_map Session.toolCalls ts) ->
     exists text,
       fmt tc = Ok text
       /\ String.prefix ("tool: " ++ Session.tc_name tc) text = true
       /\ Js.isBlank text = false)
  /\ (Forall (fun t => Session.textContent t <> None) ts ->
      exists cs,
        Indexer.buildChunks fmt sid ts n = Ok cs
        /\ map Db.tool_name (filter More.isToolCallChunk cs)
           = map (fun tc => Some (Session.tc_name tc))
                 (flat_map Session.toolCalls ts))
  /\ (Exists (fun t => Session.textContent t = None) ts ->
      Indexer.buildChunks fmt sid ts n = Err Indexer.trimOfUndefined).
Proof.
  intros Hobj. cbv zeta. split; [|split].
  - intros tc Hin.
    assert (Ho : More.objectArgs tc = true)
      by (revert tc Hin; now apply Forall_forall).
    destruct (formatToolCall_head stringify toLowerCase codeUnits tc Ho)
      as (text & E & Hp).
    exists text. split; [exact E|]. split; [exact Hp|].
    exact (prefixed_not_blank _ _ Hp).
  - intros Htext. revert n.
    induction Htext as [|t r Ht _ IH]; intros n; simpl; [now exists []|].
    simpl in Hobj. apply Forall_app in Hobj as [Ho1 Ho2].
    unfold Indexer.turnChunks.
    destruct (Session.textContent t) as [text|]; [|congruence].
    destruct (Js.isBlank text).
    + destruct (toolChunks_of_real_formatter stringify toLowerCase codeUnits
                  sid (Session.toolCalls t) Ho1 n) as (cs & n' & E & A & B).
      rewrite E. destruct (IH Ho2 n') as (rest & E' & A'). rewrite E'.
      exists (cs ++ rest). split; [reflexivity|].
      now rewrite filter_app, !map_app, B, A, A'.
    + destruct (toolChunks_of_real_formatter stringify toLowerCase codeUnits
                  sid (Session.toolCalls t) Ho1 (n + 1))
        as (cs & n' & E & A & B).
      rewrite E. destruct (IH Ho2 n') as (rest & E' & A'). rewrite E'.
      exists ((Indexer.messageChunk sid t text n :: cs) ++ rest).
      split; [reflexivity|].
      simpl. now rewrite filter_app, !map_app, B, A, A'.
  - intros Hex. revert n.
    induction ts as [|t r IH]; intros n; [inversion Hex|].
    simpl in Hobj. apply Forall_app in Hobj as [Ho1 Ho2].
    simpl. unfold Indexer.turnChunks.
    destruct (Session.textContent t) as [text|] eqn:Et; [|reflexivity].
    assert (Hr : Exists (fun t => Session.textContent t = None) r)
      by (inversion Hex; subst; [congruence|assumption]).
    destruct (Js.isBlank text).
    + destruct (toolChunks_of_real_formatter stringify toLowerCase codeUnits
                  sid (Session.toolCalls t) Ho1 n) as (cs & n' & E & _).
      rewrite E. now rewrite (IH Ho2 Hr n').
    + destruct (toolChunks_of_real_formatter stringify toLowerCase codeUnits
                  sid (Session.toolCalls t) Ho1 (n + 1))
        as (cs & n' & E & _).
      rewrite E. now rewrite (IH Ho2 Hr n').
Qed.

Lemma every_tool_call_is_indexed_witness :
  let ts := Session.turns (PiFile.parseLines "p1" "2026-01-16T00:00:00Z"
                             "2026-01-15T11:00:00Z"
                             (PiFile.lines More.piFile)) in
  (forall tc, In tc (flat_map Session.toolCalls ts) ->
     exists text,
       More.fmt tc = Ok text
       /\ String.prefix ("tool: " ++ Session.tc_name tc) text = true
       /\ Js.isBlank text = false)
  /\ (Forall (fun t => Session.textContent t <> None) ts ->
      exists cs,
        Indexer.buildChunks More.fmt "p1" ts 0 = Ok cs
        /\ map Db.tool_name (filter More.isToolCallChunk cs)
           = map (fun tc => Some (Session.tc_name tc))
                 (flat_map Session.toolCalls ts))
  /\ (Exists (fun t => Session.textContent t = None) ts ->
      Indexer.buildChunks More.fmt "p1" ts 0 = Err Indexer.trimOfUndefined).
Proof.
  apply (every_tool_call_is_indexed (fun _ => "{}"%string) (fun s => s)
           (fun _ => []) "p1"
           (Session.turns (PiFile.parseLines "p1" "2026-01-16T00:00:00Z"
                             "2026-01-15T11:00:00Z"
                             (PiFile.lines More.piFile))) 0).
  repeat constructor.
Defined.

(** ** The Pi adapter *)

Lemma fold_step_turns (lines : list PiFile.Line) :
  forall a,
    PiFile.turns (fold_left PiFile.step lines a)
    = PiFile.turns a ++ flat_map PiFile.turnsOf lines.
Proof.
  induction lines as [|l r IH]; intros a; simpl; [now rewrite app_nil_r|].
  rewrite IH. destruct l; simpl; rewrite <- ?app_assoc; reflexivity.
Qed.

Lemma fold_step_skip (lines : list PiFile.Line) :
  forall a,
    fold_left PiFile.step
      (filter (fun l => negb (PiFile.skipped l)) lines) a
    = fold_left PiFile.step lines a.
Proof.
  induction lines as [|l r IH]; intros a; simpl; [reflexivity|].
  destruct l; simpl; apply IH.
Qed.

Lemma fold_step_no_header (lines : list PiFile.Line) :
  forallb More.notHeader lines = true ->
  forall a,
    PiFile.sessionId (fold_left PiFile.step lines a) = PiFile.sessionId a
    /\ PiFile.sessionCwd (fold_left PiFile.step lines a) = PiFile.sessionCwd a
    /\ PiFile.createdAt (fold_left PiFile.step lines a) = PiFile.createdAt a.
Proof.
  induction lines as [|l r IH]; intros Hno a; simpl; [auto|].
  simpl in Hno. apply andb_true_iff in Hno as [Hl Hr].
  destruct (IH Hr (PiFile.step a l)) as (A & B & C).
  rewrite A, B, C. destruct l; simpl; auto; discriminate.
Qed.

(** X8: the Pi parser never fails on the content of a readable file.
    The turns are those of the message and compaction lines, in file
    order; lines that are malformed, of an unknown type, metadata, or
    messages of an unknown role change nothing, as if they were not in the
    file; id, cwd and creation time come from the last session header, and
    without any header the id is the file's base name and the creation
    time the current time. *)
Theorem parse_skips_noise (stem now modified : string)
        (lines : list PiFile.Line) :
  Session.turns (PiFile.parseLines stem now modified lines)
  = flat_map PiFile.turnsOf lines
  /\ PiFile.parseLines stem now modified
       (filter (fun l => negb (PiFile.skipped l)) lines)
     = PiFile.parseLines stem now modified lines
  /\ (forallb More.notHeader lines = true ->
      Session.id (PiFile.parseLines stem now modified lines) = stem
      /\ Session.cwd (PiFile.parseLines stem now modified lines) = None
      /\ Session.createdAt (PiFile.parseLines stem now modified lines) = now)
  /\ (forall before i c t after,
        lines = before ++ PiFile.SessionHeader i c t :: after ->
        forallb More.notHeader after = true ->
        Session.id (PiFile.parseLines stem now modified lines) = i
        /\ Session.cwd (PiFile.parseLines stem now modified lines) = c
        /\ Session.createdAt (PiFile.parseLines stem now modified lines)
           = t).
Proof.
  unfold PiFile.parseLines. cbv zeta. simpl.
  split; [|split; [|split]].
  - now rewrite fold_step_turns.
  - now rewrite fold_step_skip.
  - intros Hno. now apply (fold_step_no_header lines Hno).
  - intros before i c t after -> Hno.
    rewrite fold_left_app. simpl.
    now apply (fold_step_no_header after Hno).
Qed.

Lemma canParse_readable (f : PiFile.t) :
  PiFile.canParse f = true -> PiFile.readable f = true.
Proof.
  unfold PiFile.canParse. intros H.
  do 2 (apply andb_true_iff in H as [H _]).
  now apply andb_true_iff in H as [_ H].
Qed.

(** X9: a Pi session file whose first line is its only session header
    and whose id is not stored yet, even when later lines of the file are
    malformed.  If its chunks are built without a throw and the binding
    takes them (the store runs on [bun:sqlite], or the file yields no
    chunk), it is indexed as a new session under the id of that header,
    with the file's mtime, and no error is counted; when the id is not
    empty the file then meets the conditions under which a second pass
    skips it.  If it yields a chunk and the store runs on [node:sqlite],
    or if [formatToolCall] or [trim] throws while the chunks are built,
    one error is counted and no session is stored. *)
Theorem pi_session_file_is_added
        (rt : Db.Runtime) (fmt : Session.ToolCall -> Result string)
        (f : PiFile.t) (st : Indexer.State) (i : string) (c : option string)
        (t : string) (rest : list PiFile.Line) (m : Z) :
  PiFile.canParse f = true ->
  PiFile.lines f = PiFile.SessionHeader i c t :: rest ->
  forallb More.notHeader rest = true ->
  PiFile.mtimeMs f = Some m ->
  PiFile.writeFault f = None ->
  Db.working (Indexer.db st) = None ->
  Db.getSessionMtime (Indexer.db st) i = None ->
  let built := Indexer.buildChunks fmt i (flat_map PiFile.turnsOf rest) 0 in
  let st' := Indexer.indexFile rt fmt st (PiFile.observed f) in
  (forall cs,
     built = Ok cs -> rt = Db.Bun \/ cs = [] ->
     Indexer.result st' = Indexer.bump_added (Indexer.result st)
     /\ Db.getSessionMtime (Indexer.db st') i = Some m
     /\ (i <> ""%string -> More.settles rt fmt (PiFile.observed f)))
  /\ (forall k cs,
        built = Ok (k :: cs) -> rt = Db.Node ->
        Indexer.result st' = Indexer.bump_errors (Indexer.result st)
        /\ Indexer.db st' = Indexer.db st)
  /\ (forall e,
        built = Err e ->
        Indexer.result st' = Indexer.bump_errors (Indexer.result st)
        /\ Indexer.db st' = Indexer.db st).
Proof.
  intros Hc Hl Hno Hm Hf Hw Hnew. cbv zeta.
  pose proof (canParse_readable f Hc) as Hr.
  set (ps := PiFile.parseLines (PiFile.stem f) (PiFile.now f)
               (PiFile.modified f) (PiFile.lines f)).
  assert (Hp : Indexer.parse (PiFile.observed f) = Ok ps).
  { simpl. unfold PiFile.parse. now rewrite Hr. }
  assert (Hid : Session.id ps = i).
  { subst ps. rewrite Hl. unfold PiFile.parseLines. cbv zeta. simpl.
    now apply (fold_step_no_header rest Hno). }
  assert (Hts : Session.turns ps = flat_map PiFile.turnsOf rest).
  { subst ps. rewrite Hl. unfold PiFile.parseLines. cbv zeta.
    cbn [Session.turns]. now rewrite fold_step_turns. }
  assert (Hh : Indexer.header (PiFile.observed f)
               = Indexer.HeaderId (Js.truthy (Some i))).
  { simpl. unfold PiFile.header. now rewrite Hc, Hl. }
  assert (Hstep : Indexer.indexFile rt fmt st (PiFile.observed f)
                  = Indexer.reindex rt fmt st (PiFile.observed f) m).
  { unfold Indexer.indexFile. rewrite Hh. simpl Indexer.canParse.
    simpl Indexer.mtimeMs. rewrite Hc, Hm. simpl.
    destruct (String.eqb i ""); [reflexivity|]. now rewrite Hnew. }
  rewrite Hstep.
  pose proof (reindex_outcome rt fmt st (PiFile.observed f) m ps Hw Hp)
    as Ho.
  cbv zeta in Ho. rewrite Hid, Hts, Hnew in Ho.
  destruct Ho as (_ & _ & _ & Oerr & _ & Ofault).
  split; [|split].
  - intros cs Hb Hrt.
    assert (Hb' : Indexer.buildChunks fmt (Session.id ps) (Session.turns ps) 0
                  = Ok cs) by (now rewrite Hid, Hts).
    destruct (reindex_settled rt fmt st (PiFile.observed f) m ps cs
                Hw Hp Hb' Hf Hrt) as (_ & R2 & _ & R4 & _).
    rewrite Hid in R2, R4. rewrite Hnew in R4.
    split; [exact R4|split; [exact R2|]].
    intros Hne. right. exists m, i, ps, cs.
    rewrite Hid in Hb'. repeat split; auto.
    rewrite Hh. simpl. apply String.eqb_neq in Hne. now rewrite Hne.
  - intros k cs Hb ->.
    destruct (bindFault_node (Indexer.writeFault (PiFile.observed f)) k cs)
      as (j & Hj & Hle).
    rewrite (Ofault (k :: cs) j Hb Hj) by (simpl; lia).
    now split.
  - intros e Hb. rewrite (Oerr e Hb). now split.
Qed.

Lemma pi_session_file_is_added_witness :
  let st' := Indexer.indexFile Db.Bun More.fmt Sample.start
               (PiFile.observed More.piFile) in
  Indexer.result st' = Indexer.bump_added (Indexer.result Sample.start)
  /\ Db.getSessionMtime (Indexer.db st') "p1" = Some 4000
  /\ More.settles Db.Bun More.fmt (PiFile.observed More.piFile).
Proof.
  destruct (pi_session_file_is_added Db.Bun More.fmt More.piFile
              Sample.start "p1" (Some "/proj"%string)
              "2026-01-15T10:00:00Z" (tl (PiFile.lines More.piFile)) 4000
              eq_refl eq_refl eq_refl eq_refl eq_refl eq_refl eq_refl)
    as [H _].
  edestruct H as (A & B & C); [reflexivity|now left|].
  split; [exact A|split; [exact B|]]. apply C. discriminate.
Defined.

(** ** Metadata, statistics, reset *)

Lemma getMetadata_set_same (now : string) (m : Meta.Table) (k v : string) :
  Meta.getMetadata (Meta.setMetadata now m k v) k = Some v.
Proof.
  unfold Meta.getMetadata.
  induction m as [|r rest IH]; simpl.
  - now rewrite String.eqb_refl.
  - destruct (String.eqb (Meta.key r) k) eqn:E; simpl.
    + now rewrite String.eqb_refl.
    + rewrite E. exact IH.
Qed.

Lemma getMetadata_set_other (now : string) (m : Meta.Table)
      (k v k' : string) :
  k' <> k ->
  Meta.getMetadata (Meta.setMetadata now m k v) k' = Meta.getMetadata m k'.
Proof.
  intros Hne. unfold Meta.getMetadata.
  induction m as [|r rest IH]; simpl.
  - destruct (String.eqb_spec k k'); [congruence|reflexivity].
  - destruct (String.eqb_spec (Meta.key r) k) as [E|E]; simpl.
    + destruct (String.eqb_spec k k'); [congruence|].
      destruct (String.eqb_spec (Meta.key r) k'); [congruence|reflexivity].
    + destruct (String.eqb (Meta.key r) k'); [reflexivity|exact IH].
Qed.

Lemma setMetadata_keys (now : string) (m : Meta.Table) (k v : string) :
  forall x, In x (map Meta.key (Meta.setMetadata now m k v))
            <-> In x (map Meta.key m) \/ x = k.
Proof.
  induction m as [|r rest IH]; intros x; simpl.
  - intuition.
  - destruct (String.eqb_spec (Meta.key r) k) as [E|E]; simpl.
    + rewrite E. intuition.
    + rewrite IH. intuition.
Qed.

(** X10: [setMetadata] followed by [getMetadata] of the same key returns
    the value just written, whether or not the key existed; no other key
    is affected; the table keeps one row per key, and writing an existing
    key adds no row.  A key never written reads as null. *)
Theorem setMetadata_then_getMetadata (now : string) (m : Meta.Table)
        (k v : string) :
  let m' := Meta.setMetadata now m k v in
  Meta.getMetadata m' k = Some v
  /\ (forall k', k' <> k -> Meta.getMetadata m' k' = Meta.getMetadata m k')
  /\ (NoDup (map Meta.key m) -> NoDup (map Meta.key m'))
  /\ List.length m'
     = match Meta.getMetadata m k with
       | Some _ => List.length m
       | None => S (List.length m)
       end
  /\ (forall x, ~ In x (map Meta.key m) -> Meta.getMetadata m x = None).
Proof.
  cbv zeta. split; [apply getMetadata_set_same|].
  split; [intros; now apply getMetadata_set_other|].
  split; [|split].
  - induction m as [|r rest IH]; simpl; intros Hnd.
    + repeat constructor. intros [].
    + inversion Hnd as [|? ? Hfresh Hrest]; subst.
      destruct (String.eqb_spec (Meta.key r) k) as [E|E]; simpl.
      * rewrite <- E. now constructor.
      * constructor; [|now apply IH].
        rewrite setMetadata_keys. intros [H|H]; [now apply Hfresh|].
        congruence.
  - unfold Meta.getMetadata.
    induction m as [|r rest IH]; simpl; [reflexivity|].
    destruct (String.eqb (Meta.key r) k); simpl; [reflexivity|].
    rewrite IH. now destruct (find _ rest).
  - intros x. unfold Meta.getMetadata.
    induction m as [|r rest IH]; simpl; intros Hout; [reflexivity|].
    destruct (String.eqb_spec (Meta.key r) x); [tauto|].
    apply IH. tauto.
Qed.

Lemma one_session_fewer (sid : string) (l : list Db.StoredSession) :
  NoDup (map Db.id l) ->
  find (fun s => String.eqb (Db.id s) sid) l <> None ->
  S (List.length
       (filter (fun s => negb (String.eqb (Db.id s) sid)) l))
  = List.length l.
Proof.
  induction l as [|s r IH]; simpl; intros Hnd Hfound; [congruence|].
  inversion Hnd as [|? ? Hfresh Hrest]; subst.
  destruct (String.eqb_spec (Db.id s) sid) as [E|E]; simpl.
  - f_equal. clear IH Hfound Hnd.
    induction r as [|x r IHr]; simpl; [reflexivity|].
    simpl in Hfresh, Hrest.
    destruct (String.eqb_spec (Db.id x) sid) as [Ex|Ex]; simpl.
    + exfalso. apply Hfresh. left. congruence.
    + f_equal. apply IHr; [tauto|now inversion Hrest].
  - f_equal. now apply IH.
Qed.

(** X11: [getStats] follows the writes.  A successful [insertSession]
    raises the session count by one and the chunk count by the number of
    chunks passed; a failed one leaves the statistics as they were;
    deleting a stored session of a store with unique ids lowers the
    session count by one; the size is 0 when the file cannot be
    inspected; and the last sync time is whatever was last written under
    [last_sync_at]. *)
Theorem getStats_follows_writes
        (fault : Db.Fault) (d : Db.Database) (s : Db.StoredSession)
        (cs : list Db.StoredChunk) (m : Meta.Table) (size : option Z)
        (sid now v : string) :
  let before := Meta.getStats d m size in
  let after := Meta.getStats (fst (Db.insertSession fault d s cs)) m size in
  match snd (Db.insertSession fault d s cs) with
  | None =>
      Meta.sessionCount after = Meta.sessionCount before + 1
      /\ Meta.chunkCount after
         = Meta.chunkCount before + Z.of_nat (List.length cs)
  | Some _ => after = before
  end
  /\ (NoDup (map Db.id (Db.sessions (Db.view d))) ->
      Db.getSessionMtime d sid <> None ->
      Meta.sessionCount (Meta.getStats (Db.deleteSession d sid) m size)
      = Meta.sessionCount before - 1)
  /\ Meta.dbSizeBytes (Meta.getStats d m None) = 0
  /\ Meta.lastSyncAt
       (Meta.getStats d (Meta.setMetadata now m "last_sync_at" v) size)
     = Some v.
Proof.
  cbv zeta. split; [|split; [|split]].
  - pose proof (insertSession_cases fault d s cs) as H.
    destruct (Db.insertSession fault d s cs) as [d' [e|]]; simpl in *.
    + now subst d'.
    + destruct H as [Hw ->]. unfold Db.view; simpl. rewrite Hw.
      rewrite !length_app, numbered_length. simpl. lia.
  - intros Hnd Hfound. unfold Meta.getStats; simpl.
    rewrite view_deleteSession; simpl.
    rewrite <- (one_session_fewer sid (Db.sessions (Db.view d)) Hnd).
    + lia.
    + unfold Db.getSessionMtime in Hfound.
      destruct (find _ (Db.sessions (Db.view d))); congruence.
  - reflexivity.
  - simpl. apply getMetadata_set_same.
Qed.

Lemma has_after_drop (x : string) (dropped l : list string) :
  Schema.has x (filter (fun y => negb (Schema.has y dropped)) l)
  = (Schema.has x l && negb (Schema.has x dropped))%bool.
Proof.
  unfold Schema.has at 1 3.
  induction l as [|y r IH]; simpl; [reflexivity|].
  destruct (String.eqb_spec x y) as [<-|E]; simpl.
  - destruct (Schema.has x dropped); simpl; [|now rewrite String.eqb_refl].
    rewrite IH. now rewrite andb_false_r.
  - destruct (Schema.has y dropped); simpl; [exact IH|].
    destruct (String.eqb_spec x y); [congruence|exact IH].
Qed.

Lemma migrate_fresh_cat (applied : list Z) (ms : list Schema.Migration) :
  forall st,
    Schema.tables (Schema.cat (fst (Schema.migrate applied true ms st)))
    = Schema.tables (Schema.cat st)
    /\ Schema.chunk_columns
         (Schema.cat (fst (Schema.migrate applied true ms st)))
       = Schema.chunk_columns (Schema.cat st).
Proof.
  induction ms as [|m r IH]; intros st; simpl; [now split|].
  destruct (existsb (Z.eqb (Schema.id m)) applied); [apply IH|].
  unfold Schema.record.
  destruct (Schema.recorded (Schema.cat st) (Schema.id m)); simpl;
    [now split|].
  match goal with |- context [Schema.migrate _ _ _ ?s] =>
    destruct (IH s) as [A B] end.
  rewrite A, B. now split.
Qed.

Lemma exec_schema_tables (c : Schema.Catalog) (x : string) :
  Schema.has x (Schema.tables (Schema.exec_schema c))
  = (Schema.has x (Schema.tables c)
     || Schema.has x ["sessions"; "chunks"; "metadata"; "chunks_fts"])%bool.
Proof.
  unfold Schema.exec_schema. cbv zeta.
  rewrite has_add_table, has_add_table.
  destruct (Schema.has "chunks" (Schema.tables (Schema.add_table "sessions" c)))
    eqn:E; simpl.
  - rewrite has_add_table. rewrite has_add_table in E.
    destruct (String.eqb_spec x "chunks") as [->|]; simpl.
    + simpl in E. rewrite orb_false_r in E. rewrite E. reflexivity.
    + destruct (Schema.has x (Schema.tables c)),
        (String.eqb x "sessions"), (String.eqb x "metadata"),
        (String.eqb x "chunks_fts"); reflexivity.
  - unfold Schema.has at 1. rewrite existsb_app. simpl.
    fold (Schema.has x (Schema.tables (Schema.add_table "sessions" c))).
    rewrite has_add_table.
    destruct (Schema.has x (Schema.tables c)),
      (String.eqb x "sessions"), (String.eqb x "chunks"),
      (String.eqb x "metadata"), (String.eqb x "chunks_fts"); reflexivity.
Qed.

(** X12: [dropAll] never fails and never runs a migration body: whatever
    the store looked like, also one that [openDatabase] cannot upgrade,
    it ends with the latest [chunks] columns, the four tables of SCHEMA,
    every other table it had, and a ledger holding exactly the shipped
    migrations, each recorded once; the rows and the id counter are
    gone. *)
Theorem dropAll_resets (c : Schema.Catalog) (d : Db.Database) :
  let out := Meta.dropAll c in
  snd out = None
  /\ Schema.trace (fst out) = [Schema.Recorded 1; Schema.Recorded 2]
  /\ Schema.ledger (Schema.cat (fst out))
     = Some [(1, "add is_error column to chunks"%string);
             (2, "add metadata table"%string)]
  /\ Schema.chunk_columns (Schema.cat (fst out))
     = Schema.latest_chunk_columns
  /\ (forall x, Schema.has x (Schema.tables (Schema.cat (fst out)))
                = (Schema.has x (Schema.tables c)
                   || Schema.has x Meta.droppedTables)%bool)
  /\ Schema.pending (Schema.cat (fst out)) = []
  /\ Db.view (Meta.dropAllRows d) = Db.mkTables [] [] 0.
Proof.
  cbv zeta. unfold Meta.dropAll, Schema.runMigrations, Schema.runMigrationsWith.
  set (c0 := Schema.mkCatalog
               (filter (fun x => negb (Schema.has x Meta.droppedTables))
                       (Schema.tables c))
               (Schema.chunk_columns c) None).
  rewrite exec_schema_ledger. simpl Schema.ledger. cbv iota.
  set (c1 := Schema.mkCatalog (Schema.tables (Schema.exec_schema c0))
               (Schema.chunk_columns (Schema.exec_schema c0)) (Some [])).
  assert (Hl : Schema.ledger_rows c1 = []) by reflexivity.
  rewrite Hl. simpl map.
  destruct (migrate_shipped c1 [] true eq_refl
              (exec_schema_has_chunks c0)) as [Hfresh _].
  destruct (Hfresh eq_refl) as (E1 & E2 & E3). clear Hfresh.
  destruct (migrate_fresh_cat [] Schema.migrations (Schema.mkState c1 []))
    as [T C].
  cbn [Schema.cat] in T, C. subst c1. cbn [Schema.tables Schema.chunk_columns] in T, C.
  assert (Hdropped : Schema.has "chunks" (Schema.tables c0) = false).
  { subst c0. cbn [Schema.tables]. rewrite has_after_drop.
    apply andb_false_r. }
  split; [exact E1|]. split; [exact E2|]. split; [exact E3|].
  split; [|split; [|split]].
  - rewrite C. unfold Schema.exec_schema. cbv zeta.
    rewrite has_add_table, Hdropped. simpl.
    rewrite (proj2 (add_table_ledger _ _)), (proj2 (add_table_ledger _ _)).
    reflexivity.
  - intros x. rewrite T, exec_schema_tables. subst c0. cbn [Schema.tables].
    rewrite has_after_drop. unfold Meta.droppedTables. simpl.
    destruct (Schema.has x (Schema.tables c)),
      (String.eqb x "sessions"), (String.eqb x "chunks"),
      (String.eqb x "metadata"), (String.eqb x "chunks_fts"); reflexivity.
  - unfold Schema.pending, Schema.recorded, Schema.ledger_rows.
    change (map fst (@nil (Z * string))) with (@nil Z) in E3.
    rewrite E3. reflexivity.
  - unfold Meta.dropAllRows, Db.write, Db.view.
    destruct (Db.working d); reflexivity.
Qed.

Lemma migrate_grows (applied : list Z) (fresh : bool)
      (ms : list Schema.Migration) :
  Forall (fun m => forall c c1, Schema.fn m c = Ok c1 ->
            forall x, Schema.has x (Schema.tables c) = true ->
                      Schema.has x (Schema.tables c1) = true) ms ->
  forall st x,
    Schema.has x (Schema.tables (Schema.cat st)) = true ->
    Schema.has x
      (Schema.tables (Schema.cat (fst (Schema.migrate applied fresh ms st))))
    = true.
Proof.
  induction ms as [|m r IH]; intros Hall st x Hx; simpl; [exact Hx|].
  inversion Hall as [|? ? Hm Hr]; subst.
  destruct (existsb (Z.eqb (Schema.id m)) applied); [now apply IH|].
  assert (Hrec : forall c1 s0,
            Schema.has x (Schema.tables c1) = true ->
            Schema.has x
              (Schema.tables
                 (Schema.cat
                    (fst match Schema.record m c1 with
                         | Ok c2 =>
                             Schema.migrate applied fresh r
                               (Schema.mkState c2
                                  (Schema.trace s0
                                   ++ [Schema.Recorded (Schema.id m)]))
                         | Err e => (Schema.mkState c1 (Schema.trace s0),
                                     Some e)
                         end))) = true).
  { intros c1 s0 H1. unfold Schema.record.
    destruct (Schema.recorded c1 (Schema.id m)); simpl; [exact H1|].
    now apply IH. }
  destruct fresh.
  - exact (Hrec (Schema.cat st) st Hx).
  - destruct (Schema.fn m (Schema.cat st)) as [c1|e] eqn:E; simpl;
      [|exact Hx].
    exact (Hrec c1
             (Schema.mkState (Schema.cat st)
                (Schema.trace st ++ [Schema.Executed (Schema.id m)]))
             (Hm _ _ E _ Hx)).
Qed.

Lemma shipped_migrations_grow :
  Forall (fun m => forall c c1, Schema.fn m c = Ok c1 ->
            forall x, Schema.has x (Schema.tables c) = true ->
                      Schema.has x (Schema.tables c1) = true)
         Schema.migrations.
Proof.
  repeat constructor; simpl; intros c c1 H x Hx.
  - destruct (negb (Schema.has "chunks" (Schema.tables c)));
      [discriminate|].
    destruct (Schema.has "is_error" (Schema.chunk_columns c));
      [discriminate|].
    injection H as <-. exact Hx.
  - injection H as <-. rewrite has_add_table, Hx. reflexivity.
Qed.

Lemma exec_schema_fixed (c : Schema.Catalog) :
  (forall x, Schema.has x ["sessions"; "chunks"; "metadata"; "chunks_fts"]
             = true ->
             Schema.has x (Schema.tables c) = true) ->
  Schema.exec_schema c = c.
Proof.
  intros H. unfold Schema.exec_schema. cbv zeta.
  assert (Hs : Schema.add_table "sessions" c = c).
  { unfold Schema.add_table. now rewrite (H "sessions"%string eq_refl). }
  rewrite Hs, (H "chunks"%string eq_refl).
  assert (Hm : Schema.add_table "metadata" c = c).
  { unfold Schema.add_table. now rewrite (H "metadata"%string eq_refl). }
  rewrite Hm. unfold Schema.add_table.
  now rewrite (H "chunks_fts"%string eq_refl).
Qed.

(** X13: opening is idempotent.  Once [openDatabase] has returned
    normally on a store, opening that store again runs no migration body,
    writes no ledger row, changes nothing in the catalog and does not
    fail; nothing is left pending. *)
Theorem openDatabase_twice (c : Schema.Catalog) :
  snd (Schema.openDatabase c) = None ->
  let c' := Schema.cat (fst (Schema.openDatabase c)) in
  Schema.openDatabase c' = (Schema.mkState c' [], None)
  /\ Schema.pending c' = [].
Proof.
  unfold Schema.openDatabase at 1 2.
  unfold Schema.runMigrations, Schema.runMigrationsWith. cbv zeta.
  set (e := Schema.exec_schema c).
  set (c1 := match Schema.ledger e with
             | Some _ => e
             | None => Schema.mkCatalog (Schema.tables e)
                         (Schema.chunk_columns e) (Some [])
             end).
  assert (Hl : Schema.ledger c1 = Some (Schema.ledger_rows c1)).
  { subst c1. unfold Schema.ledger_rows.
    destruct (Schema.ledger e) eqn:E; simpl; [now rewrite E|reflexivity]. }
  assert (Ht : Schema.tables c1 = Schema.tables e).
  { subst c1. now destruct (Schema.ledger e). }
  assert (Hch : Schema.has "chunks" (Schema.tables c1) = true).
  { rewrite Ht. apply exec_schema_has_chunks. }
  set (l := Schema.ledger_rows c1) in *.
  pose proof (migrate_shipped c1 l (Schema.isFresh c) Hl Hch) as Hship.
  pose proof (migrate_grows (map fst l) (Schema.isFresh c) Schema.migrations
                shipped_migrations_grow (Schema.mkState c1 [])) as Hgrow.
  cbv zeta in Hship.
  set (out := Schema.migrate (map fst l) (Schema.isFresh c)
                Schema.migrations (Schema.mkState c1 [])) in *.
  intros Hok.
  assert (Hrows : exists L,
            Schema.ledger (Schema.cat (fst out)) = Some L
            /\ existsb (fun r => fst r =? 1) L = true
            /\ existsb (fun r => fst r =? 2) L = true).
  { destruct Hship as (F & G & B).
    assert (Hled : Schema.ledger (Schema.cat (fst out))
              = Some (l ++ map (fun m => (Schema.id m, Schema.description m))
                        (filter (fun m =>
                           negb (existsb (fun r => fst r =? Schema.id m) l))
                           Schema.migrations))).
    { destruct (Schema.isFresh c).
      - now apply F.
      - destruct (existsb (fun r => fst r =? 1) l) eqn:E1.
        + apply G; auto.
        + destruct (Schema.has "is_error" (Schema.chunk_columns c1)) eqn:E2.
          * destruct (B eq_refl eq_refl eq_refl) as [Bad _]. congruence.
          * apply G; auto. }
    eexists. split; [exact Hled|].
    rewrite !existsb_app. simpl.
    destruct (existsb (fun r => fst r =? 1) l),
      (existsb (fun r => fst r =? 2) l); simpl; auto. }
  destruct Hrows as (L & HL & H1 & H2).
  assert (Hfour : forall x,
            Schema.has x ["sessions"; "chunks"; "metadata"; "chunks_fts"]
            = true ->
            Schema.has x (Schema.tables (Schema.cat (fst out))) = true).
  { intros x Hx. apply Hgrow. simpl. rewrite Ht. subst e.
    rewrite exec_schema_tables, Hx. apply orb_true_r. }
  set (c' := Schema.cat (fst out)) in *. clearbody c'. clear Hship.
  split.
  - unfold Schema.openDatabase, Schema.runMigrations,
      Schema.runMigrationsWith.
    rewrite (exec_schema_fixed c' Hfour). cbv zeta. rewrite HL.
    unfold Schema.ledger_rows. rewrite HL. simpl.
    rewrite !applied_recorded, H1, H2. reflexivity.
  - unfold Schema.pending, Schema.recorded, Schema.ledger_rows.
    rewrite HL. simpl. now rewrite H1, H2.
Qed.

Lemma openDatabase_twice_witness :
  let c' := Schema.cat (fst (Schema.openDatabase Sample.legacyStore)) in
  Schema.openDatabase c' = (Schema.mkState c' [], None)
  /\ Schema.pending c' = [].
Proof.
  apply (openDatabase_twice Sample.legacyStore). reflexivity.
Defined.

(** ** Search *)

Lemma slice0_In (A : Type) (n : Z) (l : list A) (x : A) :
  In x (Js.slice0 n l) -> In x l.
Proof. unfold Js.slice0. apply firstn_In. Qed.

Lemma sql_limit_In (A : Type) (n : Z) (l : list A) (x : A) :
  In x (Js.sql_limit n l) -> In x l.
Proof.
  unfold Js.sql_limit. destruct (n <? 0); [auto|apply firstn_In].
Qed.

Lemma ranked_origin
      (bm25 : string -> list Db.StoredChunk -> Db.StoredChunk
              -> option (Z * string))
      (t : Db.Tables) (o : Opt.SearchOptions) (q : string)
      (r : Query.SearchResult) :
  In r (Query.ranked bm25 t o q) ->
  exists s c, In s (Db.sessions t) /\ In c (Db.chunks t)
              /\ Db.session_id c = Db.id s
              /\ Spec.describes s r
              /\ Query.session_ok o s = true
              /\ Query.kind_ok o c = true /\ Query.tool_ok o c = true
              /\ Query.path_ok o c = true
              /\ Query.status_ok o t (Db.id s) = true.
Proof.
  unfold Query.ranked. cbv zeta. intros Hin.
  apply sort_In in Hin.
  apply (proj1 (proj2 (grouped_best _ _))) in Hin.
  apply candidates_In in Hin as (row & sd & Hrow & _ & ->).
  apply matchRows_In in Hrow
    as (s & c & Hs & Hc & Hid & _ & H1 & H2 & H3 & H4 & H5 & ->).
  exists s, c. repeat split; auto.
Qed.

Lemma search_origin
      (bm25 : string -> list Db.StoredChunk -> Db.StoredChunk
              -> option (Z * string))
      (d : Db.Database) (q : string) (o : Opt.SearchOptions)
      (res : list Query.SearchResult) :
  Query.search bm25 d q o = Ok res ->
  forall r, In r res ->
    exists s, In s (Db.sessions (Db.view d))
              /\ Spec.describes s r
              /\ Query.session_ok o s = true.
Proof.
  unfold Query.search. intros H r Hr.
  destruct (Js.isBlank q); [discriminate|].
  destruct (String.eqb q "*").
  - destruct (Query.hasFilters o); [|discriminate].
    injection H as <-. unfold Query.listAllSessions in Hr.
    apply in_map_iff in Hr as (row & <- & Hrow).
    apply sql_limit_In in Hrow. unfold Query.listed in Hrow.
    apply sort_In in Hrow.
    apply listRows_In in Hrow as (s & Hs & -> & Hok).
    exists s. repeat split; auto.
  - destruct (Query.ftsResults bm25 (Db.view d) (Query.escapeFtsQuery q));
      injection H as <-; [destruct Hr|].
    apply slice0_In in Hr.
    apply ranked_origin in Hr as (s & c & Hs & _ & _ & Hd & Hok & _).
    exists s. auto.
Qed.

(** X14: a session that was deleted is never returned by [search], in
    either mode and under any options. *)
Theorem deleted_session_is_not_found
        (bm25 : string -> list Db.StoredChunk -> Db.StoredChunk
                -> option (Z * string))
        (d : Db.Database) (sid q : string) (o : Opt.SearchOptions)
        (res : list Query.SearchResult) :
  Query.search bm25 (Db.deleteSession d sid) q o = Ok res ->
  Forall (fun r => Query.sessionId r <> sid) res.
Proof.
  intros H. apply Forall_forall. intros r Hr.
  destruct (search_origin bm25 _ q o res H r Hr) as (s & Hs & Hd & _).
  rewrite view_deleteSession in Hs. simpl in Hs.
  apply filter_In in Hs as [_ Hne].
  apply negb_true_iff, String.eqb_neq in Hne.
  destruct Hd as [-> _]. exact Hne.
Qed.

Lemma deleted_session_is_not_found_witness :
  Forall (fun r => Query.sessionId r <> "alpha"%string)
         [Query.mkSearchResult "beta" "pi" "/path/to/beta.jsonl"
            (Some "/home/u/my-app"%string) (Some ""%string) (-1)
            (Some "2026-02-01T10:00:00Z"%string)
            (Some "2026-02-01T10:00:00Z"%string)
            "database mentioned in passing"].
Proof.
  apply (deleted_session_is_not_found Sample.bm25 Sample.store "alpha"
           "database" Opt.none).
  reflexivity.
Defined.

Lemma leb_of_extension (b rest : string) (c : ascii) :
  String.leb (b ++ String c rest) b = false.
Proof.
  unfold String.leb.
  induction b as [|a b IH]; simpl; [reflexivity|].
  rewrite ascii_compare_refl. exact IH.
Qed.

(** X15: the date bounds are compared as text with the stored creation
    time.  Under [after] every result has a creation time that is not
    below the bound, and under [before] one that is not above it; a
    session without creation time is never returned under either bound;
    and since a longer text is above its prefix, a [before] bound given
    as a bare date leaves out every session created on that date with a
    time of day. *)
Theorem date_bounds_compare_as_text
        (bm25 : string -> list Db.StoredChunk -> Db.StoredChunk
                -> option (Z * string))
        (d : Db.Database) (q : string) (o : Opt.SearchOptions)
        (res : list Query.SearchResult) :
  Query.search bm25 d q o = Ok res ->
  forall r, In r res ->
    (forall a, Js.truthy (Opt.after o) = Some a ->
       exists t, Query.createdAt r = Some t /\ String.leb a t = true)
    /\ (forall b, Js.truthy (Opt.before o) = Some b ->
          exists t, Query.createdAt r = Some t /\ String.leb t b = true
                    /\ forall c rest, t <> (b ++ String c rest)%string).
Proof.
  intros H r Hr.
  destruct (search_origin bm25 d q o res H r Hr) as (s & _ & Hd & Hok).
  destruct Hd as (_ & _ & _ & _ & _ & Hc & _).
  unfold Query.session_ok in Hok.
  apply andb_true_iff in Hok as [Hok _].
  apply andb_true_iff in Hok as [Hok Hb].
  apply andb_true_iff in Hok as [_ Ha].
  unfold Query.after_ok in Ha. unfold Query.before_ok in Hb.
  rewrite Hc. split.
  - intros a Hsome. rewrite Hsome in Ha. unfold Js.text_ge in Ha.
    destruct (Db.created_at s) as [t|]; [|discriminate].
    exists t. now split.
  - intros b Hsome. rewrite Hsome in Hb. unfold Js.text_le in Hb.
    destruct (Db.created_at s) as [t|]; [|discriminate].
    exists t. repeat split; auto.
    intros c rest ->. rewrite leb_of_extension in Hb. discriminate.
Qed.

Lemma date_bounds_compare_as_text_witness :
  let r := Query.listResult (Query.select Sample.gamma) in
  (forall a, Js.truthy (Opt.after (More.until "2026-02-01")) = Some a ->
     exists t, Query.createdAt r = Some t /\ String.leb a t = true)
  /\ (forall b, Js.truthy (Opt.before (More.until "2026-02-01")) = Some b ->
        exists t, Query.createdAt r = Some t /\ String.leb t b = true
                  /\ forall c rest, t <> (b ++ String c rest)%string).
Proof.
  exact (date_bounds_compare_as_text Sample.bm25 Sample.store "*"
           (More.until "2026-02-01")
           [Query.listResult (Query.select Sample.gamma)] eq_refl
           (Query.listResult (Query.select Sample.gamma))
           (or_introl eq_refl)).
Defined.

Lemma status_ok_unscoped (o : Opt.SearchOptions) (t : Db.Tables)
      (sid : string) :
  Query.tool_scoped o = false -> Query.status_ok o t sid = true.
Proof.
  intros H. unfold Query.status_ok. rewrite H.
  now destruct (Opt.status o).
Qed.

Lemma matchRows_without_scope (t : Db.Tables) (o : Opt.SearchOptions)
      (st : option Opt.Status) (fr : list Query.FtsRow) :
  Query.tool_scoped o = false ->
  Query.matchRows t (More.with_status o st) fr = Query.matchRows t o fr.
Proof.
  intros H. unfold Query.matchRows. f_equal.
  apply flat_map_ext. intros c. apply flat_map_ext. intros s.
  rewrite (status_ok_unscoped o t (Db.id s) H).
  rewrite (status_ok_unscoped (More.with_status o st) t (Db.id s) H).
  reflexivity.
Qed.

(** X16: options that are silently ignored.  Without [toolsOnly] and
    [toolName] the [status] option changes nothing in either mode, and in
    listing mode the [pathFilter] option changes nothing at all. *)
Theorem ignored_options
        (bm25 : string -> list Db.StoredChunk -> Db.StoredChunk
                -> option (Z * string))
        (d : Db.Database) (q : string) (o : Opt.SearchOptions)
        (st : option Opt.Status) (p : option string) :
  (Query.tool_scoped o = false ->
   Query.search bm25 d q (More.with_status o st) = Query.search bm25 d q o)
  /\ Query.search bm25 d "*" (More.with_pathFilter o p)
     = Query.search bm25 d "*" o.
Proof.
  split; [|reflexivity].
  intros H. unfold Query.search.
  destruct (Js.isBlank q); [reflexivity|].
  destruct (String.eqb q "*").
  - change (Query.hasFilters (More.with_status o st))
      with (Query.hasFilters o).
    destruct (Query.hasFilters o); [|reflexivity].
    unfold Query.listAllSessions, Query.listed, Query.listRows.
    change (Query.tool_scoped (More.with_status o st))
      with (Query.tool_scoped o).
    rewrite H. reflexivity.
  - unfold Query.ranked. cbv zeta.
    rewrite (matchRows_without_scope _ o st _ H). reflexivity.
Qed.

Lemma ranked_of_no_hits
      (bm25 : string -> list Db.StoredChunk -> Db.StoredChunk
              -> option (Z * string))
      (t : Db.Tables) (o : Opt.SearchOptions) (q : string) :
  Query.ftsResults bm25 t (Query.escapeFtsQuery q) = [] ->
  Query.ranked bm25 t o q = [].
Proof.
  intros H. unfold Query.ranked. cbv zeta. rewrite H, matchRows_nil.
  reflexivity.
Qed.

(** X17: the limit at its edges.  In full-text mode a limit of 0 gives no
    result; in listing mode it gives no result when another filter is set
    and the missing-filter error otherwise.  A negative limit means no
    limit in listing mode, but in full-text mode it drops that many
    results from the end of the ranking. *)
Theorem limit_edge_cases
        (bm25 : string -> list Db.StoredChunk -> Db.StoredChunk
                -> option (Z * string))
        (d : Db.Database) (q : string) (o : Opt.SearchOptions) (n : Z) :
  Js.isBlank q = false ->
  String.eqb q "*" = false ->
  Query.search bm25 d q (More.with_limit o (Some 0)) = Ok []
  /\ Query.search bm25 d "*" (More.with_limit o (Some 0))
     = (if Query.hasFilters (More.with_limit o (Some 0)) then Ok []
        else Err Query.no_filter_message)
  /\ (n < 0 ->
      Query.search bm25 d "*" (More.with_limit o (Some n))
      = Ok (map Query.listResult (Query.listed (Db.view d) o))
      /\ Query.search bm25 d q (More.with_limit o (Some n))
         = Ok (firstn
                 (List.length (Query.ranked bm25 (Db.view d) o q)
                  - Z.to_nat (- n))
                 (Query.ranked bm25 (Db.view d) o q))).
Proof.
  intros Hb Hq. split; [|split].
  - unfold Query.search. rewrite Hb, Hq.
    destruct (Query.ftsResults _ _ _); [reflexivity|].
    unfold Js.slice0. simpl Query.limit_of. cbv zeta.
    change (0 <? 0) with false. cbv iota.
    rewrite Z.min_l by apply Nat2Z.is_nonneg. reflexivity.
  - unfold Query.search. simpl.
    destruct (Query.hasFilters (More.with_limit o (Some 0)));
      reflexivity.
  - intros Hn. split.
    + unfold Query.search. simpl.
      assert (Hf : Query.hasFilters (More.with_limit o (Some n)) = true).
      { unfold Query.hasFilters.
        change (Query.limit_of (More.with_limit o (Some n))) with n.
        destruct (Z.eqb_spec n 0); [lia|]. apply orb_true_r. }
      rewrite Hf. unfold Query.listAllSessions, Js.sql_limit.
      change (Query.limit_of (More.with_limit o (Some n))) with n.
      destruct (Z.ltb_spec n 0); [reflexivity|lia].
    + unfold Query.search. rewrite Hb, Hq.
      change (Query.ranked bm25 (Db.view d) (More.with_limit o (Some n)) q)
        with (Query.ranked bm25 (Db.view d) o q).
      destruct (Query.ftsResults bm25 (Db.view d) (Query.escapeFtsQuery q))
        eqn:E.
      * rewrite (ranked_of_no_hits bm25 _ o q E). reflexivity.
      * f_equal. unfold Js.slice0.
        change (Query.limit_of (More.with_limit o (Some n))) with n.
        cbv zeta. destruct (Z.ltb_spec n 0); [|lia]. f_equal. lia.
Qed.

Lemma limit_edge_cases_witness :
  Query.search Sample.bm25 Sample.store "database"
    (More.with_limit Opt.none (Some 0)) = Ok []
  /\ Query.search Sample.bm25 Sample.store "*"
       (More.with_limit Opt.none (Some 0))
     = Err Query.no_filter_message
  /\ (-1 < 0 ->
      Query.search Sample.bm25 Sample.store "*"
        (More.with_limit Opt.none (Some (-1)))
      = Ok (map Query.listResult
              (Query.listed (Db.view Sample.store) Opt.none))
      /\ Query.search Sample.bm25 Sample.store "database"
           (More.with_limit Opt.none (Some (-1)))
         = Ok (firstn
                 (List.length
                    (Query.ranked Sample.bm25 (Db.view Sample.store)
                       Opt.none "database")
                  - Z.to_nat (- -1))
                 (Query.ranked Sample.bm25 (Db.view Sample.store)
                    Opt.none "database"))).
Proof.
  exact (limit_edge_cases Sample.bm25 Sample.store "database" Opt.none (-1)
           eq_refl eq_refl).
Defined.

Lemma like_percent (s : string) : Js.like "%" s = true.
Proof.
  simpl. induction s as [|a s IH]; [reflexivity|exact IH].
Qed.

Lemma like_plain_prefix (p : string) :
  More.plain p = true ->
  forall s, Js.like (p ++ "%") s = More.startsWithNoCase p s.
Proof.
  induction p as [|c p IH]; intros Hp s.
  - apply like_percent.
  - simpl in Hp. apply andb_true_iff in Hp as [Hc Hp].
    apply andb_true_iff in Hc as [H1 H2].
    apply negb_true_iff in H1, H2.
    cbn [String.append Js.like]. rewrite H1, H2.
    destruct s as [|d s]; [reflexivity|].
    simpl. now rewrite IH.
Qed.

Lemma startsWithNoCase_append (p rest : string) :
  More.startsWithNoCase p (p ++ rest) = true.
Proof.
  induction p as [|c p IH]; simpl; [reflexivity|].
  now rewrite Ascii.eqb_refl.
Qed.

(** X18: for a [cwd] option that holds neither [%] nor [_] the filter is
    a prefix test up to ASCII case: a session passes exactly when its cwd
    is stored and begins with the option's text, letters compared without
    case.  Every session whose cwd literally begins with the text passes;
    a session without cwd does not. *)
Theorem cwd_filter_on_plain_text (o : Opt.SearchOptions) (p : string) :
  Js.truthy (Opt.cwd o) = Some p ->
  More.plain p = true ->
  forall s,
    Query.cwd_ok o s
    = match Db.cwd s with
      | Some dir => More.startsWithNoCase p dir
      | None => false
      end
    /\ (forall rest, Db.cwd s = Some (p ++ rest)%string ->
                     Query.cwd_ok o s = true).
Proof.
  intros Ho Hp s. unfold Query.cwd_ok. rewrite Ho. unfold Js.like_opt.
  split.
  - destruct (Db.cwd s); [now apply like_plain_prefix|reflexivity].
  - intros rest ->. rewrite like_plain_prefix by exact Hp.
    apply startsWithNoCase_append.
Qed.

Lemma cwd_filter_on_plain_text_witness :
  Query.cwd_ok (Sample.inProject "/SRV") Sample.gamma
  = match Db.cwd Sample.gamma with
    | Some dir => More.startsWithNoCase "/SRV" dir
    | None => false
    end
  /\ (forall rest, Db.cwd Sample.gamma = Some ("/SRV" ++ rest)%string ->
                   Query.cwd_ok (Sample.inProject "/SRV") Sample.gamma
                   = true).
Proof.
  exact (cwd_filter_on_plain_text (Sample.inProject "/SRV") "/SRV"
           eq_refl eq_refl Sample.gamma).
Defined.

Lemma tokens_aux_none (ps : list Js.Piece) :
  forall cur,
    Js.tokens_aux ps cur = []
    <-> cur = ""%string /\ forallb Js.is_space ps = true.
Proof.
  induction ps as [|p r IH]; intros cur; simpl.
  - destruct (String.eqb_spec cur ""); split; intros H;
      try tauto; try discriminate.
  - destruct p; simpl.
    + destruct (String.eqb_spec cur "") as [->|Hne].
      * rewrite IH. tauto.
      * split; [discriminate|]. intros [? _]. contradiction.
    + rewrite IH. split; [|intros [_ H]; discriminate].
      intros [H _]. destruct cur; discriminate.
Qed.

(** X19: [escapeFtsQuery] gives the empty text exactly on a blank query,
    so [search], which rejects blank queries first, never hands the
    full-text engine an empty expression: what it hands over begins with
    a double quote, and no phrase in it comes from an empty token. *)
Theorem escapeFtsQuery_of_blank (q : string) :
  (Js.isBlank q = true <-> Query.escapeFtsQuery q = ""%string)
  /\ (Js.isBlank q = false ->
      exists rest, Query.escapeFtsQuery q = (Js.dquote ++ rest)%string)
  /\ Forall (fun token => token <> ""%string) (Js.tokens q).
Proof.
  assert (Hnil : Js.tokens q = [] <-> Js.isBlank q = true).
  { unfold Js.tokens, Js.isBlank. rewrite tokens_aux_none. tauto. }
  assert (Hhead : forall l,
            l <> [] ->
            exists rest,
              String.concat " "
                (map (fun token =>
                        (Js.dquote ++ Query.double_quotes token
                         ++ Js.dquote)%string) l)
              = (Js.dquote ++ rest)%string).
  { intros [|x [|y l]] Hl; [congruence| |]; simpl; eauto. }
  split; [|split].
  - unfold Query.escapeFtsQuery. split.
    + intros H. apply Hnil in H. now rewrite H.
    + intros H. apply Hnil.
      destruct (Js.tokens q) as [|x l]; [reflexivity|].
      destruct (Hhead (x :: l) ltac:(discriminate)) as (rest & E).
      rewrite E in H. discriminate.
  - intros Hb. apply Hhead. intros E. apply Hnil in E. congruence.
  - unfold Js.tokens.
    assert (Hgen : forall ps cur,
              Forall (fun token => token <> ""%string)
                     (Js.tokens_aux ps cur)).
    { induction ps as [|p r IH]; intros cur; simpl.
      - destruct (String.eqb_spec cur ""); repeat constructor; auto.
      - destruct p; [|apply IH].
        destruct (String.eqb_spec cur ""); [apply IH|].
        constructor; [auto|apply IH]. }
    apply Hgen.
Qed.

Lemma looksIso_of_digits (ds : string) (u : DateUtil.Unit) :
  More.allDigits ds = true ->
  DateUtil.looksIso (ds ++ More.unitChar u) = false.
Proof.
  intros H.
  destruct ds as [|a [|b [|c [|d [|e ds]]]]];
    try (destruct u; reflexivity).
  simpl in H.
  repeat (apply andb_true_iff in H as [? H]).
  cbn [String.append DateUtil.looksIso].
  assert (He : DateUtil.isDash e = false).
  { unfold DateUtil.isDigit, DateUtil.isDash in *.
    match goal with
    | Hd : (Nat.leb 48 (Js.byte e) && _)%bool = true |- _ =>
        apply andb_true_iff in Hd as [Hd _]; apply Nat.leb_le in Hd
    end.
    apply Nat.eqb_neq. lia. }
  destruct (ds ++ More.unitChar u)%string as [|f [|g [|h [|i [|j r]]]]];
    try reflexivity.
  rewrite He. now rewrite !andb_false_r.
Qed.

Lemma relative_of_digits (ds : string) (u : DateUtil.Unit) :
  ds <> ""%string ->
  More.allDigits ds = true ->
  DateUtil.relative (ds ++ More.unitChar u) = Some (ds, u).
Proof.
  induction ds as [|a ds IH]; intros Hne H; [congruence|].
  simpl in H. apply andb_true_iff in H as [Ha H].
  destruct ds as [|b ds].
  - cbn [String.append DateUtil.relative]. rewrite Ha.
    destruct u; reflexivity.
  - assert (IH' := IH ltac:(discriminate) H).
    change ((String a (String b ds) ++ More.unitChar u)%string)
      with (String a (String b ds ++ More.unitChar u)%string).
    remember (String b ds ++ More.unitChar u)%string as tail eqn:Et.
    destruct tail as [|x [|y tail]].
    + discriminate.
    + destruct ds; destruct u; discriminate.
    + cbn [DateUtil.relative]. rewrite Ha.
      cbn [DateUtil.relative] in IH'. rewrite IH'. reflexivity.
Qed.

Lemma relative_step (a b c : ascii) (s : string) :
  DateUtil.relative (String a (String b (String c s)))
  = if DateUtil.isDigit a then
      match DateUtil.relative (String b (String c s)) with
      | Some (ds, x) => Some (String a ds, x)
      | None => None
      end
    else None.
Proof. reflexivity. Qed.

Lemma relative_shape (s : string) :
  forall ds u,
    DateUtil.relative s = Some (ds, u) ->
    s = (ds ++ More.unitChar u)%string
    /\ More.allDigits ds = true /\ ds <> ""%string.
Proof.
  induction s as [|a s IH]; intros ds u H; [discriminate|].
  destruct s as [|b s]; [discriminate|].
  destruct s as [|c s].
  - cbn [DateUtil.relative] in H.
    destruct (DateUtil.isDigit a) eqn:Ha; [|discriminate].
    unfold DateUtil.unitOf in H.
    destruct (Ascii.eqb_spec b "d") as [->|];
      [injection H as <- <-; simpl; rewrite Ha; repeat split; discriminate|].
    destruct (Ascii.eqb_spec b "w") as [->|];
      [injection H as <- <-; simpl; rewrite Ha; repeat split; discriminate|].
    destruct (Ascii.eqb_spec b "m") as [->|];
      [injection H as <- <-; simpl; rewrite Ha; repeat split; discriminate|].
    discriminate.
  - rewrite relative_step in H.
    destruct (DateUtil.isDigit a) eqn:Ha; [|discriminate].
    destruct (DateUtil.relative (String b (String c s)))
      as [[ds' u']|] eqn:E; [|discriminate].
    injection H as <- <-.
    destruct (IH ds' u' eq_refl) as (Es & Hd & Hne).
    repeat split.
    + simpl. now rewrite <- Es.
    + simpl. now rewrite Ha, Hd.
    + discriminate.
Qed.

(** X20: [parseRelativeDate].  Text that begins like an ISO date is
    returned as it is, whatever follows the date and whether or not it
    names a real day; digits followed by one of [d], [w], [m] go to the
    date arithmetic with those digits and that unit; nothing else is
    accepted: every other input, the empty one included, raises the
    invalid-format error that quotes the input. *)
Theorem parseRelativeDate_cases
        (ago : DateUtil.Unit -> string -> Result string) (input : string) :
  (DateUtil.looksIso input = true ->
   DateUtil.parseRelativeDate ago input = Ok input)
  /\ (forall ds u, ds <> ""%string -> More.allDigits ds = true ->
        DateUtil.parseRelativeDate ago (ds ++ More.unitChar u) = ago u ds)
  /\ (DateUtil.looksIso input = false ->
      (forall ds u, ds <> ""%string -> More.allDigits ds = true ->
                    input <> (ds ++ More.unitChar u)%string) ->
      DateUtil.parseRelativeDate ago input
      = Err (DateUtil.invalid input))
  /\ DateUtil.parseRelativeDate ago "2026-02-31 or so"
     = Ok "2026-02-31 or so"%string.
Proof.
  unfold DateUtil.parseRelativeDate. split; [|split; [|split]].
  - now intros ->.
  - intros ds u Hne Hd.
    now rewrite (looksIso_of_digits ds u Hd), (relative_of_digits ds u Hne Hd).
  - intros -> Hnot.
    destruct (DateUtil.relative input) as [[ds u]|] eqn:E; [|reflexivity].
    destruct (relative_shape input ds u E) as (Es & Hd & Hne).
    exfalso. exact (Hnot ds u Hne Hd Es).
  - reflexivity.
Qed.

(** ** From a file to a search result *)

(** X21: a session file that the quick check does not skip (its first
    line is well formed, and the id read there, if any, is not stored
    with the file's mtime) is listed once it has been indexed, provided
    it parses, its chunks are built without a throw, the write meets no
    failure and the binding takes the chunks (the store runs on
    [bun:sqlite], or the file yields no chunk): the session list of
    [search] with no limit and no tool scope holds the row built from the
    parsed session and the file's path whenever that row passes the
    session filters. *)
Theorem indexed_session_is_listed
        (rt : Db.Runtime) (fmt : Session.ToolCall -> Result string)
        (bm25 : string -> list Db.StoredChunk -> Db.StoredChunk
                -> option (Z * string))
        (st : Indexer.State) (f : Indexer.File) (m : Z)
        (ps : Session.ParsedSession) (cs : list Db.StoredChunk)
        (o : Opt.SearchOptions) :
  Db.working (Indexer.db st) = None ->
  Indexer.canParse f = true ->
  Indexer.mtimeMs f = Some m ->
  Indexer.header f <> Indexer.Malformed ->
  (forall sid, Indexer.header f = Indexer.HeaderId (Some sid) ->
               Db.getSessionMtime (Indexer.db st) sid <> Some m) ->
  Indexer.parse f = Ok ps ->
  Indexer.buildChunks fmt (Session.id ps) (Session.turns ps) 0 = Ok cs ->
  Indexer.writeFault f = None ->
  rt = Db.Bun \/ cs = [] ->
  Query.tool_scoped o = false ->
  Query.limit_of o < 0 ->
  Query.session_ok o (Indexer.storedSession f ps m) = true ->
  exists res,
    Query.search bm25 (Indexer.db (Indexer.indexFile rt fmt st f)) "*" o
    = Ok res
    /\ In (Query.listResult (Query.select (Indexer.storedSession f ps m)))
          res.
Proof.
  intros Hw Hc Hm Hh Hq Hp Hb Hf Hrt Hscope Hlim Hok.
  rewrite (indexFile_reindex rt fmt st f m Hc Hm Hh Hq).
  destruct (reindex_settled rt fmt st f m ps cs Hw Hp Hb Hf Hrt)
    as (_ & _ & _ & _ & Hin).
  assert (Hfil : Query.hasFilters o = true).
  { unfold Query.hasFilters.
    destruct (Z.eqb_spec (Query.limit_of o) 0); [lia|apply orb_true_r]. }
  unfold Query.search. simpl. rewrite Hfil.
  eexists. split; [reflexivity|].
  unfold Query.listAllSessions, Js.sql_limit.
  destruct (Z.ltb_spec (Query.limit_of o) 0); [|lia].
  apply in_map. unfold Query.listed. apply sort_In.
  apply listRows_spec. exists (Indexer.storedSession f ps m).
  repeat split; auto. intros E. congruence.
Qed.

Lemma indexed_session_is_listed_witness :
  exists res,
    Query.search Sample.bm25
      (Indexer.db (Indexer.indexFile Db.Bun Sample.fmt Sample.indexedOnce
                     (Sample.file "s1" 2000)))
      "*" (More.with_limit Opt.none (Some (-1)))
    = Ok res
    /\ In (Query.listResult
             (Query.select
                (Indexer.storedSession (Sample.file "s1" 2000)
                   (Sample.parsed "s1") 2000)))
          res.
Proof.
  eapply (indexed_session_is_listed Db.Bun Sample.fmt Sample.bm25
            Sample.indexedOnce (Sample.file "s1" 2000) 2000
            (Sample.parsed "s1") _
            (More.with_limit Opt.none (Some (-1))));
    try reflexivity.
  - discriminate.
  - intros sid E. injection E as <-. discriminate.
  - now left.
Defined.

Lemma search_scoped_origin
      (bm25 : string -> list Db.StoredChunk -> Db.StoredChunk
              -> option (Z * string))
      (d : Db.Database) (q : string) (o : Opt.SearchOptions)
      (res : list Query.SearchResult) :
  Query.tool_scoped o = true ->
  Query.search bm25 d q o = Ok res ->
  forall r, In r res ->
    exists c, In c (Db.chunks (Db.view d))
              /\ Db.session_id c = Query.sessionId r
              /\ Query.kind_ok o c = true /\ Query.tool_ok o c = true
              /\ Query.status_ok o (Db.view d) (Query.sessionId r) = true.
Proof.
  unfold Query.search. intros Hscope H r Hr.
  destruct (Js.isBlank q); [discriminate|].
  destruct (String.eqb q "*").
  - destruct (Query.hasFilters o); [|discriminate].
    injection H as <-. unfold Query.listAllSessions in Hr.
    apply in_map_iff in Hr as (row & <- & Hrow).
    apply sql_limit_In in Hrow. unfold Query.listed in Hrow.
    apply sort_In in Hrow.
    apply listRows_spec in Hrow as (s & _ & -> & _ & Hrow).
    destruct (Hrow Hscope) as (c & Hc & Hid & H1 & H2 & H3).
    exists c. simpl. auto.
  - destruct (Query.ftsResults bm25 (Db.view d) (Query.escapeFtsQuery q));
      injection H as <-; [destruct Hr|].
    apply slice0_In in Hr.
    apply ranked_origin in Hr
      as (s & c & _ & Hc & Hid & Hd & _ & H1 & H2 & _ & H3).
    destruct Hd as [-> _]. exists c. auto.
Qed.

(** X22: under [toolsOnly] or [toolName] every returned session owns a
    stored chunk that passes the chunk tests: a tool call when
    [toolsOnly] is set, and of the named tool when [toolName] is set; a
    session without such a chunk is never returned, in either mode. *)
Theorem tool_scope_needs_a_matching_chunk
        (bm25 : string -> list Db.StoredChunk -> Db.StoredChunk
                -> option (Z * string))
        (d : Db.Database) (q : string) (o : Opt.SearchOptions)
        (res : list Query.SearchResult) :
  Query.tool_scoped o = true ->
  Query.search bm25 d q o = Ok res ->
  forall r, In r res ->
    exists c, In c (Db.chunks (Db.view d))
              /\ Db.session_id c = Query.sessionId r
              /\ (Opt.toolsOnly o = Some true ->
                  Db.kind c = "tool_call"%string)
              /\ (forall tn, Js.truthy (Opt.toolName o) = Some tn ->
                             Db.tool_name c = Some tn).
Proof.
  intros Hscope H r Hr.
  destruct (search_scoped_origin bm25 d q o res Hscope H r Hr)
    as (c & Hc & Hid & Hk & Ht & _).
  exists c. repeat split; auto.
  - intros Hto. unfold Query.kind_ok, Query.toolsOnly_of in Hk.
    rewrite Hto in Hk. now apply String.eqb_eq.
  - intros tn Htn. unfold Query.tool_ok in Ht. rewrite Htn in Ht.
    unfold Js.opt_eqb in Ht.
    destruct (Db.tool_name c) as [x|]; [|discriminate].
    apply String.eqb_eq in Ht. now subst.
Qed.

Lemma tool_scope_needs_a_matching_chunk_witness :
  exists c,
    In c (Db.chunks
            (Db.view (Indexer.db (Indexer.indexSessions Db.Bun More.fmt
                                    Sample.emptyDb More.piDir))))
    /\ Db.session_id c = "p1"%string
    /\ (Opt.toolsOnly More.onlyTools = Some true ->
        Db.kind c = "tool_call"%string)
    /\ (forall tn, Js.truthy (Opt.toolName More.onlyTools) = Some tn ->
                   Db.tool_name c = Some tn).
Proof.
  exact (tool_scope_needs_a_matching_chunk Sample.bm25
           (Indexer.db (Indexer.indexSessions Db.Bun More.fmt Sample.emptyDb
                          More.piDir))
           "*" More.onlyTools
           [Query.mkSearchResult "p1" "pi" "/sessions/proj/p1.jsonl"
              (Some "/proj"%string) None 0
              (Some "2026-01-15T10:00:00Z"%string)
              (Some "2026-01-15T11:00:00Z"%string) "(recent session)"]
           eq_refl eq_refl
           (Query.mkSearchResult "p1" "pi" "/sessions/proj/p1.jsonl"
              (Some "/proj"%string) None 0
              (Some "2026-01-15T10:00:00Z"%string)
              (Some "2026-01-15T11:00:00Z"%string) "(recent session)")
           (or_introl eq_refl)).
Defined.

Lemma buildChunks_no_status (fmt : Session.ToolCall -> Result string)
      (sid : string) (ts : list Session.Turn) :
  forall n cs, Indexer.buildChunks fmt sid ts n = Ok cs ->
    forall c, In c cs -> Db.is_error c = None.
Proof.
  assert (Htool : forall tcs n cs n',
            Indexer.toolChunks fmt sid tcs n = Ok (cs, n') ->
            forall c, In c cs -> Db.is_error c = None).
  { induction tcs as [|tc r IH]; intros n cs n'; simpl.
    - intros [= <- _] c [].
    - destruct (fmt tc) as [content|e]; [|discriminate].
      destruct (Js.isBlank content); [apply IH|].
      destruct (Indexer.toolChunks fmt sid r (n + 1)) as [[cs1 n1]|e] eqn:E;
        [|discriminate].
      intros [= <- _] c [<-|H]; [reflexivity|].
      exact (IH (n + 1) cs1 n1 E c H). }
  assert (Hturn : forall t n cs n',
            Indexer.turnChunks fmt sid t n = Ok (cs, n') ->
            forall c, In c cs -> Db.is_error c = None).
  { intros t n cs n'. unfold Indexer.turnChunks.
    destruct (Session.textContent t) as [text|]; [|discriminate].
    destruct (Js.isBlank text); [apply Htool|].
    destruct (Indexer.toolChunks fmt sid (Session.toolCalls t) (n + 1))
      as [[cs1 n1]|e] eqn:E; [|discriminate].
    intros [= <- _] c [<-|H]; [reflexivity|].
    exact (Htool _ _ _ _ E c H). }
  induction ts as [|t r IH]; intros n cs; simpl.
  - intros [= <-] c [].
  - destruct (Indexer.turnChunks fmt sid t n) as [[cs1 n1]|e] eqn:E;
      [|discriminate].
    destruct (Indexer.buildChunks fmt sid r n1) as [rest|e] eqn:E';
      [|discriminate].
    intros [= <-] c H. apply in_app_or in H as [H|H].
    + exact (Hturn _ _ _ _ E c H).
    + exact (IH n1 rest E' c H).
Qed.

Lemma no_status_after_delete (d : Db.Database) (sid : string) :
  Db.working d = None
  /\ (forall c, In c (Db.chunks (Db.committed d)) -> Db.is_error c = None) ->
  Db.working (Db.deleteSession d sid) = None
  /\ (forall c, In c (Db.chunks (Db.committed (Db.deleteSession d sid))) ->
                Db.is_error c = None).
Proof.
  intros [Hw Hall].
  destruct (deleteSession_autocommit d sid Hw) as [Hw' Hv].
  split; [exact Hw'|]. rewrite <- Hv, view_deleteSession. simpl.
  intros c Hc. apply filter_In in Hc as [Hc _]. apply Hall.
  unfold Db.view in Hc. now rewrite Hw in Hc.
Qed.

Lemma no_status_after_insert (fmt : Session.ToolCall -> Result string)
      (fault : Db.Fault) (d : Db.Database) (s : Db.StoredSession)
      (sid : string) (ts : list Session.Turn) (cs : list Db.StoredChunk) :
  Db.working d = None
  /\ (forall c, In c (Db.chunks (Db.committed d)) -> Db.is_error c = None) ->
  Indexer.buildChunks fmt sid ts 0 = Ok cs ->
  let d' := fst (Db.insertSession fault d s cs) in
  Db.working d' = None
  /\ (forall c, In c (Db.chunks (Db.committed d')) -> Db.is_error c = None).
Proof.
  intros [Hw Hall] Hb. cbv zeta.
  pose proof (insertSession_cases fault d s cs) as H.
  destruct (Db.insertSession fault d s cs) as [d' [e|]]; simpl.
  - subst d'. now split.
  - destruct H as [_ ->]. simpl. split; [reflexivity|].
    intros c Hc. apply in_app_or in Hc as [Hc|Hc]; [now apply Hall|].
    apply numbered_owner in Hc as (c0 & Hc0 & _ & ->).
    exact (buildChunks_no_status fmt sid ts 0 cs Hb c0 Hc0).
Qed.

(** X23: the indexer stores no success or error status on any chunk, so
    on a store that only [indexSessions] has written to, a search with
    [status] set together with [toolsOnly] or [toolName] returns no
    session, in either mode, whatever the files held and on either
    runtime. *)
Theorem status_filter_after_indexing
        (rt : Db.Runtime) (fmt : Session.ToolCall -> Result string)
        (bm25 : string -> list Db.StoredChunk -> Db.StoredChunk
                -> option (Z * string))
        (d : Db.Database) (dir : option (list Indexer.Entry))
        (q : string) (o : Opt.SearchOptions) (st : Opt.Status)
        (res : list Query.SearchResult) :
  Db.working d = None ->
  (forall c, In c (Db.chunks (Db.committed d)) -> Db.is_error c = None) ->
  Opt.status o = Some st ->
  Query.tool_scoped o = true ->
  Query.search bm25 (Indexer.db (Indexer.indexSessions rt fmt d dir)) q o
  = Ok res ->
  res = [].
Proof.
  intros Hw Hall Hst Hscope H.
  assert (Hinv :
    Db.working (Indexer.db (Indexer.indexSessions rt fmt d dir)) = None
    /\ forall c,
         In c (Db.chunks
                 (Db.committed
                    (Indexer.db (Indexer.indexSessions rt fmt d dir)))) ->
         Db.is_error c = None).
  { unfold Indexer.indexSessions.
    destruct dir as [entries|]; simpl; [|now split].
    apply (indexFiles_db_inv rt fmt
             (fun x => Db.working x = None
                       /\ forall c, In c (Db.chunks (Db.committed x)) ->
                                    Db.is_error c = None)).
    - intros; now apply no_status_after_delete.
    - intros; now apply (no_status_after_insert fmt) with sid ts.
    - now split. }
  destruct Hinv as [Hw' Hall'].
  destruct res as [|r rest]; [reflexivity|]. exfalso.
  destruct (search_scoped_origin bm25 _ q o _ Hscope H r (or_introl eq_refl))
    as (_ & _ & _ & _ & _ & Hs).
  unfold Query.status_ok in Hs. rewrite Hst, Hscope in Hs.
  apply existsb_exists in Hs as (c2 & Hc2 & Hs).
  unfold Db.view in Hc2. rewrite Hw' in Hc2.
  rewrite (Hall' c2 Hc2) in Hs.
  rewrite andb_false_r in Hs. discriminate.
Qed.

Lemma status_filter_after_indexing_witness :
  Query.search Sample.bm25
    (Indexer.db (Indexer.indexSessions Db.Bun More.fmt Sample.emptyDb
                   More.piDir))
    "*" More.onlyTools
  <> Ok []
  /\ Query.search Sample.bm25
       (Indexer.db (Indexer.indexSessions Db.Bun More.fmt Sample.emptyDb
                      More.piDir))
       "*" More.failedTools
     = Ok [].
Proof.
  split; [discriminate|].
  assert (H : exists res,
            Query.search Sample.bm25
              (Indexer.db (Indexer.indexSessions Db.Bun More.fmt Sample.emptyDb
                             More.piDir))
              "*" More.failedTools = Ok res)
    by (eexists; reflexivity).
  destruct H as (res & H). rewrite H. f_equal.
  apply (status_filter_after_indexing Db.Bun More.fmt Sample.bm25 Sample.emptyDb
           More.piDir "*" More.failedTools Opt.error res eq_refl
           ltac:(intros c []) eq_refl eq_refl H).
Defined.

(** ** First pass, and the conditions of a write *)

Lemma indexFile_new (rt : Db.Runtime)
      (fmt : Session.ToolCall -> Result string)
      (st : Indexer.State) (f : Indexer.File) :
  Db.working (Indexer.db st) = None ->
  More.settles rt fmt f ->
  Indexer.canParse f = true ->
  (forall sid, In sid (More.quickId f) ->
               Db.getSessionMtime (Indexer.db st) sid = None) ->
  Indexer.result (Indexer.indexFile rt fmt st f)
  = Indexer.bump_added (Indexer.result st).
Proof.
  intros Hw Hs Hc Hnew.
  destruct (settles_accepted rt fmt f Hs Hc)
    as (m & sid & ps & cs & H1 & H2 & H3 & H4 & Hb & H5 & Hrt & H6).
  rewrite H6 in Hnew. specialize (Hnew sid (or_introl eq_refl)).
  rewrite <- H4 in Hb.
  rewrite (indexFile_reindex rt fmt st f m Hc H1).
  - destruct (reindex_settled rt fmt st f m ps cs Hw H3 Hb H5 Hrt)
      as (_ & _ & _ & R & _).
    rewrite R, H4, Hnew. reflexivity.
  - rewrite H2. discriminate.
  - intros x E. rewrite H2 in E. injection E as <-. rewrite Hnew.
    discriminate.
Qed.

(** X24: a first pass adds everything that can be stored.  On a store
    that holds none of their sessions, files that parse, have their
    chunks built without a throw, are written without failure on a
    binding that takes their chunks (the store runs on [bun:sqlite], or
    the file yields no chunk) and carry distinct ids in their first lines
    are all counted as added, none as updated, skipped or failed, and
    afterwards each accepted file's session is stored under the file's
    mtime. *)
Theorem indexFiles_first_pass_adds
        (rt : Db.Runtime) (fmt : Session.ToolCall -> Result string)
        (fs : list Indexer.File) (st : Indexer.State) :
  Db.working (Indexer.db st) = None ->
  Forall (More.settles rt fmt) fs ->
  NoDup (flat_map More.quickId fs) ->
  (forall sid, In sid (flat_map More.quickId fs) ->
               Db.getSessionMtime (Indexer.db st) sid = None) ->
  let st' := Indexer.indexFiles rt fmt fs st in
  Indexer.result st'
  = Indexer.mkIndexResult
      (Indexer.added (Indexer.result st)
       + Z.of_nat (List.length (More.accepted fs)))
      (Indexer.updated (Indexer.result st))
      (Indexer.skipped (Indexer.result st))
      (Indexer.errors (Indexer.result st))
  /\ forall f, In f fs -> Indexer.canParse f = true ->
       exists m sid,
         Indexer.mtimeMs f = Some m
         /\ Indexer.header f = Indexer.HeaderId (Some sid)
         /\ Db.getSessionMtime (Indexer.db st') sid = Some m.
Proof.
  intros Hw Hall Hnd Hnew. cbv zeta.
  split; [|now apply first_pass_records].
  revert st Hw Hall Hnd Hnew. unfold Indexer.indexFiles, More.accepted.
  induction fs as [|f r IH]; intros st Hw Hall Hnd Hnew; simpl.
  - destruct st as [d [a u s e] l]; simpl. now rewrite Z.add_0_r.
  - inversion Hall as [|? ? Hf Hr]; subst. simpl in Hnd, Hnew.
    destruct (indexFile_settled rt fmt st f Hw Hf) as (W & _ & O).
    assert (Hnd' : NoDup (flat_map More.quickId r)).
    { clear - Hnd.
      induction (More.quickId f) as [|x l IHl]; simpl in *; auto.
      apply IHl. now inversion Hnd. }
    assert (Hnew' : forall sid, In sid (flat_map More.quickId r) ->
              Db.getSessionMtime
                (Indexer.db (Indexer.indexFile rt fmt st f)) sid = None).
    { intros sid Hin. rewrite O.
      - apply Hnew, in_or_app. now right.
      - intros Hq. clear - Hnd Hin Hq.
        induction (More.quickId f) as [|x l IHl]; simpl in *; [tauto|].
        inversion Hnd as [|? ? Hx Hrest]; subst.
        destruct Hq as [->|Hq]; [|now apply IHl].
        apply Hx, in_or_app. now right. }
    rewrite (IH _ W Hr Hnd' Hnew').
    destruct (Indexer.canParse f) eqn:Hc.
    + rewrite (indexFile_new rt fmt st f Hw Hf Hc).
      * cbn [Indexer.bump_added Indexer.added Indexer.updated
             Indexer.skipped Indexer.errors List.length].
        f_equal. lia.
      * intros sid Hin. apply Hnew, in_or_app. now left.
    + unfold Indexer.indexFile. rewrite Hc. reflexivity.
Qed.

Lemma indexFiles_first_pass_adds_witness :
  let fs := [Sample.file "s1" 1000; Sample.file "s2" 2000] in
  let st' := Indexer.indexFiles Db.Bun Sample.fmt fs Sample.start in
  Indexer.result st'
  = Indexer.mkIndexResult
      (Indexer.added (Indexer.result Sample.start)
       + Z.of_nat (List.length (More.accepted fs)))
      (Indexer.updated (Indexer.result Sample.start))
      (Indexer.skipped (Indexer.result Sample.start))
      (Indexer.errors (Indexer.result Sample.start))
  /\ forall f, In f fs -> Indexer.canParse f = true ->
       exists m sid,
         Indexer.mtimeMs f = Some m
         /\ Indexer.header f = Indexer.HeaderId (Some sid)
         /\ Db.getSessionMtime (Indexer.db st') sid = Some m.
Proof.
  apply (indexFiles_first_pass_adds Db.Bun Sample.fmt
           [Sample.file "s1" 1000; Sample.file "s2" 2000] Sample.start).
  - reflexivity.
  - constructor; [|constructor; [|constructor]]; right.
    + exists 1000, "s1"%string, (Sample.parsed "s1").
      eexists. repeat split; try reflexivity. now left.
    + exists 2000, "s2"%string, (Sample.parsed "s2").
      eexists. repeat split; try reflexivity. now left.
  - simpl. repeat constructor; simpl; intuition discriminate.
  - intros sid _. reflexivity.
Defined.

(** X25: when no outside failure strikes, [insertSession] returns
    normally exactly when it is called outside a transaction, the
    session id is not stored yet, and every chunk belongs to a stored
    session or to the new one.  On a stored id it throws the UNIQUE
    failure of [sessions.id]; inside a transaction it throws at BEGIN;
    in both cases the database is left as it was. *)
Theorem insertSession_succeeds_iff
        (d : Db.Database) (s : Db.StoredSession)
        (cs : list Db.StoredChunk) :
  (snd (Db.insertSession None d s cs) = None
   <-> Db.working d = None
       /\ Db.has_session (Db.committed d) (Db.id s) = false
       /\ forall c, In c cs ->
            (Db.has_session (Db.committed d) (Db.session_id c)
             || String.eqb (Db.id s) (Db.session_id c))%bool = true)
  /\ (Db.working d = None ->
      Db.has_session (Db.committed d) (Db.id s) = true ->
      Db.insertSession None d s cs
      = (d, Some "UNIQUE constraint failed: sessions.id"%string))
  /\ (Db.working d <> None ->
      Db.insertSession None d s cs
      = (d, Some "cannot start a transaction within a transaction"%string)).
Proof.
  split; [split|split].
  - intros Hok.
    destruct (insertSession_new_id None d s cs Hok) as [H1 H2].
    pose proof (insertSession_cases None d s cs) as H.
    destruct (Db.insertSession None d s cs) as [d' [e|]]; simpl in Hok;
      [discriminate|].
    destruct H as [Hw _]. auto.
  - intros (Hw & Hnew & Hfk). now apply insertSession_succeeds.
  - intros Hw Hdup. unfold Db.insertSession, Db.exec_begin. rewrite Hw.
    simpl. unfold Db.insert_session_row, Db.view. simpl. rewrite Hdup.
    unfold Db.exec_rollback. simpl. destruct d as [c w]. simpl in *.
    now subst w.
  - intros Hw. unfold Db.insertSession, Db.exec_begin.
    destruct (Db.working d); [reflexivity|congruence].
Qed.
